(** * Novel Diver: the story continuation pipeline and its session data model

    A shallow embedding of the repository (character.py, decision.py, the
    engine of story_engine.py with its prompts, its demo mode and its
    backends, the keys, clients and [retry_with_backoff] of config.py, and
    the handlers of app.py that start, advance, page, save and load a
    story), followed by the properties established about it.  The user
    database of auth.py and the Streamlit forms are not part of it.

    Conventions of the embedding.
    - A Python [str] is a [string]: a finite sequence of characters, each an
      8-bit code.  [isspace] and [lower] follow Python on that range,
      [title] on the ASCII letters; the program's own literals are all
      ASCII.
    - A Python [int] is a [Z] where it can be negative and a [nat] where it
      counts; a list is a [list]; [len] is [length].
    - A function that can raise returns a value of [result] or of a sum, one
      case of which carries the exception.  A function that changes an
      object returns the changed object.
    - [datetime.now()] reads a clock that is threaded through the operations
      which consult it; the [datetime] and [json] libraries are interfaces.
    - The delays of [retry_with_backoff] are rational numbers.
    - What lies outside the program (the providers behind the clients, the
      random generator, the files) is a state that is passed along, with
      one function for each call into it. *)

From Stdlib Require Import String Ascii List ZArith QArith Bool Arith Lia.
From Stdlib Require Import DecimalString.
Import ListNotations.

Close Scope Q_scope.
Open Scope string_scope.
Open Scope nat_scope.

(* ================================================================== *)
(** * Part I: the embedding *)
(* ================================================================== *)

(** ** Python string primitives used by the program *)

Module PyStr.

(** The line feed, written ['\n'] in the source. *)
Definition LF : ascii := "010"%char.
Definition nl : string := String LF EmptyString.

(** [str.isspace] on one character (also the class [\s] of [re] on [str]
    patterns): TAB..CR, FS..US, SPACE, NEL and NBSP. *)
Definition isspace (c : ascii) : bool :=
  let n := nat_of_ascii c in
  ((9 <=? n) && (n <=? 13)) || ((28 <=? n) && (n <=? 32))
  || (n =? 133) || (n =? 160).

Definition is_empty (s : string) : bool :=
  match s with EmptyString => true | String _ _ => false end.

(** [s.lstrip()], [s.rstrip()] and [s.strip()] without argument. *)
Fixpoint lstrip (s : string) : string :=
  match s with
  | EmptyString => EmptyString
  | String c s' => if isspace c then lstrip s' else s
  end.

Fixpoint rstrip (s : string) : string :=
  match s with
  | EmptyString => EmptyString
  | String c s' =>
      let r := rstrip s' in
      if isspace c && is_empty r then EmptyString else String c r
  end.

Definition strip (s : string) : string := rstrip (lstrip s).

(** [sub in s]. *)
Fixpoint contains (sub s : string) : bool :=
  prefix sub s ||
  match s with
  | EmptyString => false
  | String _ s' => contains sub s'
  end.

(** [s.split(sep)] for a non-empty separator (both call sites pass a
    non-empty literal): the text is scanned from the left, every
    occurrence of [sep] found closes the current piece and the scan resumes
    after it.  [skip] counts the characters of a matched separator still to
    be passed over; [cur] is the piece being built. *)
Fixpoint split_from (sep : string) (skip : nat) (cur s : string)
  : list string :=
  match s with
  | EmptyString => [cur]
  | String c s' =>
      match skip with
      | S k => split_from sep k cur s'
      | O =>
          if prefix sep s
          then cur :: split_from sep (String.length sep - 1) EmptyString s'
          else split_from sep 0 (cur ++ String c EmptyString) s'
      end
  end.

Definition split (sep s : string) : list string :=
  split_from sep 0 EmptyString s.

(** [sep.join(parts)]. *)
Fixpoint join (sep : string) (parts : list string) : string :=
  match parts with
  | [] => EmptyString
  | [p] => p
  | p :: rest => p ++ sep ++ join sep rest
  end.

(** [str.lower] and [str.upper] on one character. *)
Definition is_upper (c : ascii) : bool :=
  let n := nat_of_ascii c in
  ((65 <=? n) && (n <=? 90))
  || ((192 <=? n) && (n <=? 222) && negb (n =? 215)).

Definition is_lower_ascii (c : ascii) : bool :=
  let n := nat_of_ascii c in (97 <=? n) && (n <=? 122).

Definition lower_char (c : ascii) : ascii :=
  if is_upper c then ascii_of_nat (nat_of_ascii c + 32) else c.

Definition upper_char (c : ascii) : ascii :=
  if is_lower_ascii c then ascii_of_nat (nat_of_ascii c - 32) else c.

Fixpoint lower (s : string) : string :=
  match s with
  | EmptyString => EmptyString
  | String c s' => String (lower_char c) (lower s')
  end.

(** [str.title]: a cased character that follows an uncased one (or starts
    the text) is upper-cased, one that follows a cased character is
    lower-cased.  Case is taken on the ASCII letters. *)
Definition is_cased (c : ascii) : bool :=
  let n := nat_of_ascii c in
  ((65 <=? n) && (n <=? 90)) || ((97 <=? n) && (n <=? 122)).

Fixpoint title_from (previous_is_cased : bool) (s : string) : string :=
  match s with
  | EmptyString => EmptyString
  | String c s' =>
      String (if previous_is_cased then lower_char c else upper_char c)
             (title_from (is_cased c) s')
  end.

Definition title (s : string) : string := title_from false s.

End PyStr.

(** ** story_engine.py: [StoryEngine._parse_response] *)

Module StoryEngine.
Import PyStr.

Definition DECISION_POINT : string := "DECISION_POINT".

(** The options returned when the marker is missing. *)
Definition fallback_options : list string :=
  [ "Continue cautiously";
    "Take a bold approach";
    "Seek more information";
    "Try a creative solution" ].

(** The options used to fill up a list of fewer than four. *)
Definition padding_options : list string :=
  [ "Take a different approach";
    "Wait and observe";
    "Act decisively";
    "Seek help from others" ].

(** [(.+)]: the longest non-empty run of characters other than the line
    feed. *)
Fixpoint dot_star (s : string) : string :=
  match s with
  | EmptyString => EmptyString
  | String c s' =>
      if Ascii.eqb c LF then EmptyString else String c (dot_star s')
  end.

Definition dot_plus (s : string) : option string :=
  match dot_star s with
  | EmptyString => None
  | g => Some g
  end.

(** [\s*(.+)] with the backtracking of [re]: the greedy [\s*] first takes
    one more blank and gives it back when the rest cannot match. *)
Fixpoint ws_then_group (s : string) : option string :=
  match s with
  | EmptyString => None
  | String c s' =>
      if isspace c then
        match ws_then_group s' with
        | Some g => Some g
        | None => dot_plus s
        end
      else dot_plus s
  end.

Definition is_digit_1_4 (c : ascii) : bool :=
  let n := nat_of_ascii c in (49 <=? n) && (n <=? 52).

Definition is_dot_or_paren (c : ascii) : bool :=
  Ascii.eqb c "."%char || Ascii.eqb c ")"%char.

(** [re.match(r'^[1-4][\.\)]\s*(.+)', line)], giving [group(1)]. *)
Definition match_option_line (line : string) : option string :=
  match line with
  | String d (String p rest) =>
      if is_digit_1_4 d && is_dot_or_paren p then ws_then_group rest
      else None
  | _ => None
  end.

(** The loop over the lines, appending to [options]. *)
Fixpoint collect_options (lines : list string) (options : list string)
  : list string :=
  match lines with
  | [] => options
  | line :: rest =>
      let line := strip line in
      match match_option_line line with
      | Some g => collect_options rest (options ++ [strip g])
      | None => collect_options rest options
      end
  end.

Definition parse_response (response : string) : string * list string :=
  let parts := split DECISION_POINT response in
  if List.length parts <? 2 then
    (strip response, fallback_options)
  else
    let story_text := strip (nth 0 parts EmptyString) in
    let options_text := strip (nth 1 parts EmptyString) in
    let options := collect_options (split nl options_text) [] in
    let options :=
      if List.length options <? 4 then
        (options ++ firstn (4 - List.length options) padding_options)%list
      else if 4 <? List.length options then firstn 4 options
      else options in
    (story_text, options).

End StoryEngine.

(** ** character.py: the [Character] dataclass *)

Module Character.
Import PyStr.

Record t := mk {
  name : string;
  background : string;
  traits : list string;
  goals : string;
  world : string
}.

(** [Character.to_prompt]: the f-string, then [strip]. *)
Definition to_prompt (self : t) : string :=
  let traits_str :=
    match traits self with
    | [] => "No specific traits defined"
    | _ => join ", " (traits self)
    end in
  let prompt :=
    nl ++ "PROTAGONIST PROFILE:" ++ nl
    ++ "Name: " ++ name self ++ nl
    ++ "World: " ++ title (world self) ++ nl
    ++ "Background: " ++ background self ++ nl
    ++ "Personality Traits: " ++ traits_str ++ nl
    ++ "Goals & Motivations: " ++ goals self ++ nl
    ++ nl
    ++ "This character is the protagonist of the story. All narrative should be written from their perspective or about their actions and decisions."
    ++ nl in
  strip prompt.

(** One [if ...: issues.append(msg)] of [validate]. *)
Definition append_if (cond : bool) (msg : string) (issues : list string)
  : list string :=
  if cond then (issues ++ [msg])%list else issues.

(** [Character.validate]: the pair [(len(issues) == 0, issues)]. *)
Definition validate (self : t) : bool * list string :=
  let issues := [] in
  let issues :=
    append_if (is_empty (name self)
               || (String.length (strip (name self)) <? 2))
      "Name must be at least 2 characters long" issues in
  let issues :=
    append_if (is_empty (background self)
               || (String.length (strip (background self)) <? 10))
      "Background must be at least 10 characters long" issues in
  let issues :=
    append_if (is_empty (goals self)
               || (String.length (strip (goals self)) <? 10))
      "Goals must be at least 10 characters long" issues in
  let issues :=
    append_if (is_empty (world self)) "World must be specified" issues in
  let issues :=
    append_if (100 <? String.length (name self))
      "Name is too long (max 100 characters)" issues in
  let issues :=
    append_if (1000 <? String.length (background self))
      "Background is too long (max 1000 characters)" issues in
  let issues :=
    append_if (500 <? String.length (goals self))
      "Goals are too long (max 500 characters)" issues in
  (List.length issues =? 0, issues).

End Character.

(** ** Library interfaces used by decision.py *)

(** The exceptions that deserialisation can raise. *)
Inductive exn :=
| KeyError (key : string)
| ValueError (msg : string)
| TypeError
| JSONDecodeError.

Inductive result (A : Type) :=
| Ok (a : A)
| Raise (e : exn).
Arguments Ok {A} a.
Arguments Raise {A} e.

Definition bind {A B} (r : result A) (k : A -> result B) : result B :=
  match r with
  | Ok a => k a
  | Raise e => Raise e
  end.

Notation "x <- r ;; k" := (bind r (fun x => k))
  (at level 61, r at next level, right associativity).

(** A list comprehension whose element expression can raise. *)
Fixpoint traverse {A B} (f : A -> result B) (l : list A) : result (list B) :=
  match l with
  | [] => Ok []
  | a :: rest =>
      b <- f a ;;
      bs <- traverse f rest ;;
      Ok (b :: bs)
  end.

(** The values [json.dumps] accepts and [json.loads] returns, as far as the
    history uses them.  A [dict] keeps its keys in insertion order. *)
#[warnings="-register-all"]
Inductive json :=
| JNull
| JBool (b : bool)
| JInt (n : Z)
| JStr (s : string)
| JList (items : list json)
| JDict (fields : list (string * json)).

(** The [datetime] class: [isoformat], [fromisoformat] and the
    [strftime('%Y%m%d_%H%M%S')] rendering used for identifiers. *)
Class DateTime := {
  datetime : Type;
  isoformat : datetime -> string;
  fromisoformat : string -> result datetime;
  strftime_Ymd_HMS : datetime -> string
}.

(** The [json] module: [dumps(_, indent=2)] and [loads]. *)
Class Json := {
  dumps : json -> string;
  loads : string -> result json
}.

(** The clock read by [datetime.now()]: the n-th reading, and how many
    readings were taken so far. *)
Record Clock `{DateTime} := mkClock {
  readings : nat -> datetime;
  ticks : nat
}.

Definition now `{DateTime} (clk : Clock) : datetime * Clock :=
  (readings clk (ticks clk),
   {| readings := readings clk; ticks := S (ticks clk) |}).

Module Dict.

Fixpoint lookup (key : string) (fields : list (string * json))
  : option json :=
  match fields with
  | [] => None
  | (k, v) :: rest => if String.eqb k key then Some v else lookup key rest
  end.

(** [data[key]]. *)
Definition getitem (data : json) (key : string) : result json :=
  match data with
  | JDict fields =>
      match lookup key fields with
      | Some v => Ok v
      | None => Raise (KeyError key)
      end
  | _ => Raise TypeError
  end.

(** [data.get(key, default)]. *)
Definition get (data : json) (key : string) (default : json)
  : result json :=
  match data with
  | JDict fields =>
      match lookup key fields with
      | Some v => Ok v
      | None => Ok default
      end
  | _ => Raise TypeError
  end.

(** Reading a field at its declared type; a value of another type is
    rejected here, where the dataclass would store it as it is. *)
Definition as_str (j : json) : result string :=
  match j with JStr s => Ok s | _ => Raise TypeError end.

Definition as_int (j : json) : result Z :=
  match j with JInt n => Ok n | _ => Raise TypeError end.

Definition as_list (j : json) : result (list json) :=
  match j with JList l => Ok l | _ => Raise TypeError end.

Definition as_str_list (j : json) : result (list string) :=
  l <- as_list j ;; traverse as_str l.

Definition as_datetime `{DateTime} (j : json) : result datetime :=
  s <- as_str j ;; fromisoformat s.

End Dict.

(** ** decision.py *)

Module StoryChunk.
Section WithDateTime.
Context `{DT : DateTime}.

Record t := mk {
  text : string;
  timestamp : datetime;
  chunk_id : string;
  decision_options : list string
}.

(** The constructor call [StoryChunk(text=..., decision_options=...)]: the
    two default factories read the clock, in field order. *)
Definition create (text : string) (decision_options : list string)
    (clk : Clock) : t * Clock :=
  let (ts, clk) := now clk in
  let (t_id, clk) := now clk in
  (mk text ts ("chunk_" ++ strftime_Ymd_HMS t_id) decision_options, clk).

Definition to_dict (self : t) : json :=
  JDict [ ("text", JStr (text self));
          ("timestamp", JStr (isoformat (timestamp self)));
          ("chunk_id", JStr (chunk_id self));
          ("decision_options", JList (map JStr (decision_options self))) ].

Definition from_dict (data : json) : result t :=
  text <- bind (Dict.getitem data "text") Dict.as_str ;;
  timestamp <- bind (Dict.getitem data "timestamp") Dict.as_datetime ;;
  chunk_id <- bind (Dict.getitem data "chunk_id") Dict.as_str ;;
  decision_options <-
    bind (Dict.get data "decision_options" (JList [])) Dict.as_str_list ;;
  Ok (mk text timestamp chunk_id decision_options).

End WithDateTime.
End StoryChunk.

Module DecisionEntry.
Section WithDateTime.
Context `{DT : DateTime}.

Record t := mk {
  decision_text : string;
  options_available : list string;
  chosen_index : Z;
  timestamp : datetime
}.

Definition create (decision_text : string) (options_available : list string)
    (chosen_index : Z) (clk : Clock) : t * Clock :=
  let (ts, clk) := now clk in
  (mk decision_text options_available chosen_index ts, clk).

Definition to_dict (self : t) : json :=
  JDict [ ("decision_text", JStr (decision_text self));
          ("options_available", JList (map JStr (options_available self)));
          ("chosen_index", JInt (chosen_index self));
          ("timestamp", JStr (isoformat (timestamp self))) ].

Definition from_dict (data : json) : result t :=
  decision_text <- bind (Dict.getitem data "decision_text") Dict.as_str ;;
  options_available <-
    bind (Dict.getitem data "options_available") Dict.as_str_list ;;
  chosen_index <- bind (Dict.getitem data "chosen_index") Dict.as_int ;;
  timestamp <- bind (Dict.getitem data "timestamp") Dict.as_datetime ;;
  Ok (mk decision_text options_available chosen_index timestamp).

End WithDateTime.
End DecisionEntry.

Module StoryHistory.
Import PyStr.
Section WithLibraries.
Context `{DT : DateTime}.

Record t := mk {
  session_id : string;
  character_name : string;
  world_type : string;
  story_chunks : list StoryChunk.t;
  decisions : list DecisionEntry.t;
  created_at : datetime;
  last_updated : datetime
}.

(** [StoryHistory(session_id=..., character_name=..., world_type=...)]. *)
Definition create (session_id character_name world_type : string)
    (clk : Clock) : t * Clock :=
  let (t_created, clk) := now clk in
  let (t_updated, clk) := now clk in
  (mk session_id character_name world_type [] [] t_created t_updated, clk).

Definition set_story_chunks (self : t) (l : list StoryChunk.t) : t :=
  mk (session_id self) (character_name self) (world_type self)
     l (decisions self) (created_at self) (last_updated self).

Definition set_decisions (self : t) (l : list DecisionEntry.t) : t :=
  mk (session_id self) (character_name self) (world_type self)
     (story_chunks self) l (created_at self) (last_updated self).

Definition set_last_updated (self : t) (d : datetime) : t :=
  mk (session_id self) (character_name self) (world_type self)
     (story_chunks self) (decisions self) (created_at self) d.

(** [add_story_chunk(text, options=None)]: returns the chunk and the
    updated history. *)
Definition add_story_chunk (self : t) (text : string)
    (options : option (list string)) (clk : Clock)
  : (StoryChunk.t * t) * Clock :=
  let (chunk, clk) :=
    StoryChunk.create text
      (match options with Some l => l | None => [] end) clk in
  let self := set_story_chunks self (story_chunks self ++ [chunk]) in
  let (t_upd, clk) := now clk in
  ((chunk, set_last_updated self t_upd), clk).

(** [add_decision(decision_text, available_options, chosen_index)]. *)
Definition add_decision (self : t) (decision_text : string)
    (available_options : list string) (chosen_index : Z) (clk : Clock)
  : (DecisionEntry.t * t) * Clock :=
  let (decision, clk) :=
    DecisionEntry.create decision_text available_options chosen_index clk in
  let self := set_decisions self (decisions self ++ [decision]) in
  let (t_upd, clk) := now clk in
  ((decision, set_last_updated self t_upd), clk).

(** The slice [l[start:]] of Python, for any integer [start]. *)
Definition slice_from {A} (l : list A) (start : Z) : list A :=
  let n := Z.of_nat (List.length l) in
  let start := if (start <? 0)%Z then Z.max (start + n) 0 else Z.min start n in
  skipn (Z.to_nat start) l.

(** [get_recent_context(num_chunks=3)]. *)
Definition get_recent_context (self : t) (num_chunks : Z) : string :=
  match story_chunks self with
  | [] => EmptyString
  | _ =>
      let recent_chunks := slice_from (story_chunks self) (- num_chunks)%Z in
      let context_parts := map StoryChunk.text recent_chunks in
      let context_parts :=
        match decisions self with
        | [] => context_parts
        | d0 :: ds =>
            if List.length (decisions self) <? List.length (story_chunks self)
            then
              let last_decision := last (decisions self) d0 in
              let note :=
                nl ++ "[Last Decision: "
                ++ DecisionEntry.decision_text last_decision ++ "]" in
              (context_parts ++ [note])%list
            else context_parts
        end in
      join (nl ++ nl) context_parts
  end.

Definition to_dict (self : t) : json :=
  JDict [ ("session_id", JStr (session_id self));
          ("character_name", JStr (character_name self));
          ("world_type", JStr (world_type self));
          ("story_chunks", JList (map StoryChunk.to_dict (story_chunks self)));
          ("decisions", JList (map DecisionEntry.to_dict (decisions self)));
          ("created_at", JStr (isoformat (created_at self)));
          ("last_updated", JStr (isoformat (last_updated self))) ].

Definition from_dict (data : json) : result t :=
  session_id <- bind (Dict.getitem data "session_id") Dict.as_str ;;
  character_name <- bind (Dict.getitem data "character_name") Dict.as_str ;;
  world_type <- bind (Dict.getitem data "world_type") Dict.as_str ;;
  story_chunks <-
    (l <- bind (Dict.get data "story_chunks" (JList [])) Dict.as_list ;;
     traverse StoryChunk.from_dict l) ;;
  decisions <-
    (l <- bind (Dict.get data "decisions" (JList [])) Dict.as_list ;;
     traverse DecisionEntry.from_dict l) ;;
  created_at <- bind (Dict.getitem data "created_at") Dict.as_datetime ;;
  last_updated <- bind (Dict.getitem data "last_updated") Dict.as_datetime ;;
  Ok (mk session_id character_name world_type story_chunks decisions
         created_at last_updated).

Context `{JS : Json}.

Definition to_json (self : t) : string := dumps (to_dict self).

Definition from_json (json_str : string) : result t :=
  data <- loads json_str ;;
  from_dict data.

End WithLibraries.
End StoryHistory.

(** ** config.py: [Config.retry_with_backoff] *)

Module Config.
Import PyStr.

Definition rate_limit_keywords : list string :=
  [ "rate limit"; "429"; "quota"; "too many requests" ].

(** [any(keyword in error_str for keyword in [...])] on
    [error_str = str(e).lower()]. *)
Definition is_rate_limit_error (msg : string) : bool :=
  let error_str := lower msg in
  existsb (fun keyword => contains keyword error_str) rate_limit_keywords.

(** [range(n)]. *)
Definition range (n : Z) : list Z :=
  map Z.of_nat (seq 0 (Z.to_nat n)).

(** How a call of [retry_with_backoff] ends: it returns what [func]
    returned, it raises, or it runs off the end of the loop and returns
    [None]. *)
Inductive outcome (V E : Type) :=
| Returned (v : V)
| Raised (e : E)
| ReturnedNone.
Arguments Returned {V E} v.
Arguments Raised {V E} e.
Arguments ReturnedNone {V E}.

Section RetryWithBackoff.
(** [func] is any callable: it acts on a state of the world [W], and
    returns a value or raises an exception of [E] whose text is
    [str e]. *)
Context {W V E : Type}.
Variable str : E -> string.
Variable func : W -> (E + V) * W.

(** What the call has done so far: the state [func] left, the delays
    passed to [time.sleep] (oldest first) and the number of calls of
    [func]. *)
Record effects := mkEffects {
  world : W;
  slept : list Q;
  calls : nat
}.

Definition delay (base_delay : Q) (attempt : Z) : Q :=
  (base_delay * inject_Z (2 ^ attempt))%Q.

(** The body of the [for] loop, run over the attempts still to come. *)
Fixpoint retry_loop (max_retries : Z) (base_delay : Q)
    (attempts : list Z) (fx : effects) : outcome V E * effects :=
  match attempts with
  | [] => (ReturnedNone, fx)
  | attempt :: rest =>
      let (r, w) := func (world fx) in
      let fx := mkEffects w (slept fx) (S (calls fx)) in
      match r with
      | inr v => (Returned v, fx)
      | inl e =>
          if (attempt =? max_retries)%Z then (Raised e, fx)
          else if is_rate_limit_error (str e) then
            retry_loop max_retries base_delay rest
              (mkEffects w (slept fx ++ [delay base_delay attempt])
                         (calls fx))
          else (Raised e, fx)
      end
  end.

Definition retry_with_backoff (max_retries : Z) (base_delay : Q) (w : W)
  : outcome V E * effects :=
  retry_loop max_retries base_delay (range (max_retries + 1))
    (mkEffects w [] 0).

End RetryWithBackoff.

Definition default_max_retries : Z := 3.
Definition default_base_delay : Q := 1.

End Config.

(** ** app.py: the handlers that advance a story *)

Module App.
Section WithDateTime.
Context `{DT : DateTime}.

(** What the story engine does when a handler turns to it:
    [is_available()] is false, or [start_story] / [continue_story] returns
    a pair, or the call raises. *)
Inductive engine_result :=
| Unavailable
| Generated (story_text : string) (options : list string)
| Failed (error_msg : string).

(** The entries of [st.session_state] the handlers below read and write
    that bear on the history, and the clock. *)
Record session := mkSession {
  story_history : option StoryHistory.t;
  current_options : list string;
  story_started : bool;
  waiting_for_choice : bool;
  clock : Clock
}.

(** [initialize_session_state]. *)
Definition initialize_session_state (clk : Clock) : session :=
  mkSession None [] false false clk.

(** [l[i]] of Python, [None] standing for [IndexError]. *)
Definition list_getitem {A} (l : list A) (i : Z) : option A :=
  let n := Z.of_nat (List.length l) in
  if (0 <=? i)%Z then nth_error l (Z.to_nat i)
  else if (- n <=? i)%Z then nth_error l (Z.to_nat (i + n))
  else None.

(** [start_new_story(character)]. *)
Definition start_new_story (character : Character.t) (engine : engine_result)
    (s : session) : session :=
  let (t_id, clk) := now (clock s) in
  let session_id := Character.name character ++ "_" ++ strftime_Ymd_HMS t_id in
  let (history, clk) :=
    StoryHistory.create session_id (Character.name character)
      (Character.world character) clk in
  let s := mkSession (Some history) (current_options s) (story_started s)
             (waiting_for_choice s) clk in
  match engine with
  | Unavailable => s
  | Failed _ => s
  | Generated story_text options =>
      let '((_, history), clk) :=
        StoryHistory.add_story_chunk history story_text (Some options) clk in
      mkSession (Some history) options true true clk
  end.

(** [make_decision(choice_index)].  An exception that leaves the handler
    before the history is touched ([IndexError] on a negative index out of
    range, a missing history) leaves the session as it was. *)
Definition make_decision (choice_index : Z) (engine : engine_result)
    (s : session) : session :=
  match current_options s with
  | [] => s
  | _ =>
      if (Z.of_nat (List.length (current_options s)) <=? choice_index)%Z
      then s
      else
        match list_getitem (current_options s) choice_index,
              story_history s with
        | Some chosen_option, Some history =>
            let '((_, history), clk) :=
              StoryHistory.add_decision history chosen_option
                (current_options s) choice_index (clock s) in
            let s := mkSession (Some history) (current_options s)
                       (story_started s) (waiting_for_choice s) clk in
            match engine with
            | Unavailable => s
            | Failed _ => s
            | Generated story_text new_options =>
                let '((_, history), clk) :=
                  StoryHistory.add_story_chunk history story_text
                    (Some new_options) clk in
                mkSession (Some history) new_options (story_started s)
                  true clk
            end
        | _, _ => s
        end
  end.

(** [restart_story]. *)
Definition restart_story (s : session) : session :=
  mkSession None [] false false (clock s).

(** [display_paginated_story] shows the "Make Decision" button, from which
    [make_decision] is called, when a history with at least one chapter is
    on display (it returns early on [not story_history], which the
    [__len__] of the history makes true without chunks, and on
    [total_chapters == 0]), a choice is awaited and there are options. *)
Definition decision_offered (s : session) : bool :=
  match story_history s with
  | None => false
  | Some history =>
      negb (List.length (StoryHistory.story_chunks history) =? 0)
      && waiting_for_choice s
      && negb (List.length (current_options s) =? 0)
  end.

(** What the user can do to a session. *)
Inductive action :=
| StartAdventure (character : Character.t) (engine : engine_result)
| MakeDecision (choice_index : Z) (engine : engine_result)
| RestartStory.

Definition step (s : session) (a : action) : session :=
  match a with
  | StartAdventure character engine => start_new_story character engine s
  | MakeDecision choice_index engine =>
      if decision_offered s then make_decision choice_index engine s else s
  | RestartStory => restart_story s
  end.

Definition run (s : session) (actions : list action) : session :=
  fold_left step actions s.

(** A continuation that was asked for and produced no chunk. *)
Definition is_failure (engine : engine_result) : bool :=
  match engine with
  | Generated _ _ => false
  | _ => true
  end.

End WithDateTime.
End App.

(** ** Further Python primitives *)

Module PyText.

(** The double quote. *)
Definition dq : string := String (ascii_of_nat 34) EmptyString.

(** [str(n)] for a natural number. *)
Definition str_of_nat (n : nat) : string :=
  NilEmpty.string_of_uint (Nat.to_uint n).

(** [s[:n]]. *)
Fixpoint take (n : nat) (s : string) : string :=
  match n, s with
  | S n, String c s' => String c (take n s')
  | _, _ => EmptyString
  end.

(** [range(a, b)]. *)
Definition range_from (a b : Z) : list Z :=
  map (fun i => (a + Z.of_nat i)%Z) (seq 0 (Z.to_nat (b - a))).

(** A file as [open] finds it: missing, a text file, or a path that cannot
    be opened (a directory, a file without permission, a missing folder). *)
Inductive file :=
| NoFile
| TextFile (content : string)
| Blocked.

(** The files by path. *)
Definition file_system := string -> file.

(** [open(path, 'r').read()]: an error is [None]. *)
Definition read_file (fs : file_system) (path : string) : option string :=
  match fs path with
  | TextFile content => Some content
  | NoFile | Blocked => None
  end.

(** [open(path, 'w').write(content)]: an error is [None]. *)
Definition write_file (fs : file_system) (path content : string)
  : option file_system :=
  match fs path with
  | Blocked => None
  | NoFile | TextFile _ =>
      Some (fun p => if String.eqb p path then TextFile content else fs p)
  end.

End PyText.

(** ** character.py: [Character.create_sample] and [Character.__str__] *)

Module CharacterSamples.
Import PyStr.

Definition cultivation_sample : Character.t :=
  Character.mk "Li Wei"
    "A young orphan discovered to have rare spiritual roots, taken in by the Azure Mountain Sect after showing promise in cultivation."
    ["Determined"; "Humble"; "Quick-learner"; "Loyal"]
    "To avenge his deceased master and reach the peak of cultivation to protect those he cares about."
    "cultivation".

Definition martial_arts_sample : Character.t :=
  Character.mk "Chen Ming"
    "The last surviving student of the destroyed Iron Fist School, wandering the jianghu to restore his school's honor."
    ["Honorable"; "Skilled fighter"; "Seeking justice"; "Stubborn"]
    "To find and defeat the masked warriors who destroyed his school and master."
    "martial_arts".

Definition fantasy_sample : Character.t :=
  Character.mk "Aria Nightwhisper"
    "A half-elf mage apprentice who discovered an ancient spellbook in her village's ruins after a dragon attack."
    ["Curious"; "Brave"; "Magically gifted"; "Compassionate"]
    "To master the ancient magic and prevent the return of the dark dragon lord."
    "fantasy".

(** [samples.get(world, samples["fantasy"])]. *)
Definition create_sample (world : string) : Character.t :=
  if String.eqb world "cultivation" then cultivation_sample
  else if String.eqb world "martial_arts" then martial_arts_sample
  else if String.eqb world "fantasy" then fantasy_sample
  else fantasy_sample.

(** [Character.__str__]. *)
Definition to_str (self : Character.t) : string :=
  Character.name self ++ " (" ++ title (Character.world self) ++ " World)".

End CharacterSamples.

(** ** decision.py: the story as one text, and the history on file *)

Module HistoryText.
Import PyStr PyText.
Section WithLibraries.
Context `{DT : DateTime}.

(** The loop of [get_full_story_text] over [enumerate(story_chunks)], from
    index [i] on. *)
Fixpoint chapter_parts (i : nat) (chunks : list StoryChunk.t)
    (decisions : list DecisionEntry.t) (story_parts : list string)
  : list string :=
  match chunks with
  | [] => story_parts
  | chunk :: rest =>
      let heading := "--- Chapter " ++ str_of_nat (i + 1) ++ " ---" in
      let story_parts := (story_parts ++ [heading])%list in
      let story_parts := (story_parts ++ [StoryChunk.text chunk])%list in
      let story_parts :=
        if i <? List.length decisions then
          match nth_error decisions i with
          | Some decision =>
              let made :=
                nl ++ "[Decision Made: "
                ++ DecisionEntry.decision_text decision ++ "]" ++ nl in
              (story_parts ++ [made])%list
          | None => story_parts
          end
        else story_parts in
      chapter_parts (S i) rest decisions story_parts
  end.

(** [StoryHistory.get_full_story_text]. *)
Definition get_full_story_text (self : StoryHistory.t) : string :=
  join (nl ++ nl)
    (chapter_parts 0 (StoryHistory.story_chunks self)
       (StoryHistory.decisions self) []).

(** [StoryHistory.__len__]. *)
Definition len (self : StoryHistory.t) : nat :=
  List.length (StoryHistory.story_chunks self).

Context `{JS : Json}.

(** [save_to_file(filepath)]: the files afterwards, and [True] or
    [False]. *)
Definition save_to_file (self : StoryHistory.t) (filepath : string)
    (fs : file_system) : bool * file_system :=
  match write_file fs filepath (StoryHistory.to_json self) with
  | Some fs' => (true, fs')
  | None => (false, fs)
  end.

(** [StoryHistory.load_from_file(filepath)]: every exception gives
    [None]. *)
Definition load_from_file (filepath : string) (fs : file_system)
  : option StoryHistory.t :=
  match read_file fs filepath with
  | Some json_str =>
      match StoryHistory.from_json json_str with
      | Ok history => Some history
      | Raise _ => None
      end
  | None => None
  end.

End WithLibraries.
End HistoryText.

(** ** app.py: the pages of a story, and loading a saved story *)

Module Pages.
Import PyText.

(** [(total_chapters - 1) // chapters_per_page + 1]. *)
Definition total_pages (total_chapters chapters_per_page : Z) : Z :=
  ((total_chapters - 1) / chapters_per_page + 1)%Z.

(** "Ensure current page is valid" of [display_paginated_story]. *)
Definition valid_page (current_page total_pages : Z) : Z :=
  let current_page :=
    if (total_pages <? current_page)%Z then total_pages else current_page in
  if (current_page <? 1)%Z then 1%Z else current_page.

(** The indices [range(start_idx, end_idx)] of the chapters that
    [display_paginated_story] shows. *)
Definition displayed_chapters (total_chapters chapters_per_page current_page : Z)
  : list Z :=
  let total_pages := total_pages total_chapters chapters_per_page in
  let current_page := valid_page current_page total_pages in
  let start_idx := ((current_page - 1) * chapters_per_page)%Z in
  let end_idx := Z.min (start_idx + chapters_per_page) total_chapters in
  range_from start_idx end_idx.

(** The page [make_decision] jumps to after a new chapter. *)
Definition latest_page (total_chapters chapters_per_page : Z) : Z :=
  total_pages total_chapters chapters_per_page.

End Pages.

Module AppStorage.
Import App.
Section WithLibraries.
Context `{DT : DateTime} `{JS : Json}.



End WithLibraries.
End AppStorage.

(** ** story_engine.py: templates and prompts *)

Module Prompts.
Import PyStr PyText.

(** The built-in descriptions of [_get_default_template]. *)
Definition defaults : list (string * string) :=
  [ ("cultivation",
      "A mystical world where people cultivate spiritual energy to gain power and transcend mortality.");
    ("martial_arts",
      "A world of martial artists, honor duels, and ancient fighting techniques.");
    ("fantasy",
      "A magical realm with wizards, dragons, and epic quests.");
    ("sci_fi",
      "A futuristic universe with advanced technology and space exploration.");
    ("modern_urban",
      "A modern city setting with hidden supernatural elements.") ].

(** [_get_default_template(world_type)]:
    [defaults.get(world_type, defaults["fantasy"])]. *)
Fixpoint lookup_template (world_type : string)
    (entries : list (string * string)) : option string :=
  match entries with
  | [] => None
  | (k, v) :: rest =>
      if String.eqb k world_type then Some v else lookup_template world_type rest
  end.

Definition get_default_template (world_type : string) : string :=
  match lookup_template world_type defaults with
  | Some template => template
  | None => "A magical realm with wizards, dragons, and epic quests."
  end.

(** [load_world_template(world_type)] over the files of the prompts folder,
    by name: the file [<world_type>.txt] trimmed if it is there and can be
    read, the built-in description otherwise. *)
Definition load_world_template (prompts_dir : file_system)
    (world_type : string) : string :=
  match prompts_dir (world_type ++ ".txt") with
  | TextFile content => strip content
  | NoFile | Blocked => get_default_template world_type
  end.

(** The constant text of the f-string of [create_system_prompt] before the
    world template, and after the character. *)
Definition system_prompt_opening : string :=
  nl
  ++ "You are a masterful interactive fiction writer creating an engaging story for the user. Follow these guidelines:"
  ++ nl ++ nl.

Definition system_prompt_rules : string :=
  nl ++ nl ++ "STORY WRITING RULES:" ++ nl
  ++ "1. Write in second person perspective (" ++ dq ++ "You do..." ++ dq
  ++ ", " ++ dq ++ "You see..." ++ dq ++ ") to immerse the protagonist" ++ nl
  ++ "2. Create vivid, descriptive scenes that bring the world to life" ++ nl
  ++ "3. Include dialogue from NPCs with distinct personalities" ++ nl
  ++ "4. Generate unexpected twists and consequences based on previous decisions"
  ++ nl
  ++ "5. Maintain consistency with the character's background and motivations"
  ++ nl ++ "6. Each story segment should be 200-400 words" ++ nl ++ nl
  ++ "DECISION POINTS:" ++ nl
  ++ "- After each story segment, create a decision point with exactly 4 options"
  ++ nl
  ++ "- Options should be meaningfully different and lead to different outcomes"
  ++ nl ++ "- Include at least one risky/bold option and one cautious option"
  ++ nl
  ++ "- Make sure options align with the character's abilities and the world setting"
  ++ nl ++ nl ++ "FORMAT YOUR RESPONSE EXACTLY LIKE THIS:" ++ nl
  ++ "[Story text goes here - 200-400 words describing the scene, action, and dialogue]"
  ++ nl ++ nl ++ "DECISION_POINT" ++ nl
  ++ "1. [First option - brief but clear description]" ++ nl
  ++ "2. [Second option - brief but clear description]  " ++ nl
  ++ "3. [Third option - brief but clear description]" ++ nl
  ++ "4. [Fourth option - brief but clear description]" ++ nl ++ nl
  ++ "Remember: The story should feel dynamic and reactive to the character's previous choices. Create memorable NPCs and situations that matter to the ongoing narrative."
  ++ nl.

(** [create_system_prompt(character, world_template)]: the f-string, then
    [strip]. *)
Definition create_system_prompt (character : Character.t)
    (world_template : string) : string :=
  let system_prompt :=
    system_prompt_opening
    ++ world_template
    ++ nl ++ nl
    ++ Character.to_prompt character
    ++ system_prompt_rules in
  strip system_prompt.

(** The [story_prompt] of [start_story]. *)
Definition story_prompt (character : Character.t) : string :=
  (nl ++ "Begin an exciting ")
  ++ Character.world character
  ++ (" adventure. Introduce the protagonist ")
  ++ Character.name character
  ++ (" in an engaging opening scene that sets up their story. Include:" ++ nl
     ++ nl ++ "1. A vivid description of the initial setting" ++ nl
     ++ "2. A situation that connects to their background: ")
  ++ Character.background character
  ++ (nl
     ++ "3. An immediate challenge or opportunity that relates to their goals: ")
  ++ Character.goals character
  ++ (nl ++ "4. At least one interesting NPC to interact with" ++ nl ++ nl
     ++ "Make the opening compelling and immersive, then present the first major decision point."
     ++ nl).

(** The [continuation_prompt] of [continue_story]. *)
Definition continuation_prompt (recent_context chosen_option : string)
  : string :=
  (nl ++ "PREVIOUS STORY CONTEXT:" ++ nl)
  ++ recent_context
  ++ (nl ++ nl ++ "PLAYER'S CHOSEN ACTION:" ++ nl)
  ++ chosen_option
  ++ (nl ++ nl
     ++ "Continue the story based on the player's choice. Show the consequences of their decision, advance the plot, and create a new compelling situation with 4 new decision options. Make sure the story flows naturally from the previous events and the chosen action."
     ++ nl).

End Prompts.

(** ** story_engine.py: the demo responses *)

Module Demo.
Import PyStr PyText.

Definition cultivation_story : string :=
  nl
  ++ "You find yourself standing at the entrance of the Azure Mountain Sect, morning mist swirling around ancient stone pillars carved with mystical symbols. Elder Chen, a weathered man with kind eyes, approaches you with measured steps."
  ++ nl ++ nl ++ dq ++ "Welcome, young one," ++ dq
  ++ " he says, his voice carrying the weight of centuries. " ++ dq
  ++ "I sense great potential within you. The spiritual energy here is dense - perfect for beginning your cultivation journey. However, the path ahead is treacherous. Three trials await new disciples."
  ++ dq ++ nl ++ nl
  ++ "He gestures toward three different paths leading up the mountain. The left path glows with a soft golden light, the middle path crackles with lightning energy, and the right path seems shrouded in mysterious shadows."
  ++ nl ++ nl ++ dq ++ "Choose wisely," ++ dq ++ " Elder Chen warns. " ++ dq
  ++ "Each path will shape your cultivation foundation differently." ++ dq
  ++ nl ++ nl ++ "DECISION_POINT" ++ nl
  ++ "1. Take the golden path of harmony and balance" ++ nl
  ++ "2. Choose the lightning path of power and intensity" ++ nl
  ++ "3. Enter the shadow path of mystery and stealth" ++ nl
  ++ "4. Ask Elder Chen for more guidance about the paths" ++ nl.

Definition fantasy_story : string :=
  nl
  ++ "The ancient tavern door creaks open as you step into the dimly lit common room. The Prancing Pony is filled with an eclectic mix of travelers - hooded figures whispering in dark corners, jovial merchants sharing ales, and a lone bard strumming melancholic melodies by the fireplace."
  ++ nl ++ nl
  ++ "Sudenly, a commotion erupts near the bar. A young woman with pointed ears and silver hair - clearly an elf - is arguing with a burly dwarf over a leather-bound map spread across the wooden surface."
  ++ nl ++ nl ++ dq ++ "The Dragon's Hoard is real!" ++ dq
  ++ " she insists, her emerald eyes flashing. " ++ dq
  ++ "My grandfather's journal contains the exact location!" ++ dq ++ nl ++ nl
  ++ "The dwarf strokes his braided beard skeptically. " ++ dq
  ++ "Aye, lass, and I'm the King of the Mountain Folk. That map's led many a fool to their doom."
  ++ dq ++ nl ++ nl
  ++ "They both notice you approaching and turn their attention your way. The elf's expression brightens with hope while the dwarf eyes you warily."
  ++ nl ++ nl ++ "DECISION_POINT" ++ nl
  ++ "1. Offer to help them decipher the map" ++ nl
  ++ "2. Challenge the dwarf's skepticism about the treasure" ++ nl
  ++ "3. Ask to hear more about the Dragon's Hoard legend" ++ nl
  ++ "4. Order a drink and listen to their conversation quietly" ++ nl.

Definition martial_arts_story : string :=
  nl
  ++ "The morning sun filters through bamboo leaves as you practice your forms in the training courtyard of the Iron Fist School. Your muscles ache from months of rigorous training, but your master's words echo in your mind: "
  ++ dq ++ "True strength comes not from the body, but from the spirit." ++ dq
  ++ nl ++ nl
  ++ "Suddenly, urgent shouts pierce the tranquil morning. Master Liu bursts through the gates, his usually calm demeanor replaced by barely controlled fury."
  ++ nl ++ nl ++ dq ++ "They're gone," ++ dq
  ++ " he announces grimly to the assembled students. " ++ dq
  ++ "The Five Sacred Scrolls of our school have been stolen in the night. Without them, our martial arts tradition dies with this generation."
  ++ dq ++ nl ++ nl ++ "A fellow student, Wei, steps forward angrily. " ++ dq
  ++ "Master, we must pursue the thieves immediately! Every moment we delay, they get further away!"
  ++ dq ++ nl ++ nl
  ++ "But another student, Mei, raises her hand thoughtfully. " ++ dq
  ++ "Perhaps we should investigate the scene first. Rushing blindly could lead us into a trap."
  ++ dq ++ nl ++ nl ++ "Master Liu looks to you, his most promising student. "
  ++ dq ++ "What do you counsel? Time is precious, but so is wisdom." ++ dq
  ++ nl ++ nl ++ "DECISION_POINT" ++ nl
  ++ "1. Agree with Wei - pursue the thieves immediately" ++ nl
  ++ "2. Support Mei's cautious approach to investigate first" ++ nl
  ++ "3. Suggest splitting into two groups to do both" ++ nl
  ++ "4. Ask Master Liu if he has any idea who might be responsible" ++ nl.

Definition continuation_1 : string :=
  nl
  ++ "Your choice leads you down a winding path filled with unexpected encounters. As you move forward, the landscape around you shifts and changes, revealing new challenges and opportunities."
  ++ nl ++ nl
  ++ "A mysterious figure emerges from the shadows, offering cryptic advice about the journey ahead. "
  ++ dq ++ "Not all is as it seems," ++ dq
  ++ " they whisper before vanishing again." ++ nl ++ nl
  ++ "You notice three distinct paths branching before you, each promising different adventures and potential rewards."
  ++ nl ++ nl ++ "DECISION_POINT" ++ nl
  ++ "1. Take the path that leads toward distant mountains" ++ nl
  ++ "2. Follow the river route through the valley" ++ nl
  ++ "3. Venture into the dark forest ahead" ++ nl
  ++ "4. Rest here and contemplate your next move" ++ nl.

Definition continuation_2 : string :=
  nl
  ++ "The consequences of your previous decision begin to unfold in ways you never expected. New allies emerge while old certainties crumble, forcing you to adapt and grow."
  ++ nl ++ nl ++ "A wise mentor appears, offering valuable insights: " ++ dq
  ++ "Every choice shapes not just your destination, but who you become along the way."
  ++ dq ++ nl ++ nl
  ++ "As the story progresses, you find yourself facing a crucial decision that could change everything."
  ++ nl ++ nl ++ "DECISION_POINT" ++ nl
  ++ "1. Trust your instincts and act boldly" ++ nl
  ++ "2. Seek counsel from your companions" ++ nl
  ++ "3. Take time to carefully analyze the situation" ++ nl
  ++ "4. Try to find a creative alternative solution" ++ nl.

Definition continuation_3 : string :=
  nl
  ++ "Your journey takes an unexpected turn as new revelations come to light. The world around you proves more complex and fascinating than you initially imagined."
  ++ nl ++ nl
  ++ "Characters you thought you understood reveal hidden depths, while new mysteries emerge that challenge everything you believed to be true."
  ++ nl ++ nl
  ++ "Standing at this crossroads, you must decide how to proceed with this newfound knowledge."
  ++ nl ++ nl ++ "DECISION_POINT" ++ nl
  ++ "1. Embrace the change and adapt your approach" ++ nl
  ++ "2. Hold firm to your original principles" ++ nl
  ++ "3. Seek to understand the deeper truth" ++ nl
  ++ "4. Focus on the immediate practical concerns" ++ nl.

(** [demo_stories.get(world, demo_stories["fantasy"])]. *)
Definition demo_story (world : string) : string :=
  if String.eqb world "cultivation" then cultivation_story
  else if String.eqb world "fantasy" then fantasy_story
  else if String.eqb world "martial_arts" then martial_arts_story
  else fantasy_story.

Definition continuations : list string :=
  [continuation_1; continuation_2; continuation_3].

(** "Extract world type from prompt". *)
Definition detect_world (prompt : string) : string :=
  if contains "cultivation" (lower prompt) then "cultivation"
  else if contains "martial" (lower prompt) then "martial_arts"
  else if contains "sci" (lower prompt) || contains "futuristic" (lower prompt)
  then "sci_fi"
  else if contains "urban" (lower prompt) || contains "modern" (lower prompt)
  then "modern_urban"
  else "fantasy".

(** [random.choice(seq)]: the entry at the position drawn, which is taken
    below the length of the list. *)
Definition choice (seq : list string) (drawn : nat) : string :=
  nth (drawn mod List.length seq) seq EmptyString.

(** [_get_demo_response(prompt)]; [random_draw] is the generator behind
    [random.choice], consulted for a continuation only. *)
Definition get_demo_response {W : Type} (random_draw : W -> nat * W)
    (prompt : string) (w : W) : string * W :=
  if contains "Begin an exciting" prompt
  then (demo_story (detect_world prompt), w)
  else let (drawn, w) := random_draw w in (choice continuations drawn, w).

End Demo.

(** ** story_engine.py: generating and the two story operations *)

Module Engine.
Import PyStr PyText.

(** The values a backend can hand back: text, or another value of a JSON
    answer. *)
#[warnings="-register-all"]
Inductive pyval :=
| PyNone
| PyBool (b : bool)
| PyInt (n : Z)
| PyFloat (repr : string)
| PyStr (s : string)
| PyList (items : list pyval)
| PyDict (fields : list (string * pyval)).

(** [type(v).__name__]. *)
Definition type_name (v : pyval) : string :=
  match v with
  | PyNone => "NoneType"
  | PyBool _ => "bool"
  | PyInt _ => "int"
  | PyFloat _ => "float"
  | PyStr _ => "str"
  | PyList _ => "list"
  | PyDict _ => "dict"
  end.

Fixpoint py_lookup (key : string) (fields : list (string * pyval))
  : option pyval :=
  match fields with
  | [] => None
  | (k, v) :: rest => if String.eqb k key then Some v else py_lookup key rest
  end.

(** What [requests.post] returns: the status, and what [response.json()]
    gives, a value or an exception. *)
Record http_response := mkResponse {
  status_code : Z;
  json_body : string + pyval
}.

(** The client an engine holds.  [_initialize_client] sets [client] and
    [api_name] together, from [get_client()] or for the demo mode, so the
    client tells the name. *)
Inductive client :=
| DemoClient
| GeminiModel
| HuggingFaceClient (token : option string) (api_url model : string)
| OpenAIModule.

Definition api_name (c : client) : string :=
  match c with
  | DemoClient => "demo"
  | GeminiModel => "gemini"
  | HuggingFaceClient _ _ _ => "huggingface"
  | OpenAIModule => "openai"
  end.

(** An engine: its client, or [None]. *)
Definition engine := option client.

(** [is_available()]. *)
Definition is_available (self : engine) : bool :=
  match self with Some _ => true | None => false end.

(** [StoryEngine._initialize_client], given the value of [DEMO_MODE] and
    what [get_client()] does: it returns a client or [None], or raises. *)
Definition initialize_client (demo_mode : option string)
    (got : string + option client) : engine :=
  match demo_mode with
  | Some "true" => Some DemoClient
  | _ =>
      match got with
      | inr (Some c) => Some c
      | inr None => None
      | inl _ => None
      end
  end.

Definition models_to_try : list string :=
  [ "mistralai/Mistral-7B-Instruct-v0.1";
    "microsoft/DialoGPT-large";
    "gpt2-large" ].

(** An f-string shows a missing token as [None]. *)
Definition bearer (token : option string) : string :=
  "Bearer " ++ match token with Some t => t | None => "None" end.

(** What one answer of the endpoint makes [generate_func] return, if
    anything; [None] is the way on to the next model (a status other than
    200, an answer that is not JSON, a list whose first entry has no text
    of more than 50 characters, or an exception on the way). *)
Definition delivered (response : http_response) : option pyval :=
  if (status_code response =? 200)%Z then
    match json_body response with
    | inl _ => None
    | inr (PyList (first :: _)) =>
        match first with
        | PyDict fields =>
            match py_lookup "generated_text" fields with
            | Some (PyStr generated) =>
                if negb (is_empty generated)
                   && (50 <? String.length (strip generated))
                then Some (PyStr generated) else None
            | Some _ => None
            | None => None
            end
        | _ => None
        end
    | inr (PyDict fields) => py_lookup "generated_text" fields
    | inr _ => None
    end
  else None.

Section WithBackends.
Context {W : Type}.

(** The world outside: the number [random.choice] draws, the Gemini call
    [client.generate_content(prompt).text] and the HTTP call
    [requests.post(url, headers, json, timeout)]; each gives its result, or
    the text of the exception it raises, and the world after it. *)
Variable random_draw : W -> nat * W.
Variable gemini_generate_content : string -> W -> (string + string) * W.
Variable requests_post :
  string -> string -> string -> W -> (string + http_response) * W.

(** The loop over [models_to_try]. *)
Fixpoint try_models (api_url authorization prompt : string)
    (models : list string) (w : W) : option pyval * W :=
  match models with
  | [] => (None, w)
  | model :: rest =>
      let (r, w) := requests_post (api_url ++ model) authorization prompt w in
      match r with
      | inl _ => try_models api_url authorization prompt rest w
      | inr response =>
          match delivered response with
          | Some v => (Some v, w)
          | None => try_models api_url authorization prompt rest w
          end
      end
  end.

(** [generate_func()] of [_generate_with_retry]: a value, or the text of
    the exception raised. *)
Definition generate_func (c : client) (prompt : string) (w : W)
  : (string + pyval) * W :=
  match c with
  | DemoClient =>
      let (response, w) := Demo.get_demo_response random_draw prompt w in
      (inr (PyStr response), w)
  | GeminiModel =>
      let (r, w) := gemini_generate_content prompt w in
      (match r with inl e => inl e | inr text => inr (PyStr text) end, w)
  | HuggingFaceClient token api_url _ =>
      let (r, w) := try_models api_url (bearer token) prompt models_to_try w in
      match r with
      | Some v => (inr v, w)
      | None =>
          (inl "All Hugging Face models failed. Please try again or use a different API.",
           w)
      end
  | OpenAIModule => (inl ("Unsupported API: " ++ api_name c), w)
  end.

(** [_generate_with_retry(prompt)]:
    [config.retry_with_backoff(generate_func)]. *)
Definition generate_with_retry (c : client) (prompt : string) (w : W)
  : Config.outcome pyval string * Config.effects :=
  Config.retry_with_backoff (fun e => e) (generate_func c prompt)
    Config.default_max_retries Config.default_base_delay w.

(** The [try] block of the two operations: the answer parsed, or the error
    text and no options.  A value that is not text has no [split]. *)
Definition parsed_or_error (error_prefix : string)
    (r : Config.outcome pyval string) : string * list string :=
  match r with
  | Config.Returned (PyStr response) => StoryEngine.parse_response response
  | Config.Returned v =>
      (error_prefix ++ "'" ++ type_name v
       ++ "' object has no attribute 'split'", [])
  | Config.ReturnedNone =>
      (error_prefix ++ "'NoneType' object has no attribute 'split'", [])
  | Config.Raised e => (error_prefix ++ e, [])
  end.

Definition no_client : string * list string :=
  ("Error: No AI client available. Please check your API configuration.", []).

(** [start_story(character)]. *)
Definition start_story (self : engine) (prompts_dir : file_system)
    (character : Character.t) (w : W)
  : (string * list string) * Config.effects :=
  match self with
  | None => (no_client, Config.mkEffects w [] 0)
  | Some c =>
      let world_template :=
        Prompts.load_world_template prompts_dir (Character.world character) in
      let system_prompt :=
        Prompts.create_system_prompt character world_template in
      let story_prompt := Prompts.story_prompt character in
      let (r, fx) :=
        generate_with_retry c (system_prompt ++ nl ++ nl ++ story_prompt) w in
      (parsed_or_error "Error generating story: " r, fx)
  end.

End WithBackends.

Section ContinueStory.
Context {W : Type} `{DT : DateTime}.
Variable random_draw : W -> nat * W.
Variable gemini_generate_content : string -> W -> (string + string) * W.
Variable requests_post :
  string -> string -> string -> W -> (string + http_response) * W.

(** [continue_story(history, chosen_option)]. *)
Definition continue_story (self : engine) (prompts_dir : file_system)
    (history : StoryHistory.t) (chosen_option : string) (w : W)
  : (string * list string) * Config.effects :=
  match self with
  | None => (no_client, Config.mkEffects w [] 0)
  | Some c =>
      let recent_context := StoryHistory.get_recent_context history 3 in
      let character :=
        Character.mk (StoryHistory.character_name history) EmptyString []
          EmptyString (StoryHistory.world_type history) in
      let world_template :=
        Prompts.load_world_template prompts_dir
          (StoryHistory.world_type history) in
      let system_prompt :=
        Prompts.create_system_prompt character world_template in
      let continuation_prompt :=
        Prompts.continuation_prompt recent_context chosen_option in
      let (r, fx) :=
        generate_with_retry random_draw gemini_generate_content requests_post
          c (system_prompt ++ nl ++ nl ++ continuation_prompt) w in
      (parsed_or_error "Error continuing story: " r, fx)
  end.

End ContinueStory.

End Engine.

(** ** config.py: the clients of the configuration *)

Module Clients.
Import PyStr.

(** The fields of [Config] that [get_llm_client] and [_validate_all_apis]
    use; [_clients_cache] is a dictionary from api names to clients. *)
Record config := mkConfig {
  gemini_api_key : option string;
  huggingface_token : option string;
  openai_api_key : option string;
  clients_cache : list (string * Engine.client);
  available_apis : list string
}.

(** [cache[key]], [None] when the key is not in the cache, and
    [cache[key] = client]. *)
Fixpoint cache_get (key : string) (cache : list (string * Engine.client))
  : option Engine.client :=
  match cache with
  | [] => None
  | (k, c) :: rest => if String.eqb k key then Some c else cache_get key rest
  end.

Definition cache_set (key : string) (c : Engine.client)
    (cache : list (string * Engine.client)) : list (string * Engine.client) :=
  (key, c) :: filter (fun kv => negb (String.eqb (fst kv) key)) cache.

(** [api in self.available_apis]. *)
Definition is_in (api : string) (apis : list string) : bool :=
  existsb (String.eqb api) apis.

Definition set_cache (self : config) (cache : list (string * Engine.client))
  : config :=
  mkConfig (gemini_api_key self) (huggingface_token self)
    (openai_api_key self) cache (available_apis self).

Definition set_available_apis (self : config) (apis : list string) : config :=
  mkConfig (gemini_api_key self) (huggingface_token self)
    (openai_api_key self) (clients_cache self) apis.

(** [clear_cache()]. *)
Definition clear_cache (self : config) : config := set_cache self [].

(** A key that is set: not [None] and not empty. *)
Definition is_set (key : option string) : bool :=
  match key with
  | Some k => negb (is_empty k)
  | None => false
  end.

Definition set_keys (self : config) (gemini huggingface openai : option string)
  : config :=
  mkConfig gemini huggingface openai (clients_cache self)
    (available_apis self).

(** The environment variables: [os.getenv] and [os.environ[name] = value]. *)
Definition environ := string -> option string.

Definition setenv (env : environ) (name value : string) : environ :=
  fun n => if String.eqb n name then Some value else env n.

(** The Streamlit secrets: Streamlit is not installed, or [st.secrets]
    raises when it is read (no secrets are configured), or it answers
    [st.secrets.get(name)]. *)
Inductive secrets_store :=
| NoStreamlit
| SecretsUnavailable
| Secrets (get : string -> option string).

(** [_load_api_keys()]: the environment first; a key that is not set
    there is taken from the secrets.  When the secrets raise, the rest of
    the block is skipped and the keys stay as the environment gave them. *)
Definition load_api_keys (env : environ) (secrets : secrets_store)
    (self : config) : config :=
  let gemini := env "GEMINI_API_KEY" in
  let huggingface := env "HUGGINGFACE_TOKEN" in
  let openai := env "OPENAI_API_KEY" in
  match secrets with
  | NoStreamlit => set_keys self gemini huggingface openai
  | SecretsUnavailable => set_keys self gemini huggingface openai
  | Secrets get =>
      set_keys self
        (if is_set gemini then gemini else get "GEMINI_API_KEY")
        (if is_set huggingface then huggingface else get "HUGGINGFACE_TOKEN")
        (if is_set openai then openai else get "OPENAI_API_KEY")
  end.

Section WithLibraries.
Context {W : Type}.

(** The libraries: [genai.configure] with [genai.GenerativeModel], and
    [import openai]; each succeeds or raises.  The three validators call
    the providers; each catches every exception and returns the pair
    [(is_valid, message)]. *)
Variable gemini_model : option string -> W -> (string + unit) * W.
Variable import_openai : W -> (string + unit) * W.
Variable validate_gemini_key : string -> W -> (bool * string) * W.
Variable validate_huggingface_token : string -> W -> (bool * string) * W.
Variable validate_openai_key : string -> W -> (bool * string) * W.

(** [_initialize_client(api_name)]: the client, or the exception. *)
Definition initialize_client (self : config) (api_name : string) (w : W)
  : (string + Engine.client) * W :=
  if String.eqb api_name "gemini" then
    let (r, w) := gemini_model (gemini_api_key self) w in
    (match r with inl e => inl e | inr _ => inr Engine.GeminiModel end, w)
  else if String.eqb api_name "huggingface" then
    (inr (Engine.HuggingFaceClient (huggingface_token self)
            "https://api-inference.huggingface.co/models/"
            "microsoft/DialoGPT-large"), w)
  else if String.eqb api_name "openai" then
    let (r, w) := import_openai w in
    (match r with inl e => inl e | inr _ => inr Engine.OpenAIModule end, w)
  else (inl ("Unsupported API: " ++ api_name), w).

(** "Fallback to any available API": the loop over [available_apis]. *)
Fixpoint fallback (self : config) (apis : list string) (w : W)
  : option (Engine.client * string) * config * W :=
  match apis with
  | [] => (None, self, w)
  | api :: rest =>
      match cache_get api (clients_cache self) with
      | Some c => (Some (c, api), self, w)
      | None =>
          let (r, w) := initialize_client self api w in
          match r with
          | inr c =>
              (Some (c, api),
               set_cache self (cache_set api c (clients_cache self)), w)
          | inl _ => fallback self rest w
          end
      end
  end.

(** [get_llm_client(preferred_api)]: the pair of a client and its api
    name, or [None] for [(None, None)]; the configuration and the world
    afterwards. *)
Definition get_llm_client (self : config) (preferred_api : string) (w : W)
  : option (Engine.client * string) * config * W :=
  match cache_get preferred_api (clients_cache self),
        is_in preferred_api (available_apis self) with
  | Some c, true => (Some (c, preferred_api), self, w)
  | _, true =>
      let (r, w) := initialize_client self preferred_api w in
      match r with
      | inr c =>
          (Some (c, preferred_api),
           set_cache self (cache_set preferred_api c (clients_cache self)), w)
      | inl _ => fallback self (available_apis self) w
      end
  | _, false => fallback self (available_apis self) w
  end.

(** One [if self.<key>: ...] of [_validate_all_apis]. *)
Definition validated (key : option string)
    (validate : string -> W -> (bool * string) * W) (api : string)
    (apis : list string) (w : W) : list string * W :=
  match key with
  | Some k =>
      if is_empty k then (apis, w)
      else
        let '((is_valid, _), w) := validate k w in
        if is_valid then ((apis ++ [api])%list, w) else (apis, w)
  | None => (apis, w)
  end.

(** [_validate_all_apis()]. *)
Definition validate_all_apis (self : config) (w : W) : config * W :=
  let apis := [] in
  let (apis, w) :=
    validated (gemini_api_key self) validate_gemini_key "gemini" apis w in
  let (apis, w) :=
    validated (huggingface_token self) validate_huggingface_token
      "huggingface" apis w in
  let (apis, w) :=
    validated (openai_api_key self) validate_openai_key "openai" apis w in
  (set_available_apis self apis, w).

(** [validate_api_key(api_name, api_key)]. *)
Definition validate_api_key (api_name api_key : string) (w : W)
  : (bool * string) * W :=
  if String.eqb api_name "gemini" then validate_gemini_key api_key w
  else if String.eqb api_name "huggingface"
  then validate_huggingface_token api_key w
  else if String.eqb api_name "openai" then validate_openai_key api_key w
  else ((false, "Unknown API: " ++ api_name), w).

(** [set_and_validate_api_key(api_name, api_key)]: the pair returned, the
    configuration, the environment and the world afterwards. *)
Definition set_and_validate_api_key (self : config)
    (api_name api_key : string) (env : environ) (w : W)
  : (bool * string) * config * environ * W :=
  let self := clear_cache self in
  let '((is_valid, message), w) := validate_api_key api_name api_key w in
  if is_valid then
    let (self, env) :=
      if String.eqb api_name "gemini" then
        (set_keys self (Some api_key) (huggingface_token self)
           (openai_api_key self),
         setenv env "GEMINI_API_KEY" api_key)
      else if String.eqb api_name "huggingface" then
        (set_keys self (gemini_api_key self) (Some api_key)
           (openai_api_key self),
         setenv env "HUGGINGFACE_TOKEN" api_key)
      else if String.eqb api_name "openai" then
        (set_keys self (gemini_api_key self) (huggingface_token self)
           (Some api_key),
         setenv env "OPENAI_API_KEY" api_key)
      else (self, env) in
    let (self, w) := validate_all_apis self w in
    ((is_valid, message), self, env, w)
  else ((is_valid, message), self, env, w).

(** [refresh_api_keys()]. *)
Definition refresh_api_keys (env : environ) (secrets : secrets_store)
    (self : config) (w : W) : config * W :=
  let self := load_api_keys env secrets self in
  let self := clear_cache self in
  validate_all_apis self w.

(** [Config()]: [__init__]. *)
Definition init (env : environ) (secrets : secrets_store) (w : W)
  : config * W :=
  let self := mkConfig None None None [] [] in
  let self := load_api_keys env secrets self in
  let self := set_available_apis self [] in
  validate_all_apis self w.

(** [get_client(preferred_api)] on the configuration. *)
Definition get_client (self : config) (preferred_api : string) (w : W)
  : option (Engine.client * string) * config * W :=
  get_llm_client self preferred_api w.

End WithLibraries.
End Clients.

(** ** app.py: starting a story over the configuration and the engine *)

Module Adventure.
Import PyStr PyText.
Section WithWorld.
Context {W : Type} `{DT : DateTime}.
Variable random_draw : W -> nat * W.
Variable gemini_generate_content : string -> W -> (string + string) * W.
Variable requests_post :
  string -> string -> string -> W -> (string + Engine.http_response) * W.
Variable gemini_model : option string -> W -> (string + unit) * W.
Variable import_openai : W -> (string + unit) * W.
Variable validate_gemini_key : string -> W -> (bool * string) * W.
Variable validate_huggingface_token : string -> W -> (bool * string) * W.
Variable validate_openai_key : string -> W -> (bool * string) * W.

(** [StoryEngine._initialize_client()] over the global configuration: in
    demo mode the configuration is not consulted; otherwise the client is
    the one [get_client()] hands out.  The cache of the configuration is
    taken to file every client under its own api, so that the client tells
    the api name. *)
Definition initialize_engine (demo_mode : option string)
    (cfg : Clients.config) (w : W) : Engine.engine * Clients.config * W :=
  match demo_mode with
  | Some "true" => (Engine.initialize_client demo_mode (inr None), cfg, w)
  | _ =>
      let '(got, cfg, w) :=
        Clients.get_client gemini_model import_openai cfg "gemini" w in
      (Engine.initialize_client demo_mode (inr (option_map fst got)), cfg, w)
  end.

(** [start_new_story(character)] of app.py with what it calls:
    [config.refresh_api_keys()], [get_story_engine()] (a new
    [StoryEngine], which initialises its client), [_initialize_client()]
    once more, [is_available()] and [start_story(character)]. *)
Definition start_new_story (demo_mode : option string) (env : Clients.environ)
    (secrets : Clients.secrets_store) (prompts_dir : file_system)
    (character : Character.t) (cfg : Clients.config) (s : App.session)
    (w : W) : (App.session * Clients.config) * Config.effects :=
  let (cfg, w) :=
    Clients.refresh_api_keys validate_gemini_key validate_huggingface_token
      validate_openai_key env secrets cfg w in
  let '(_, cfg, w) := initialize_engine demo_mode cfg w in
  let '(engine, cfg, w) := initialize_engine demo_mode cfg w in
  if Engine.is_available engine then
    let (r, fx) :=
      Engine.start_story random_draw gemini_generate_content requests_post
        engine prompts_dir character w in
    ((App.start_new_story character (App.Generated (fst r) (snd r)) s, cfg),
     fx)
  else
    ((App.start_new_story character App.Unavailable s, cfg),
     Config.mkEffects w [] 0).

End WithWorld.
End Adventure.

(** ** Sample libraries

    One concrete [datetime] and one concrete [json] codec, used to evaluate
    the model on examples.  The properties of Part II are stated for any
    instance. *)

Module Sample.
Import PyStr.

(** A naive [datetime]. *)
Record date_time := mkDateTime {
  year : nat; month : nat; day : nat;
  hour : nat; minute : nat; second : nat;
  microsecond : nat
}.

Definition digit (d : nat) : ascii := ascii_of_nat (48 + d).

(** [n] in [width] decimal digits, zero-padded. *)
Fixpoint zero_padded (width n : nat) : string :=
  match width with
  | O => EmptyString
  | S w => zero_padded w (n / 10) ++ String (digit (n mod 10)) EmptyString
  end.

Definition digit_value (c : ascii) : option nat :=
  let n := nat_of_ascii c in
  if (48 <=? n) && (n <=? 57) then Some (n - 48) else None.

Fixpoint parse_digits (acc : nat) (s : string) : option nat :=
  match s with
  | EmptyString => Some acc
  | String c s' =>
      match digit_value c with
      | Some d => parse_digits (10 * acc + d) s'
      | None => None
      end
  end.

Definition field (start len : nat) (s : string) : option nat :=
  let f := substring start len s in
  if String.length f =? len then parse_digits 0 f else None.

Definition date_isoformat (d : date_time) : string :=
  zero_padded 4 (year d) ++ "-" ++ zero_padded 2 (month d) ++ "-"
  ++ zero_padded 2 (day d) ++ "T" ++ zero_padded 2 (hour d) ++ ":"
  ++ zero_padded 2 (minute d) ++ ":" ++ zero_padded 2 (second d)
  ++ (if microsecond d =? 0 then EmptyString
      else "." ++ zero_padded 6 (microsecond d)).

Definition date_fromisoformat (s : string) : result date_time :=
  let invalid := Raise (ValueError "Invalid isoformat string") in
  let separators :=
    String.eqb (substring 4 1 s) "-" && String.eqb (substring 7 1 s) "-"
    && String.eqb (substring 10 1 s) "T" && String.eqb (substring 13 1 s) ":"
    && String.eqb (substring 16 1 s) ":" in
  let micro :=
    if String.length s =? 19 then Some 0
    else if (String.length s =? 26) && String.eqb (substring 19 1 s) "."
         then field 20 6 s
         else None in
  match field 0 4 s, field 5 2 s, field 8 2 s,
        field 11 2 s, field 14 2 s, field 17 2 s, micro with
  | Some y, Some mo, Some d, Some h, Some mi, Some sec, Some us =>
      if separators then Ok (mkDateTime y mo d h mi sec us) else invalid
  | _, _, _, _, _, _, _ => invalid
  end.

Definition date_strftime_Ymd_HMS (d : date_time) : string :=
  zero_padded 4 (year d) ++ zero_padded 2 (month d) ++ zero_padded 2 (day d)
  ++ "_" ++ zero_padded 2 (hour d) ++ zero_padded 2 (minute d)
  ++ zero_padded 2 (second d).

#[export] Instance SampleDateTime : DateTime := {
  datetime := date_time;
  isoformat := date_isoformat;
  fromisoformat := date_fromisoformat;
  strftime_Ymd_HMS := date_strftime_Ymd_HMS
}.

(** *** A compact JSON printer and a parser for it *)

Definition quote_char : ascii := ascii_of_nat 34.
Definition backslash : ascii := ascii_of_nat 92.

Fixpoint escape (s : string) : string :=
  match s with
  | EmptyString => EmptyString
  | String c s' =>
      if Ascii.eqb c quote_char || Ascii.eqb c backslash
      then String backslash (String c (escape s'))
      else if Ascii.eqb c LF then String backslash (String "n" (escape s'))
      else String c (escape s')
  end.

Definition quoted (s : string) : string :=
  String quote_char (escape s ++ String quote_char EmptyString).

Definition print_int (n : Z) : string :=
  match n with
  | Z0 => "0"
  | Zpos p => NilEmpty.string_of_uint (Pos.to_uint p)
  | Zneg p => "-" ++ NilEmpty.string_of_uint (Pos.to_uint p)
  end.

Fixpoint print (j : json) : string :=
  match j with
  | JNull => "null"
  | JBool true => "true"
  | JBool false => "false"
  | JInt n => print_int n
  | JStr s => quoted s
  | JList items => "[" ++ join "," (map print items) ++ "]"
  | JDict fields =>
      "{" ++ join "," (map (fun kv => quoted (fst kv) ++ ":" ++ print (snd kv))
                           fields) ++ "}"
  end.

(** The text up to the closing quote, unescaped, and what follows. *)
Fixpoint read_string (s : string) : option (string * string) :=
  match s with
  | EmptyString => None
  | String c s' =>
      if Ascii.eqb c quote_char then Some (EmptyString, s')
      else if Ascii.eqb c backslash then
        match s' with
        | String e s'' =>
            match read_string s'' with
            | Some (t, rest) =>
                Some (String (if Ascii.eqb e "n" then LF else e) t, rest)
            | None => None
            end
        | EmptyString => None
        end
      else
        match read_string s' with
        | Some (t, rest) => Some (String c t, rest)
        | None => None
        end
  end.

Fixpoint read_digits (acc : Z) (s : string) : Z * string :=
  match s with
  | String c s' =>
      match digit_value c with
      | Some d => read_digits (10 * acc + Z.of_nat d)%Z s'
      | None => (acc, s)
      end
  | EmptyString => (acc, s)
  end.

Definition expect (lit : string) (s : string) : option string :=
  if prefix lit s then Some (substring (String.length lit)
                               (String.length s - String.length lit) s)
  else None.

(** A recursive-descent reader; [fuel] bounds the nesting. *)
Fixpoint read_value (fuel : nat) (s : string) : option (json * string) :=
  match fuel with
  | O => None
  | S fuel =>
      let fix read_items (n : nat) (s : string) (acc : list json)
        : option (list json * string) :=
        match n with
        | O => None
        | S n =>
            match read_value fuel s with
            | Some (v, String "," rest) => read_items n rest (acc ++ [v])%list
            | Some (v, String "]" rest) => Some ((acc ++ [v])%list, rest)
            | _ => None
            end
        end in
      let fix read_fields (n : nat) (s : string) (acc : list (string * json))
        : option (list (string * json) * string) :=
        match n with
        | O => None
        | S n =>
            match s with
            | String q s1 =>
                if Ascii.eqb q quote_char then
                  match read_string s1 with
                  | Some (k, String ":" s2) =>
                      match read_value fuel s2 with
                      | Some (v, String "," rest) =>
                          read_fields n rest (acc ++ [(k, v)])%list
                      | Some (v, String "}" rest) =>
                          Some ((acc ++ [(k, v)])%list, rest)
                      | _ => None
                      end
                  | _ => None
                  end
                else None
            | EmptyString => None
            end
        end in
      match s with
      | String "n" _ => option_map (pair JNull) (expect "null" s)
      | String "t" _ => option_map (pair (JBool true)) (expect "true" s)
      | String "f" _ => option_map (pair (JBool false)) (expect "false" s)
      | String "[" (String "]" rest) => Some (JList [], rest)
      | String "[" rest =>
          option_map (fun r => (JList (fst r), snd r))
            (read_items (String.length s) rest [])
      | String "{" (String "}" rest) => Some (JDict [], rest)
      | String "{" rest =>
          option_map (fun r => (JDict (fst r), snd r))
            (read_fields (String.length s) rest [])
      | String "-" rest =>
          let (n, rest) := read_digits 0 rest in Some (JInt (- n), rest)
      | String c rest =>
          if Ascii.eqb c quote_char then
            option_map (fun r => (JStr (fst r), snd r)) (read_string rest)
          else
            match digit_value c with
            | Some _ => let (n, rest) := read_digits 0 s in Some (JInt n, rest)
            | None => None
            end
      | EmptyString => None
      end
  end.

Definition parse (s : string) : result json :=
  match read_value (String.length s) s with
  | Some (v, EmptyString) => Ok v
  | _ => Raise JSONDecodeError
  end.

#[export] Instance SampleJson : Json := {
  dumps := print;
  loads := parse
}.

Definition at_2024 (n : nat) : date_time :=
  mkDateTime 2024 1 15 10 30 n (if n =? 0 then 0 else 1000 * n).

(** A clock whose n-th reading is n seconds (and n milliseconds) past
    10:30 on 15 January 2024. *)
Definition sample_clock : Clock := mkClock _ at_2024 0.

End Sample.

(* ================================================================== *)
(** * Part II: the vocabulary of the properties, and examples *)
(* ================================================================== *)

(** ** Texts, the parser and the character *)

Section TextVocabulary.
Import PyStr StoryEngine.

(** [pre] ends where [sep] occurs in [s] for the first time. *)
Definition first_occurrence (sep pre post s : string) : Prop :=
  s = pre ++ sep ++ post /\
  forall pre' post', s = pre' ++ sep ++ post' ->
                     String.length pre <= String.length pre'.

(** A text that is not blank at its end and is not empty. *)
Definition ends_solid (t : string) : Prop :=
  rstrip t = t /\ is_empty t = false.

(** The option a line contributes, if it is an option line. *)
Definition option_of_line (line : string) : option string :=
  option_map strip (match_option_line (strip line)).

(** The captured texts of the option lines among [lines], in order. *)
Fixpoint captured (lines : list string) : list string :=
  match lines with
  | [] => []
  | line :: rest =>
      match option_of_line line with
      | Some o => o :: captured rest
      | None => captured rest
      end
  end.

(** The same for the lines of a text. *)
Definition captured_options (text : string) : list string :=
  captured (split nl (strip text)).

(** [seg] is [post] up to the next marker, or all of it. *)
Definition up_to_next_marker (post seg : string) : Prop :=
  (contains DECISION_POINT post = false /\ seg = post)
  \/ exists rest, first_occurrence DECISION_POINT seg rest post.

(** The text of the example: [Hello], the marker and four numbered
    lines, separated by line feeds. *)
Definition example_response : string :=
  "Hello" ++ nl ++ "DECISION_POINT" ++ nl
  ++ "1. A" ++ nl ++ "2. B" ++ nl ++ "3. C" ++ nl ++ "4. D".

(** A response with the marker and a single numbered line. *)
Definition one_option_response : string :=
  "Hello" ++ nl ++ "DECISION_POINT" ++ nl ++ "1. A".

(** A response in which the marker comes a second time, between the second
    and the third numbered line. *)
Definition two_marker_response : string :=
  "Hello" ++ nl ++ "DECISION_POINT" ++ nl ++ "1. A" ++ nl ++ "2. B" ++ nl
  ++ "DECISION_POINT" ++ nl ++ "3. C" ++ nl ++ "4. D".

(** C5 as the specification words it: the options are the captured texts
    of the option lines of the text after the marker, and nothing else. *)
Definition options_are_the_matched_lines (response : string) : Prop :=
  forall pre post,
    first_occurrence DECISION_POINT pre post response ->
    parse_response response = (strip pre, captured_options post).

End TextVocabulary.

Section CharacterVocabulary.
Import PyStr Character.

(** The text of [to_prompt], trimming done. *)
Definition profile (c : Character.t) : string :=
  "PROTAGONIST PROFILE:" ++ nl
  ++ "Name: " ++ name c ++ nl
  ++ "World: " ++ title (world c) ++ nl
  ++ "Background: " ++ background c ++ nl
  ++ "Personality Traits: "
  ++ match traits c with
     | [] => "No specific traits defined"
     | _ => join ", " (traits c)
     end ++ nl
  ++ "Goals & Motivations: " ++ goals c ++ nl
  ++ nl
  ++ "This character is the protagonist of the story. All narrative should be written from their perspective or about their actions and decisions.".

(** The sample character of the test script. *)
Definition test_hero : Character.t :=
  Character.mk "Test Hero"
    "A brave adventurer seeking their destiny in a magical world."
    ["brave"; "curious"; "loyal"]
    "To find the legendary artifact and save their homeland."
    "fantasy".

(** C7 as the specification words it. *)
Definition lengths_in_range (c : Character.t) : Prop :=
  (2 <= String.length (name c) <= 100)
  /\ (10 <= String.length (background c) <= 1000)
  /\ (10 <= String.length (goals c) <= 500)
  /\ world c <> EmptyString.

(** A character whose name is a letter and a blank. *)
Definition padded_name_hero : Character.t :=
  Character.mk "X "
    "A brave adventurer seeking their destiny in a magical world."
    ["brave"; "curious"; "loyal"]
    "To find the legendary artifact and save their homeland."
    "fantasy".

End CharacterVocabulary.

(** ** Histories and sessions *)

Section HistoryVocabulary.
Import PyStr App.
Context `{DT : DateTime}.

(** The last [count] elements of a list (all of it when it is shorter). *)
Definition last_elements {A} (count : nat) (l : list A) : list A :=
  skipn (List.length l - count) l.

(** The note on the last decision that [get_recent_context] appends when
    there is a decision and there are more chunks than decisions. *)
Definition decision_note (h : StoryHistory.t) : list string :=
  match StoryHistory.decisions h with
  | [] => []
  | d0 :: _ =>
      if List.length (StoryHistory.decisions h)
         <? List.length (StoryHistory.story_chunks h)
      then [nl ++ "[Last Decision: "
            ++ DecisionEntry.decision_text
                 (last (StoryHistory.decisions h) d0) ++ "]"]
      else []
  end.

(** C10 as the specification words it: the texts of the last [min(n,k)]
    chunks, concatenated. *)
Definition last_texts_concatenated (h : StoryHistory.t) (n : Z) : string :=
  let k := Z.of_nat (List.length (StoryHistory.story_chunks h)) in
  String.concat EmptyString
    (map StoryChunk.text
       (last_elements (Z.to_nat (Z.min n k)) (StoryHistory.story_chunks h))).

Definition roundtrips (t : datetime) : Prop :=
  fromisoformat (isoformat t) = Ok t.

(** Every timestamp a history holds. *)
Definition timestamps (h : StoryHistory.t) : list datetime :=
  StoryHistory.created_at h :: StoryHistory.last_updated h
  :: map StoryChunk.timestamp (StoryHistory.story_chunks h)
  ++ map DecisionEntry.timestamp (StoryHistory.decisions h).

(** Counting the continuations that failed (the engine was not available
    or raised) since the story was last started: a start and a restart set
    the count to zero. *)
Definition count_failure (f : nat) (a : action) : nat :=
  match a with
  | MakeDecision _ engine => f + (if is_failure engine then 1 else 0)
  | StartAdventure _ _ => 0
  | RestartStory => 0
  end.

Definition failed_continuations (actions : list action) : nat :=
  fold_left count_failure actions 0.

(** With [f] failed continuations so far: a history without chunks has no
    decisions, and otherwise every decision but [f] of them has been
    followed by a chunk. *)
Definition settled (f : nat) (s : session) : Prop :=
  forall h,
    story_history s = Some h ->
    let chunks := List.length (StoryHistory.story_chunks h) in
    let decisions := List.length (StoryHistory.decisions h) in
    (chunks = 0 /\ decisions = 0)
    \/ (1 <= chunks /\ decisions + 1 <= chunks + f).

End HistoryVocabulary.

(** ** Runs of [retry_with_backoff] *)

Section RetryVocabulary.
Import Config.
Context {W V E : Type}.
Variable str : E -> string.
Variable func : W -> (E + V) * W.

(** The state in which [func] is called for the i-th time (from 0), when
    the first call is made in [w]. *)
Fixpoint world_before (i : nat) (w : W) : W :=
  match i with
  | O => w
  | S i => world_before i (snd (func w))
  end.

(** The i-th call: what it returns or raises, and the state it leaves. *)
Definition call (i : nat) (w : W) : (E + V) * W := func (world_before i w).

(** The call raises an error that counts as a rate limit. *)
Definition rate_limited (r : E + V) : bool :=
  match r with
  | inl e => is_rate_limit_error (str e)
  | inr _ => false
  end.

Definition finish (r : E + V) : outcome V E :=
  match r with
  | inl e => Raised e
  | inr v => Returned v
  end.

(** The delays slept before attempts 1 to [k]. *)
Definition backoff_delays (base_delay : Q) (k : nat) : list Q :=
  map (delay base_delay) (range (Z.of_nat k)).

End RetryVocabulary.

(** ** Examples *)

Section Examples.
Import PyStr Sample App.

Definition four_options : list string :=
  ["Go left"; "Go right"; "Climb a tree"; "Call for help"].

(** Two chunks and the decision taken between them. *)
Definition forest_history : StoryHistory.t :=
  StoryHistory.mk "test_session" "Test Hero" "fantasy"
    [ StoryChunk.mk "You find yourself in a dark forest..." (at_2024 1)
        "chunk_20240115_103001" four_options;
      StoryChunk.mk "The path to the left ends at a river." (at_2024 3)
        "chunk_20240115_103003" four_options ]
    [ DecisionEntry.mk "Go left" four_options 0 (at_2024 2) ]
    (at_2024 0) (at_2024 4).

Definition empty_history : StoryHistory.t :=
  StoryHistory.mk "test_session" "Test Hero" "fantasy" [] []
    (at_2024 0) (at_2024 0).

Definition opening : string := "You find yourself in a dark forest...".

(** A story is started, and the same choice is then submitted twice while
    the engine is not available. *)
Definition two_failures : list action :=
  [ StartAdventure test_hero (Generated opening four_options);
    MakeDecision 0 Unavailable;
    MakeDecision 0 Unavailable ].

(** A story is started and one continuation fails. *)
Definition one_failure : list action :=
  [ StartAdventure test_hero (Generated opening four_options);
    MakeDecision 0 (Failed "503 service unavailable") ].

(** An operation that counts its calls: the first two raise
    [429 rate limit], the third returns a story. *)
Definition flaky (calls_so_far : nat) : (string + string) * nat :=
  if calls_so_far <? 2
  then (inl "429 rate limit", S calls_so_far)
  else (inr "Once upon a time", S calls_so_far).

(** An operation that raises an authentication error. *)
Definition rejected (calls_so_far : nat) : (string + string) * nat :=
  (inl "API key not valid", S calls_so_far).

End Examples.

(** ** Further vocabulary *)

Section MoreVocabulary.

(** The time slept in all. *)
Definition total_delay (delays : list Q) : Q :=
  fold_right Qplus 0%Q delays.

(** An option is a text that is not empty and has no blank at either end. *)
Definition presentable (o : string) : Prop :=
  o <> EmptyString /\ PyStr.strip o = o.

(** A dictionary without the entries of some keys. *)
Definition drop_keys (keys : list string) (data : json) : json :=
  match data with
  | JDict fields =>
      JDict (filter (fun kv => negb (existsb (String.eqb (fst kv)) keys))
               fields)
  | _ => data
  end.

(** The keys [StoryHistory.from_dict] reads with [data[key]]. *)
Definition required_keys : list string :=
  ["session_id"; "character_name"; "world_type"; "created_at";
   "last_updated"].

End MoreVocabulary.

Section MoreHistoryVocabulary.
Context `{DT : DateTime}.

(** The options stored with the newest chunk of a history, if it has a
    chunk. *)
Definition newest_options (h : StoryHistory.t) : option (list string) :=
  match StoryHistory.story_chunks h with
  | [] => None
  | chunk0 :: _ =>
      Some (StoryChunk.decision_options
              (last (StoryHistory.story_chunks h) chunk0))
  end.

(** The options on offer are those of the newest chunk, and a choice is
    awaited, whenever the history has a chunk. *)
Definition tracked (s : App.session) : Prop :=
  forall h opts,
    App.story_history s = Some h ->
    newest_options h = Some opts ->
    App.current_options s = opts /\ App.waiting_for_choice s = true.

End MoreHistoryVocabulary.

Section MoreExamples.
Import PyStr PyText.

(** A folder in which [locked.json] cannot be opened and nothing else is
    there. *)
Definition one_locked_file : file_system :=
  fun path => if String.eqb path "locked.json" then Blocked else NoFile.

End MoreExamples.

(** ** The story engine *)

Section EngineVocabulary.
Import PyStr PyText.

(** The prompt [start_story] sends for a character. *)
Definition start_prompt (prompts_dir : file_system)
    (character : Character.t) : string :=
  Prompts.create_system_prompt character
    (Prompts.load_world_template prompts_dir (Character.world character))
  ++ nl ++ nl ++ Prompts.story_prompt character.

(** The prompt [continue_story] sends for a history and a choice. *)
Definition continue_prompt `{DateTime} (prompts_dir : file_system)
    (history : StoryHistory.t) (chosen_option : string) : string :=
  Prompts.create_system_prompt
    (Character.mk (StoryHistory.character_name history) EmptyString []
       EmptyString (StoryHistory.world_type history))
    (Prompts.load_world_template prompts_dir
       (StoryHistory.world_type history))
  ++ nl ++ nl
  ++ Prompts.continuation_prompt
       (StoryHistory.get_recent_context history 3) chosen_option.

(** The fixed text of the system prompt before the world template and
    after the character, without the line feeds at the two ends. *)
Definition guidelines : string := lstrip Prompts.system_prompt_opening.

Definition rules_text : string := rstrip Prompts.system_prompt_rules.

(** The three openings of the demo mode. *)
Definition openings : list string :=
  [Demo.cultivation_story; Demo.martial_arts_story; Demo.fantasy_story].

(** What a story operation hands to the application: four options, or no
    option and a text that starts with [Error]. *)
Definition four_or_error (r : string * list string) : Prop :=
  List.length (snd r) = 4
  \/ (snd r = [] /\ prefix "Error" (fst r) = true).

(** An answer of the endpoint that is an exception or has a status other
    than 200. *)
Definition refused (r : string + Engine.http_response) : Prop :=
  match r with
  | inl _ => True
  | inr response => Engine.status_code response <> 200%Z
  end.

Context {W : Type}.
Variable requests_post :
  string -> string -> string -> W -> (string + Engine.http_response) * W.

(** The world after one post to each of the models, in turn. *)
Fixpoint posted (api_url authorization prompt : string)
    (models : list string) (w : W) : W :=
  match models with
  | [] => w
  | model :: rest =>
      posted api_url authorization prompt rest
        (snd (requests_post (api_url ++ model) authorization prompt w))
  end.

End EngineVocabulary.

Section EngineExamples.
Import PyStr PyText Engine.

(** An endpoint that answers every post with the status 429 and counts the
    posts. *)
Definition busy_endpoint (url authorization prompt : string) (posts : nat)
  : (string + http_response) * nat :=
  (inr (mkResponse 429 (inl "Expecting value")), S posts).

(** Backends that are never reached count nothing. *)
Definition no_draw (n : nat) : nat * nat := (0, n).

Definition third_draw (n : nat) : nat * nat := (2, S n).

Definition no_gemini (prompt : string) (n : nat) : (string + string) * nat :=
  (inl "unreachable", n).

Definition no_files : file_system := fun _ => NoFile.

End EngineExamples.

(** ** The clients of the configuration *)

Section ClientVocabulary.
Import Clients.

(** Every client of the cache is filed under its own api name. *)
Definition cache_consistent (cache : list (string * Engine.client)) : Prop :=
  Forall (fun kv => Engine.api_name (snd kv) = fst kv) cache.

Definition known_apis : list string := ["gemini"; "huggingface"; "openai"].

(** The key a configuration holds for an api. *)
Definition key_of (self : config) (api : string) : option string :=
  if String.eqb api "gemini" then gemini_api_key self
  else if String.eqb api "huggingface" then huggingface_token self
  else if String.eqb api "openai" then openai_api_key self
  else None.

(** What a call that hands out a client leaves behind. *)
Definition handed_out (self self' : config) (c : Engine.client)
    (api : string) : Prop :=
  In api (available_apis self)
  /\ cache_get api (clients_cache self') = Some c
  /\ available_apis self' = available_apis self
  /\ (cache_consistent (clients_cache self) ->
      Engine.api_name c = api /\ cache_consistent (clients_cache self')).

(** An environment without variables, and validators that accept every key
    and count their calls. *)
Definition empty_environ : environ := fun _ => None.

Definition accept_all (key : string) (n : nat) : (bool * string) * nat :=
  ((true, "valid"), S n).

Definition library_present (n : nat) : (string + unit) * nat := (inr tt, n).

Definition gemini_present (key : option string) (n : nat)
  : (string + unit) * nat := (inr tt, n).

(** A configuration with a Hugging Face token that was found valid, and
    the client made for it. *)
Definition sample_config : config :=
  mkConfig None (Some "hf_token") None [] ["huggingface"].

Definition hf_client : Engine.client :=
  Engine.HuggingFaceClient (Some "hf_token")
    "https://api-inference.huggingface.co/models/" "microsoft/DialoGPT-large".

Definition no_keys : config := mkConfig None None None [] [].

End ClientVocabulary.

(* ================================================================== *)
(** * Part III: properties *)
(* ================================================================== *)

(** ** Strings *)

Section StringFacts.
Import PyStr.

Lemma append_nil_r (s : string) : s ++ EmptyString = s.
Proof. induction s as [|c s IH]; simpl; [reflexivity | now rewrite IH]. Qed.

Lemma append_assoc (s t u : string) : (s ++ t) ++ u = s ++ (t ++ u).
Proof. induction s as [|c s IH]; simpl; [reflexivity | now rewrite IH]. Qed.

Lemma length_append (s t : string) :
  String.length (s ++ t) = String.length s + String.length t.
Proof. induction s as [|c s IH]; simpl; [reflexivity | now rewrite IH]. Qed.

Lemma append_snoc (s : string) (c : ascii) (t : string) :
  (s ++ String c EmptyString) ++ t = s ++ String c t.
Proof. now rewrite append_assoc. Qed.

(** [prefix] is "starts with". *)
Lemma prefix_iff (p s : string) :
  prefix p s = true <-> exists t, s = p ++ t.
Proof.
  revert s; induction p as [|a p IH]; intros s.
  - destruct s; simpl; (split; [intros _; eexists; reflexivity | reflexivity]).
  - destruct s as [|b s]; simpl.
    + split; [discriminate | intros [t Ht]; discriminate].
    + destruct (ascii_dec a b) as [->|Hab].
      * rewrite IH. split; intros [t Ht]; exists t.
        -- now rewrite Ht.
        -- now injection Ht.
      * split; [discriminate | intros [t Ht]; injection Ht; congruence].
Qed.

Lemma prefix_append (p t : string) : prefix p (p ++ t) = true.
Proof. apply prefix_iff; now exists t. Qed.

(** [contains] is "occurs somewhere in". *)
Lemma contains_iff (sub s : string) :
  contains sub s = true <-> exists pre post, s = pre ++ sub ++ post.
Proof.
  induction s as [|c s IH]; cbn [contains].
  - rewrite orb_false_r, prefix_iff. split.
    + intros [t Ht]. now exists EmptyString, t.
    + intros [pre [post H]]. destruct pre; [now exists post | discriminate].
  - rewrite orb_true_iff, prefix_iff, IH. split.
    + intros [[t Ht] | [pre [post H]]].
      * now exists EmptyString, t.
      * exists (String c pre), post. simpl. now rewrite H.
    + intros [pre [post H]]. destruct pre as [|a pre]; simpl in H.
      * left. now exists post.
      * right. exists pre, post. now injection H.
Qed.

Lemma not_contains_iff (sub s : string) :
  contains sub s = false <-> ~ (exists pre post, s = pre ++ sub ++ post).
Proof.
  rewrite <- contains_iff. destruct (contains sub s); split;
    congruence || (intros H; exfalso; now apply H).
Qed.

Lemma contains_first_occurrence (sep s : string) :
  contains sep s = true -> exists pre post, first_occurrence sep pre post s.
Proof.
  induction s as [|c s IH]; cbn [contains]; intros H.
  - rewrite orb_false_r in H. apply prefix_iff in H as [t Ht].
    exists EmptyString, t. split; [exact Ht | intros; simpl; lia].
  - destruct (prefix sep (String c s)) eqn:Hp.
    + apply prefix_iff in Hp as [t Ht].
      exists EmptyString, t. split; [exact Ht | intros; simpl; lia].
    + simpl in H. destruct (IH H) as [pre [post [Heq Hmin]]].
      exists (String c pre), post. split.
      * simpl. now rewrite Heq.
      * intros pre' post' H'. destruct pre' as [|a pre']; simpl in H'.
        -- rewrite H', prefix_append in Hp. discriminate.
        -- injection H' as _ H'. simpl. apply le_n_S. eapply Hmin. exact H'.
Qed.

(** *** [split] *)

Lemma split_from_skip (sep : string) (x cur s : string) :
  split_from sep (String.length x) cur (x ++ s) = split_from sep 0 cur s.
Proof.
  induction x as [|a x IH]; simpl; [reflexivity | exact IH].
Qed.

Lemma split_from_absent (sep : string) (cur s : string) :
  contains sep s = false -> split_from sep 0 cur s = [cur ++ s].
Proof.
  revert cur; induction s as [|c s IH]; intros cur H;
    cbn [contains split_from] in *.
  - now rewrite append_nil_r.
  - apply orb_false_iff in H as [Hp Hc]. rewrite Hp.
    rewrite IH by exact Hc. now rewrite append_snoc.
Qed.

Lemma split_from_first (sep pre post s cur : string) :
  sep <> EmptyString ->
  first_occurrence sep pre post s ->
  split_from sep 0 cur s = (cur ++ pre) :: split_from sep 0 EmptyString post.
Proof.
  intros Hsep [Heq Hmin]. subst s.
  revert cur Hmin; induction pre as [|a pre IH]; intros cur Hmin.
  - simpl. rewrite append_nil_r.
    destruct sep as [|b sep]; [congruence|].
    change (String b sep ++ post) with (String b (sep ++ post)).
    cbn [split_from].
    change (String b (sep ++ post)) with (String b sep ++ post).
    rewrite prefix_append. f_equal.
    replace (String.length (String b sep) - 1) with (String.length sep)
      by (cbn [String.length]; lia).
    apply split_from_skip.
  - change (String a pre ++ sep ++ post) with (String a (pre ++ sep ++ post)).
    cbn [split_from].
    destruct (prefix sep (String a (pre ++ sep ++ post))) eqn:Hp.
    + apply prefix_iff in Hp as [t Ht].
      specialize (Hmin EmptyString t Ht). simpl in Hmin. lia.
    + rewrite IH.
      * now rewrite append_snoc.
      * intros pre' post' H'.
        specialize (Hmin (String a pre') post').
        simpl in Hmin. rewrite H' in Hmin. specialize (Hmin eq_refl). lia.
Qed.

Lemma split_absent (sep s : string) :
  contains sep s = false -> split sep s = [s].
Proof. intros H. unfold split. now rewrite split_from_absent. Qed.

Lemma split_first (sep pre post s : string) :
  sep <> EmptyString ->
  first_occurrence sep pre post s ->
  split sep s = pre :: split sep post.
Proof.
  intros Hsep H. unfold split.
  now rewrite (split_from_first sep pre post).
Qed.

End StringFacts.

(** ** Trimming *)

Section StripFacts.
Import PyStr.

Lemma lstrip_length (s : string) :
  String.length (lstrip s) <= String.length s.
Proof.
  induction s as [|c s IH]; simpl; [lia|].
  destruct (isspace c); simpl; lia.
Qed.

Lemma rstrip_length (s : string) :
  String.length (rstrip s) <= String.length s.
Proof.
  induction s as [|c s IH]; simpl; [lia|].
  destruct (isspace c && is_empty (rstrip s)); simpl; lia.
Qed.

Lemma strip_length (s : string) :
  String.length (strip s) <= String.length s.
Proof.
  unfold strip. pose proof (rstrip_length (lstrip s)).
  pose proof (lstrip_length s). lia.
Qed.

Lemma is_empty_false_length (s : string) :
  is_empty s = false <-> 1 <= String.length s.
Proof.
  destruct s; simpl; split; intros; (discriminate || lia || reflexivity).
Qed.

Lemma ends_solid_app (s t : string) : ends_solid t -> ends_solid (s ++ t).
Proof.
  intros [Hr He]. induction s as [|c s [IHr IHe]]; [now split|].
  split; [|reflexivity].
  simpl. rewrite IHr, IHe, andb_false_r. reflexivity.
Qed.

Lemma rstrip_app_blank (s : string) (c : ascii) :
  isspace c = true ->
  rstrip (s ++ String c EmptyString) = rstrip s.
Proof.
  intros Hc. induction s as [|a s IH]; simpl.
  - now rewrite Hc.
  - now rewrite IH.
Qed.

(** Trimming a body set between two line feeds gives back the body, when
    the body starts and ends with a character that is not blank. *)
Lemma strip_framed (c : ascii) (body : string) :
  isspace c = false ->
  ends_solid (String c body) ->
  strip (nl ++ String c body ++ nl) = String c body.
Proof.
  intros Hc [Hr _]. unfold strip, nl.
  cbn [append lstrip]. change (isspace LF) with true. cbn iota.
  cbn [lstrip]. rewrite Hc.
  change (String c (body ++ String LF EmptyString))
    with (String c body ++ String LF EmptyString).
  rewrite rstrip_app_blank by reflexivity. exact Hr.
Qed.

End StripFacts.

(** ** The response parser *)

Section ParserFacts.
Import PyStr StoryEngine.

(** *** The pattern of an option line *)

Lemma lstrip_fixed_head (c : ascii) (s : string) :
  lstrip (String c s) = String c s -> isspace c = false.
Proof.
  cbn [lstrip]. destruct (isspace c); [|reflexivity].
  intros H. pose proof (lstrip_length s) as Hl. rewrite H in Hl.
  cbn [String.length] in Hl. lia.
Qed.

Lemma lstrip_blank_head (c : ascii) (s : string) :
  lstrip (String c s) = EmptyString ->
  isspace c = true /\ lstrip s = EmptyString.
Proof.
  cbn [lstrip]. destruct (isspace c); [now split | discriminate].
Qed.

Lemma dot_star_no_line_feed (s : string) :
  contains nl s = false -> dot_star s = s.
Proof.
  induction s as [|c s IH]; [reflexivity|].
  cbn [contains dot_star]. intros H.
  apply orb_false_iff in H as [Hp Hc].
  destruct (Ascii.eqb_spec c LF) as [->|Hne].
  - unfold nl in Hp. cbn [prefix] in Hp.
    destruct (ascii_dec LF LF); [destruct s; discriminate | congruence].
  - now rewrite IH.
Qed.

(** The text of a line from its third character on is captured when it is
    made of blanks followed by a body that starts with a character other
    than a blank and holds no line feed. *)
Lemma ws_then_group_accepts (ws body : string) :
  lstrip ws = EmptyString ->
  body <> EmptyString -> lstrip body = body -> contains nl body = false ->
  ws_then_group (ws ++ body) = Some body.
Proof.
  intros Hws Hne Hbody Hlf. induction ws as [|c ws IH].
  - destruct body as [|b body]; [congruence|].
    cbn [append ws_then_group].
    rewrite (lstrip_fixed_head b body Hbody).
    unfold dot_plus. now rewrite (dot_star_no_line_feed _ Hlf).
  - apply lstrip_blank_head in Hws as [Hc Hws].
    cbn [append ws_then_group]. rewrite Hc. now rewrite IH.
Qed.

Lemma match_option_line_accepts (d p : ascii) (ws body : string) :
  is_digit_1_4 d = true -> is_dot_or_paren p = true ->
  lstrip ws = EmptyString ->
  body <> EmptyString -> lstrip body = body -> contains nl body = false ->
  match_option_line (String d (String p (ws ++ body))) = Some body.
Proof.
  intros Hd Hp Hws Hne Hbody Hlf. cbn [match_option_line].
  rewrite Hd, Hp. cbn [andb]. now apply ws_then_group_accepts.
Qed.

Lemma dot_plus_shape (s g : string) :
  dot_plus s = Some g ->
  exists tail, s = g ++ tail /\ g <> EmptyString.
Proof.
  unfold dot_plus. intros H.
  assert (Hsplit : forall t, exists tail, t = dot_star t ++ tail).
  { induction t as [|c t [tail IHt]]; [now exists EmptyString|].
    cbn [dot_star]. destruct (Ascii.eqb c LF).
    - now exists (String c t).
    - exists tail. cbn [append]. now rewrite <- IHt. }
  destruct (Hsplit s) as [tail Htail].
  destruct (dot_star s) as [|c g'] eqn:Eg; [discriminate|].
  injection H as <-. exists tail. split; [exact Htail | discriminate].
Qed.

(** Conversely, what is captured is a non-empty piece of the text that is
    preceded by blanks only. *)
Lemma ws_then_group_shape (s g : string) :
  ws_then_group s = Some g ->
  exists ws tail,
    s = ws ++ g ++ tail /\ lstrip ws = EmptyString /\ g <> EmptyString.
Proof.
  revert g; induction s as [|c s IH]; intros g; [discriminate|].
  cbn [ws_then_group].
  assert (Hdot : dot_plus (String c s) = Some g ->
                 exists ws tail,
                   String c s = ws ++ g ++ tail
                   /\ lstrip ws = EmptyString /\ g <> EmptyString).
  { intros H. apply dot_plus_shape in H as [tail [Heq Hne]].
    exists EmptyString, tail. now repeat split. }
  destruct (isspace c) eqn:Hc; [|exact Hdot].
  destruct (ws_then_group s) as [g'|]; [|exact Hdot].
  intros H. injection H as ->.
  destruct (IH g eq_refl) as [ws [tail [Heq [Hws Hne]]]].
  exists (String c ws), tail. repeat split.
  - cbn [append]. now rewrite <- Heq.
  - cbn [lstrip]. now rewrite Hc.
  - exact Hne.
Qed.

Lemma match_option_line_shape (line g : string) :
  match_option_line line = Some g ->
  exists d p ws tail,
    line = String d (String p (ws ++ g ++ tail))
    /\ is_digit_1_4 d = true /\ is_dot_or_paren p = true
    /\ lstrip ws = EmptyString /\ g <> EmptyString.
Proof.
  destruct line as [|d [|p rest]]; try discriminate.
  cbn [match_option_line].
  destruct (is_digit_1_4 d) eqn:Hd; [|discriminate].
  destruct (is_dot_or_paren p) eqn:Hp; [|discriminate].
  cbn [andb]. intros H.
  apply ws_then_group_shape in H as [ws [tail [Heq [Hws Hne]]]].
  exists d, p, ws, tail. subst rest. now repeat split.
Qed.

Lemma collect_options_captured (lines : list string) (acc : list string) :
  collect_options lines acc = (acc ++ captured lines)%list.
Proof.
  revert acc; induction lines as [|line rest IH]; intros acc; simpl.
  - now rewrite app_nil_r.
  - unfold option_of_line.
    destruct (match_option_line (strip line)) as [g|]; simpl.
    + rewrite IH, <- app_assoc. reflexivity.
    + apply IH.
Qed.

(** Filling up and cutting down is taking the first four of the options
    followed by the padding. *)
Lemma exactly_four (options : list string) :
  (if List.length options <? 4 then
     (options ++ firstn (4 - List.length options) padding_options)%list
   else if 4 <? List.length options then firstn 4 options
   else options)
  = firstn 4 (options ++ padding_options).
Proof.
  rewrite firstn_app.
  destruct (List.length options <? 4) eqn:Hlt.
  - apply Nat.ltb_lt in Hlt. rewrite (firstn_all2 options) by lia. reflexivity.
  - apply Nat.ltb_ge in Hlt.
    replace (4 - List.length options) with 0 by lia.
    rewrite firstn_O, app_nil_r.
    destruct (4 <? List.length options) eqn:Hgt; [reflexivity|].
    apply Nat.ltb_ge in Hgt. now rewrite (firstn_all2 options) by lia.
Qed.

Lemma DECISION_POINT_not_empty : DECISION_POINT <> EmptyString.
Proof. discriminate. Qed.

Lemma parse_response_absent (response : string) :
  contains DECISION_POINT response = false ->
  parse_response response = (strip response, fallback_options).
Proof.
  intros H. unfold parse_response. now rewrite split_absent.
Qed.

Lemma split_post_head (post : string) :
  exists seg more,
    split DECISION_POINT post = seg :: more /\ up_to_next_marker post seg.
Proof.
  destruct (contains DECISION_POINT post) eqn:Hc.
  - destruct (contains_first_occurrence _ _ Hc) as [seg [rest Hf]].
    exists seg, (split DECISION_POINT rest). split.
    + apply (split_first _ _ _ _ DECISION_POINT_not_empty Hf).
    + right. now exists rest.
  - exists post, []. split; [now apply split_absent | left; now split].
Qed.

Lemma parse_response_present (response pre post : string) :
  first_occurrence DECISION_POINT pre post response ->
  exists seg,
    up_to_next_marker post seg /\
    parse_response response =
      (strip pre, firstn 4 (captured_options seg ++ padding_options)).
Proof.
  intros Hf.
  destruct (split_post_head post) as [seg [more [Hsplit Hseg]]].
  exists seg. split; [exact Hseg|].
  unfold parse_response.
  rewrite (split_first _ _ _ _ DECISION_POINT_not_empty Hf), Hsplit.
  change (List.length (pre :: seg :: more) <? 2) with false.
  cbn [nth]. rewrite collect_options_captured. cbn [app].
  now rewrite exactly_four.
Qed.

(** C1. For every input string the parser returns one narrative string and
    exactly four option strings. *)
Theorem parse_response_four_options (response : string) :
  exists (narrative : string) (o1 o2 o3 o4 : string),
    parse_response response = (narrative, [o1; o2; o3; o4]).
Proof.
  assert (Hfour : forall l : list string,
             exists o1 o2 o3 o4,
               firstn 4 (l ++ padding_options) = [o1; o2; o3; o4]).
  { intros l. destruct l as [|a [|b [|c [|d l]]]]; cbn; eauto. }
  destruct (contains DECISION_POINT response) eqn:Hc.
  - destruct (contains_first_occurrence _ _ Hc) as [pre [post Hf]].
    destruct (parse_response_present _ _ _ Hf) as [seg [_ ->]].
    destruct (Hfour (captured_options seg)) as [o1 [o2 [o3 [o4 ->]]]].
    eauto 6.
  - rewrite parse_response_absent by exact Hc.
    unfold fallback_options. eauto 6.
Qed.

(** On a given text: the marker found after [pre] is the first one, as no
    shorter [pre'] is followed by the marker. *)
Tactic Notation "first_occurrence_after" integer(n) :=
  split; [reflexivity|];
  let pre' := fresh "pre'" in
  let post' := fresh "post'" in
  let Heq := fresh "Heq" in
  intros pre' post' Heq;
  do n (destruct pre' as [|? pre']; [vm_compute in Heq; discriminate|]);
  cbn; lia.

(** C5 does not hold as worded.  With one numbered line after the marker
    the parser returns four options, the last three being padding; and the
    numbered lines that come after a second marker are not read. *)
Lemma parse_response_pads_counterexample :
  (parse_response one_option_response
   = ("Hello", ["A"; "Take a different approach"; "Wait and observe";
                "Act decisively"])
   /\ ~ options_are_the_matched_lines one_option_response)
  /\ (parse_response two_marker_response
      = ("Hello", ["A"; "B"; "Take a different approach";
                   "Wait and observe"])
      /\ ~ options_are_the_matched_lines two_marker_response).
Proof.
  split; (split; [vm_compute; reflexivity|]); intros H.
  - specialize (H ("Hello" ++ nl) (nl ++ "1. A")).
    assert (Hf : first_occurrence DECISION_POINT ("Hello" ++ nl)
                   (nl ++ "1. A") one_option_response)
      by first_occurrence_after 6.
    specialize (H Hf). vm_compute in H. discriminate.
  - specialize (H ("Hello" ++ nl)
                  (nl ++ "1. A" ++ nl ++ "2. B" ++ nl ++ "DECISION_POINT"
                   ++ nl ++ "3. C" ++ nl ++ "4. D")).
    assert (Hf : first_occurrence DECISION_POINT ("Hello" ++ nl)
                   (nl ++ "1. A" ++ nl ++ "2. B" ++ nl ++ "DECISION_POINT"
                    ++ nl ++ "3. C" ++ nl ++ "4. D") two_marker_response)
      by first_occurrence_after 6.
    specialize (H Hf). vm_compute in H. discriminate.
Qed.

(** C5, amended. When the text contains the marker, the narrative is the
    trimmed text before its first occurrence; the options are the first
    four of: the captured texts of the option lines (each line trimmed, a
    digit 1-4, [.] or [)], then text) of the trimmed text between that
    occurrence and the next marker or the end, in order, followed by the
    padding options.  The example parses to [Hello] and [A, B, C, D]. *)
Theorem parse_response_with_marker :
  (forall response,
      (exists a b, response = a ++ DECISION_POINT ++ b) ->
      exists pre post seg,
        first_occurrence DECISION_POINT pre post response /\
        up_to_next_marker post seg /\
        parse_response response =
          (strip pre, firstn 4 (captured_options seg ++ padding_options)))
  /\ parse_response example_response = ("Hello", ["A"; "B"; "C"; "D"]).
Proof.
  split; [|vm_compute; reflexivity].
  intros response H. apply contains_iff in H.
  destruct (contains_first_occurrence _ _ H) as [pre [post Hf]].
  destruct (parse_response_present _ _ _ Hf) as [seg [Hseg Heq]].
  now exists pre, post, seg.
Qed.

Lemma parse_response_with_marker_witness :
  exists pre post seg,
    first_occurrence DECISION_POINT pre post example_response /\
    up_to_next_marker post seg /\
    parse_response example_response =
      (strip pre, firstn 4 (captured_options seg ++ padding_options)).
Proof.
  apply (proj1 parse_response_with_marker example_response).
  exists ("Hello" ++ nl), (nl ++ "1. A" ++ nl ++ "2. B" ++ nl ++ "3. C"
                           ++ nl ++ "4. D").
  reflexivity.
Defined.

(** C6. A text without the marker is returned whole, trimmed, as the
    narrative, with the four fixed fallback options; the parser is a total
    function, so nothing is raised. *)
Theorem parse_response_without_marker (response : string) :
  ~ (exists pre post, response = pre ++ DECISION_POINT ++ post) ->
  parse_response response =
    (strip response,
     [ "Continue cautiously"; "Take a bold approach";
       "Seek more information"; "Try a creative solution" ]).
Proof.
  intros H. apply not_contains_iff in H.
  now rewrite parse_response_absent.
Qed.

Lemma parse_response_without_marker_witness :
  parse_response "Just narrative, no marker" =
    ("Just narrative, no marker",
     [ "Continue cautiously"; "Take a bold approach";
       "Seek more information"; "Try a creative solution" ]).
Proof.
  apply (parse_response_without_marker "Just narrative, no marker").
  apply not_contains_iff. vm_compute. reflexivity.
Defined.

End ParserFacts.

(** ** The character *)

Section CharacterFacts.
Import PyStr Character.

Lemma to_prompt_profile (c : Character.t) : to_prompt c = profile c.
Proof.
  unfold to_prompt, profile.
  set (tr := match traits c with [] => _ | _ => _ end).
  match goal with
  | |- _ = ?p ++ ?rest =>
      set (r := rest);
      assert (Hs : ends_solid (p ++ r))
  end.
  { subst r. repeat apply ends_solid_app. split; vm_compute; reflexivity. }
  change ("PROTAGONIST PROFILE:" ++ r)
    with (String "P" ("ROTAGONIST PROFILE:" ++ r)) in *.
  rewrite <- (strip_framed "P" ("ROTAGONIST PROFILE:" ++ r) eq_refl Hs).
  f_equal. subst r. unfold nl.
  repeat (cbn [append]; rewrite ?append_assoc). reflexivity.
Qed.

(** C8 does not hold as worded: the prompt of the test character shows its
    world as [Fantasy] and does not contain [fantasy]. *)
Lemma to_prompt_world_counterexample :
  ~ ((exists pre post, to_prompt test_hero = pre ++ name test_hero ++ post)
     /\ (exists pre post,
            to_prompt test_hero = pre ++ world test_hero ++ post)).
Proof.
  intros [_ H]. revert H. apply not_contains_iff. vm_compute. reflexivity.
Qed.

(** C8, amended. The prompt contains the character's name verbatim, and
    the world identifier in title case ([world.title()]). *)
Theorem to_prompt_contains_name_and_titled_world (c : Character.t) :
  (exists pre post, to_prompt c = pre ++ name c ++ post)
  /\ (exists pre post, to_prompt c = pre ++ title (world c) ++ post).
Proof.
  rewrite to_prompt_profile. unfold profile. split.
  - eexists ("PROTAGONIST PROFILE:" ++ nl ++ "Name: "), _.
    rewrite !append_assoc. reflexivity.
  - eexists ("PROTAGONIST PROFILE:" ++ nl ++ "Name: " ++ name c ++ nl
             ++ "World: "), _.
    rewrite !append_assoc. reflexivity.
Qed.

Lemma length_append_if (b : bool) (msg : string) (issues : list string) :
  List.length (append_if b msg issues)
  = List.length issues + (if b then 1 else 0).
Proof.
  unfold append_if. destruct b; [|lia].
  rewrite length_app. reflexivity.
Qed.

Lemma too_short_false (s : string) (n : nat) :
  1 <= n ->
  (is_empty s || (String.length (strip s) <? n) = false)
  <-> n <= String.length (strip s).
Proof.
  intros Hn. rewrite orb_false_iff, Nat.ltb_ge. split; [tauto|].
  intros H. split; [|exact H].
  destruct s; [simpl in H; lia | reflexivity].
Qed.

(** [validate] succeeds exactly when none of its seven checks fires. *)
Lemma validate_ok_checks (c : Character.t) :
  fst (validate c) = true
  <-> (is_empty (name c) || (String.length (strip (name c)) <? 2)) = false
      /\ (is_empty (background c)
          || (String.length (strip (background c)) <? 10)) = false
      /\ (is_empty (goals c)
          || (String.length (strip (goals c)) <? 10)) = false
      /\ is_empty (world c) = false
      /\ (100 <? String.length (name c)) = false
      /\ (1000 <? String.length (background c)) = false
      /\ (500 <? String.length (goals c)) = false.
Proof.
  unfold validate. cbn [fst].
  rewrite Nat.eqb_eq, !length_append_if. cbn [List.length].
  destruct (is_empty (name c) || (String.length (strip (name c)) <? 2));
  destruct (is_empty (background c)
            || (String.length (strip (background c)) <? 10));
  destruct (is_empty (goals c) || (String.length (strip (goals c)) <? 10));
  destruct (is_empty (world c));
  destruct (100 <? String.length (name c));
  destruct (1000 <? String.length (background c));
  destruct (500 <? String.length (goals c));
  cbn; split; intros H; try discriminate; try reflexivity;
    try (repeat split; reflexivity);
    try (destruct H as (? & ? & ? & ? & ? & ? & ?); discriminate).
Qed.

Lemma world_given (w : string) : is_empty w = false <-> w <> EmptyString.
Proof. destruct w; simpl; split; congruence. Qed.

(** C7 does not hold as worded: a name of two characters, one of them a
    blank, has a length in range and is rejected. *)
Lemma validate_trims_counterexample :
  validate padded_name_hero
    = (false, ["Name must be at least 2 characters long"])
  /\ ~ (fst (validate padded_name_hero) = true
        <-> lengths_in_range padded_name_hero).
Proof.
  split; [vm_compute; reflexivity|].
  intros [_ H].
  assert (Hr : lengths_in_range padded_name_hero).
  { unfold lengths_in_range. simpl. repeat split; (lia || discriminate). }
  specialize (H Hr). vm_compute in H. discriminate.
Qed.

(** C7, amended. [validate] succeeds exactly when the trimmed name has at
    least 2 characters and the name at most 100, the trimmed background at
    least 10 and the background at most 1000, the trimmed goals at least
    10 and the goals at most 500, and the world is not empty. *)
Theorem validate_succeeds_iff (c : Character.t) :
  fst (validate c) = true
  <-> (2 <= String.length (strip (name c))
       /\ String.length (name c) <= 100)
      /\ (10 <= String.length (strip (background c))
          /\ String.length (background c) <= 1000)
      /\ (10 <= String.length (strip (goals c))
          /\ String.length (goals c) <= 500)
      /\ world c <> EmptyString.
Proof.
  rewrite validate_ok_checks.
  rewrite (too_short_false (name c) 2) by lia.
  rewrite (too_short_false (background c) 10) by lia.
  rewrite (too_short_false (goals c) 10) by lia.
  rewrite world_given, !Nat.ltb_ge.
  tauto.
Qed.

(** A character that passes [validate] has its lengths in the ranges of
    the specification. *)
Lemma validate_success_in_range (c : Character.t) :
  fst (validate c) = true -> lengths_in_range c.
Proof.
  intros H. apply validate_ok_checks in H.
  destruct H as (Hn & Hb & Hg & Hw & Hn' & Hb' & Hg').
  apply too_short_false in Hn, Hb, Hg; try lia.
  apply world_given in Hw. apply Nat.ltb_ge in Hn', Hb', Hg'.
  pose proof (strip_length (name c)).
  pose proof (strip_length (background c)).
  pose proof (strip_length (goals c)).
  unfold lengths_in_range. repeat split; (lia || assumption).
Qed.

End CharacterFacts.

(** ** The session history *)

Section HistoryFacts.
Import PyStr.
Context `{DT : DateTime}.

Lemma slice_from_negative {A} (l : list A) (n : Z) :
  (1 <= n)%Z ->
  StoryHistory.slice_from l (- n)
  = last_elements (Z.to_nat (Z.min n (Z.of_nat (List.length l)))) l.
Proof.
  intros Hn. unfold StoryHistory.slice_from, last_elements.
  destruct (Z.ltb_spec (- n) 0); [|lia].
  f_equal. lia.
Qed.

(** [l[-0:]] is [l[0:]]: with [n = 0] the slice is the whole list. *)
Lemma slice_from_zero {A} (l : list A) : StoryHistory.slice_from l (- 0) = l.
Proof.
  unfold StoryHistory.slice_from. cbn [Z.opp Z.ltb Z.compare].
  replace (Z.to_nat (Z.min 0 (Z.of_nat (List.length l)))) with 0 by lia.
  reflexivity.
Qed.

Lemma get_recent_context_empty (h : StoryHistory.t) (n : Z) :
  StoryHistory.story_chunks h = [] ->
  StoryHistory.get_recent_context h n = EmptyString.
Proof. intros H. unfold StoryHistory.get_recent_context. now rewrite H. Qed.

Lemma get_recent_context_positive (h : StoryHistory.t) (n : Z) :
  (1 <= n)%Z ->
  StoryHistory.get_recent_context h n
  = join (nl ++ nl)
      (map StoryChunk.text
         (last_elements
            (Z.to_nat (Z.min n (Z.of_nat
                                  (List.length (StoryHistory.story_chunks h)))))
            (StoryHistory.story_chunks h))
       ++ decision_note h).
Proof.
  intros Hn. unfold StoryHistory.get_recent_context, decision_note.
  rewrite slice_from_negative by exact Hn.
  destruct (StoryHistory.story_chunks h) as [|c cs] eqn:Hc.
  - cbn [List.length]. unfold last_elements. cbn [skipn map app].
    destruct (StoryHistory.decisions h) as [|d0 ds]; [reflexivity|].
    cbn [List.length Nat.ltb Nat.leb]. reflexivity.
  - destruct (StoryHistory.decisions h) as [|d0 ds].
    + now rewrite app_nil_r.
    + destruct (List.length (d0 :: ds) <? List.length (c :: cs)).
      * reflexivity.
      * now rewrite app_nil_r.
Qed.

(** With [n = 0] the slice [story_chunks[-0:]] is the whole list: every
    chunk is returned. *)
Lemma get_recent_context_zero (h : StoryHistory.t) :
  StoryHistory.get_recent_context h 0
  = join (nl ++ nl)
      (map StoryChunk.text (StoryHistory.story_chunks h) ++ decision_note h).
Proof.
  unfold StoryHistory.get_recent_context, decision_note.
  rewrite slice_from_zero.
  destruct (StoryHistory.story_chunks h) as [|c cs] eqn:Hc.
  - destruct (StoryHistory.decisions h) as [|d0 ds]; reflexivity.
  - destruct (StoryHistory.decisions h) as [|d0 ds].
    + now rewrite app_nil_r.
    + destruct (List.length (d0 :: ds) <? List.length (c :: cs)).
      * reflexivity.
      * now rewrite app_nil_r.
Qed.

(** C10, amended. On a history without chunks the context is the empty
    string.  For [n >= 1] it is the texts of the last [min(n,k)] chunks, in
    order, joined by a blank line and followed, when a decision is recorded
    and there are more chunks than decisions, by a note on the last
    decision. *)
Theorem get_recent_context_last_chunks (h : StoryHistory.t) (n : Z) :
  (StoryHistory.story_chunks h = [] ->
   StoryHistory.get_recent_context h n = EmptyString)
  /\ ((1 <= n)%Z ->
      StoryHistory.get_recent_context h n
      = join (nl ++ nl)
          (map StoryChunk.text
             (last_elements
                (Z.to_nat
                   (Z.min n (Z.of_nat
                               (List.length (StoryHistory.story_chunks h)))))
                (StoryHistory.story_chunks h))
           ++ decision_note h)).
Proof.
  split.
  - apply get_recent_context_empty.
  - apply get_recent_context_positive.
Qed.

(** *** Serialisation *)

Lemma traverse_as_str (l : list string) :
  traverse Dict.as_str (map JStr l) = Ok l.
Proof.
  induction l as [|a l IH]; simpl; [reflexivity | now rewrite IH].
Qed.

Lemma traverse_roundtrip {A} (to : A -> json) (from : json -> result A)
    (P : A -> Prop) (l : list A) :
  (forall a, P a -> from (to a) = Ok a) ->
  Forall P l ->
  traverse from (map to l) = Ok l.
Proof.
  intros Hrt H. induction H as [|a l Ha _ IH]; simpl; [reflexivity|].
  now rewrite (Hrt a Ha), IH.
Qed.

Lemma chunk_from_dict_to_dict (c : StoryChunk.t) :
  roundtrips (StoryChunk.timestamp c) ->
  StoryChunk.from_dict (StoryChunk.to_dict c) = Ok c.
Proof.
  intros H. destruct c as [text ts cid opts]. unfold roundtrips in H.
  cbn in H |- *. rewrite H. cbn.
  unfold Dict.as_str_list. cbn. now rewrite traverse_as_str.
Qed.

Lemma decision_from_dict_to_dict (d : DecisionEntry.t) :
  roundtrips (DecisionEntry.timestamp d) ->
  DecisionEntry.from_dict (DecisionEntry.to_dict d) = Ok d.
Proof.
  intros H. destruct d as [text opts idx ts]. unfold roundtrips in H.
  cbn in H |- *.
  unfold Dict.as_str_list. cbn. rewrite traverse_as_str. cbn.
  now rewrite H.
Qed.

Lemma history_from_dict_to_dict (h : StoryHistory.t) :
  Forall roundtrips (timestamps h) ->
  StoryHistory.from_dict (StoryHistory.to_dict h) = Ok h.
Proof.
  destruct h as [sid cname wt chunks decs created updated].
  unfold timestamps. cbn [StoryHistory.created_at StoryHistory.last_updated
                          StoryHistory.story_chunks StoryHistory.decisions].
  intros H. inversion H as [|? ? Hc H1]; subst.
  inversion H1 as [|? ? Hu H2]; subst.
  apply Forall_app in H2 as [Hchunks Hdecs].
  rewrite Forall_map in Hchunks, Hdecs.
  unfold roundtrips in Hc, Hu.
  cbn.
  rewrite (traverse_roundtrip StoryChunk.to_dict StoryChunk.from_dict _
             chunks chunk_from_dict_to_dict Hchunks).
  cbn.
  rewrite (traverse_roundtrip DecisionEntry.to_dict DecisionEntry.from_dict _
             decs decision_from_dict_to_dict Hdecs).
  cbn. rewrite Hc. cbn. rewrite Hu. reflexivity.
Qed.

Context `{JS : Json}.

Lemma from_json_to_json (h : StoryHistory.t) :
  loads (dumps (StoryHistory.to_dict h)) = Ok (StoryHistory.to_dict h) ->
  Forall roundtrips (timestamps h) ->
  StoryHistory.from_json (StoryHistory.to_json h) = Ok h.
Proof.
  intros Hj Ht. unfold StoryHistory.from_json, StoryHistory.to_json.
  rewrite Hj. cbn [bind]. now apply history_from_dict_to_dict.
Qed.

(** C9. Provided [json.loads] reads back the dictionary [json.dumps] wrote
    and [fromisoformat] reads back the timestamps [isoformat] wrote,
    [from_json (to_json h)] returns a history with the session identifier,
    character name, world, number of chunks and number of decisions
    of [h]. *)
Theorem history_json_roundtrip (h : StoryHistory.t) :
  loads (dumps (StoryHistory.to_dict h)) = Ok (StoryHistory.to_dict h) ->
  Forall (fun t => fromisoformat (isoformat t) = Ok t) (timestamps h) ->
  exists h',
    StoryHistory.from_json (StoryHistory.to_json h) = Ok h'
    /\ StoryHistory.session_id h' = StoryHistory.session_id h
    /\ StoryHistory.character_name h' = StoryHistory.character_name h
    /\ StoryHistory.world_type h' = StoryHistory.world_type h
    /\ List.length (StoryHistory.story_chunks h')
       = List.length (StoryHistory.story_chunks h)
    /\ List.length (StoryHistory.decisions h')
       = List.length (StoryHistory.decisions h).
Proof.
  intros Hj Ht. exists h. rewrite from_json_to_json by assumption.
  repeat split.
Qed.

End HistoryFacts.

(** ** The history on examples *)

Section HistoryExamples.
Import PyStr Sample.

(** C10 does not hold as worded: asked for one chunk of a history of two
    chunks and one decision, [get_recent_context] returns the last chunk's
    text and, after it, a note on the last decision; asked for two, it
    returns the two texts with a blank line between them, and the note. *)
Lemma get_recent_context_counterexample :
  (StoryHistory.get_recent_context forest_history 1
   = "The path to the left ends at a river." ++ nl ++ nl
     ++ nl ++ "[Last Decision: Go left]"
   /\ last_texts_concatenated forest_history 1
      = "The path to the left ends at a river."
   /\ StoryHistory.get_recent_context forest_history 1
      <> last_texts_concatenated forest_history 1)
  /\ (StoryHistory.get_recent_context forest_history 2
      = "You find yourself in a dark forest..." ++ nl ++ nl
        ++ "The path to the left ends at a river." ++ nl ++ nl
        ++ nl ++ "[Last Decision: Go left]"
      /\ last_texts_concatenated forest_history 2
         = "You find yourself in a dark forest..."
           ++ "The path to the left ends at a river."
      /\ StoryHistory.get_recent_context forest_history 2
         <> last_texts_concatenated forest_history 2).
Proof.
  split; (split; [vm_compute; reflexivity|]);
    (split; [vm_compute; reflexivity|]); vm_compute; discriminate.
Qed.

Lemma get_recent_context_last_chunks_witness :
  StoryHistory.get_recent_context empty_history 3 = EmptyString
  /\ StoryHistory.get_recent_context forest_history 1
     = join (nl ++ nl)
         (map StoryChunk.text
            (last_elements
               (Z.to_nat
                  (Z.min 1
                     (Z.of_nat
                        (List.length
                           (StoryHistory.story_chunks forest_history)))))
               (StoryHistory.story_chunks forest_history))
          ++ decision_note forest_history).
Proof.
  split.
  - apply (proj1 (get_recent_context_last_chunks empty_history 3)).
    reflexivity.
  - apply (proj2 (get_recent_context_last_chunks forest_history 1)).
    lia.
Defined.

Lemma history_json_roundtrip_witness :
  exists h',
    StoryHistory.from_json (StoryHistory.to_json forest_history) = Ok h'
    /\ StoryHistory.session_id h' = "test_session"
    /\ StoryHistory.character_name h' = "Test Hero"
    /\ StoryHistory.world_type h' = "fantasy"
    /\ List.length (StoryHistory.story_chunks h') = 2
    /\ List.length (StoryHistory.decisions h') = 1.
Proof.
  apply (history_json_roundtrip forest_history).
  - vm_compute. reflexivity.
  - repeat constructor.
Defined.

End HistoryExamples.

(** ** The session: decisions against chunks *)

Section AppFacts.
Import App.
Context `{DT : DateTime}.

Local Notation "'chunk_count' h" :=
  (List.length (StoryHistory.story_chunks h))
  (at level 10, h at level 9, only parsing).
Local Notation "'decision_count' h" :=
  (List.length (StoryHistory.decisions h))
  (at level 10, h at level 9, only parsing).

Lemma add_story_chunk_counts h text options clk chunk h' clk' :
  StoryHistory.add_story_chunk h text options clk = ((chunk, h'), clk') ->
  chunk_count h' = S (chunk_count h)
  /\ StoryHistory.decisions h' = StoryHistory.decisions h.
Proof.
  unfold StoryHistory.add_story_chunk, StoryChunk.create, now.
  cbn. intros H. injection H as _ <- _. cbn.
  rewrite length_app. cbn. split; [lia | reflexivity].
Qed.

Lemma add_decision_counts h text options idx clk d h' clk' :
  StoryHistory.add_decision h text options idx clk = ((d, h'), clk') ->
  decision_count h' = S (decision_count h)
  /\ StoryHistory.story_chunks h' = StoryHistory.story_chunks h.
Proof.
  unfold StoryHistory.add_decision, DecisionEntry.create, now.
  cbn. intros H. injection H as _ <- _. cbn.
  rewrite length_app. cbn. split; [lia | reflexivity].
Qed.

Lemma settled_initial clk : settled 0 (initialize_session_state clk).
Proof. intros h H. discriminate. Qed.

Lemma create_counts session_id character_name world_type clk h clk' :
  StoryHistory.create session_id character_name world_type clk = (h, clk') ->
  StoryHistory.story_chunks h = [] /\ StoryHistory.decisions h = [].
Proof.
  unfold StoryHistory.create, now. cbn. intros H. injection H as <- _.
  now split.
Qed.

Lemma settled_start_new_story f character engine s :
  settled f (start_new_story character engine s).
Proof.
  unfold start_new_story.
  destruct (now (clock s)) as [t_id clk0].
  destruct (StoryHistory.create _ _ _ clk0) as [h0 clk1] eqn:E0.
  apply create_counts in E0 as [Ec0 Ed0].
  destruct engine as [| text options | msg].
  - intros h H. cbn in H. injection H as <-. left.
    now rewrite Ec0, Ed0.
  - destruct (StoryHistory.add_story_chunk h0 text (Some options) clk1)
      as [[chunk h1] clk2] eqn:E1.
    apply add_story_chunk_counts in E1 as [Ec1 Ed1].
    intros h H. cbn in H. injection H as <-.
    right. rewrite Ec1, Ed1, Ec0, Ed0. cbn. lia.
  - intros h H. cbn in H. injection H as <-. left.
    now rewrite Ec0, Ed0.
Qed.

Lemma settled_make_decision f choice_index engine s :
  decision_offered s = true ->
  settled f s ->
  settled (f + (if is_failure engine then 1 else 0))
          (make_decision choice_index engine s).
Proof.
  intros Hoffer Hs.
  assert (Hkeep : settled (f + (if is_failure engine then 1 else 0)) s).
  { intros h Hh. destruct (Hs h Hh) as [?|[? ?]]; [now left | right; lia]. }
  unfold make_decision.
  destruct (current_options s) as [|o os] eqn:Hopts; [exact Hkeep|].
  destruct (Z.of_nat (List.length (o :: os)) <=? choice_index)%Z;
    [exact Hkeep|].
  destruct (list_getitem (o :: os) choice_index) as [chosen|];
    [|exact Hkeep].
  destruct (story_history s) as [history|] eqn:Hh; [|exact Hkeep].
  assert (Hc : 1 <= chunk_count history).
  { unfold decision_offered in Hoffer. rewrite Hh in Hoffer.
    destruct (chunk_count history); [discriminate | lia]. }
  destruct (Hs history Hh) as [[? _]|[_ Hd]]; [lia|].
  destruct (StoryHistory.add_decision history chosen (o :: os) choice_index
              (clock s)) as [[d h1] clk1] eqn:E1.
  apply add_decision_counts in E1 as [Ed1 Ec1].
  destruct engine as [| text options | msg]; cbn [is_failure].
  - intros h H. cbn in H. injection H as <-.
    right. rewrite Ed1, Ec1. lia.
  - destruct (StoryHistory.add_story_chunk h1 text (Some options) clk1)
      as [[chunk h2] clk2] eqn:E2.
    apply add_story_chunk_counts in E2 as [Ec2 Ed2].
    intros h H. cbn in H. injection H as <-.
    right. rewrite Ec2, Ed2, Ed1, Ec1. lia.
  - intros h H. cbn in H. injection H as <-.
    right. rewrite Ed1, Ec1. lia.
Qed.

Lemma settled_step f s a :
  settled f s -> settled (count_failure f a) (step s a).
Proof.
  intros Hs. destruct a as [character engine | choice_index engine |]; cbn.
  - apply settled_start_new_story.
  - destruct (decision_offered s) eqn:Hoffer.
    + now apply settled_make_decision.
    + intros h Hh. destruct (Hs h Hh) as [?|[? ?]]; [now left | right; lia].
  - intros h H. discriminate.
Qed.

Lemma settled_run actions : forall f s,
  settled f s -> settled (fold_left count_failure actions f) (run s actions).
Proof.
  induction actions as [|a actions IH]; intros f s Hs; cbn.
  - exact Hs.
  - apply IH. now apply settled_step.
Qed.

(** From a fresh session, the decisions exceed the chunks by at most the
    number of continuations that failed since the story was started, less
    one. *)
Lemma decisions_bound clk actions h :
  story_history (run (initialize_session_state clk) actions) = Some h ->
  decision_count h <= chunk_count h + (failed_continuations actions - 1).
Proof.
  intros H.
  destruct (settled_run actions 0 _ (settled_initial clk) h H)
    as [[? ?]|[? ?]]; unfold failed_continuations; lia.
Qed.

(** C2, amended. After every sequence of start, choose and restart
    operations on a fresh session in which at most one continuation has
    failed since the story was last started (the engine is unavailable or
    generation raises, so that the decision is recorded and no chunk is
    appended), the history has no more decisions than chunks. *)
Theorem decisions_le_chunks_one_failure clk actions h :
  story_history (run (initialize_session_state clk) actions) = Some h ->
  failed_continuations actions <= 1 ->
  decision_count h <= chunk_count h.
Proof.
  intros H Hf. pose proof (decisions_bound clk actions h H). lia.
Qed.

End AppFacts.

Section AppExamples.
Import App Sample.

(** C2 does not hold as worded: after a second failed continuation the
    history holds two decisions and one chunk. *)
Lemma decisions_le_chunks_counterexample :
  exists h,
    story_history (run (initialize_session_state sample_clock) two_failures)
      = Some h
    /\ List.length (StoryHistory.decisions h) = 2
    /\ List.length (StoryHistory.story_chunks h) = 1
    /\ ~ (List.length (StoryHistory.decisions h)
          <= List.length (StoryHistory.story_chunks h)).
Proof.
  eexists. split; [reflexivity|].
  split; [reflexivity|]. split; [reflexivity|].
  cbn. lia.
Qed.

Lemma decisions_le_chunks_one_failure_witness :
  exists h,
    story_history (run (initialize_session_state sample_clock) one_failure)
      = Some h
    /\ List.length (StoryHistory.decisions h) = 1
    /\ List.length (StoryHistory.decisions h)
       <= List.length (StoryHistory.story_chunks h).
Proof.
  eexists. split; [reflexivity|].
  split; [reflexivity|].
  apply (decisions_le_chunks_one_failure sample_clock one_failure).
  - reflexivity.
  - cbn. lia.
Defined.

End AppExamples.

(** ** Retrying with backoff *)

Section RetryFacts.
Import Config.
Context {W V E : Type}.
Variable str : E -> string.
Variable func : W -> (E + V) * W.

Lemma range_of_nat (n : nat) : range (Z.of_nat n) = map Z.of_nat (seq 0 n).
Proof. unfold range. now rewrite Nat2Z.id. Qed.

Lemma retry_loop_run (max_retries : Z) (base_delay : Q) (k : nat) :
  forall (a n : nat) (fx : effects),
    Z.of_nat (a + n) = (max_retries + 1)%Z ->
    k < n ->
    (forall i, i < k ->
               rate_limited str (fst (call func i (world fx))) = true) ->
    rate_limited str (fst (call func k (world fx))) = false
    \/ Z.of_nat (a + k) = max_retries ->
    retry_loop str func max_retries base_delay (map Z.of_nat (seq a n)) fx
    = (finish (fst (call func k (world fx))),
       mkEffects (snd (call func k (world fx)))
         (slept fx ++ map (delay base_delay) (map Z.of_nat (seq a k)))
         (calls fx + S k)).
Proof.
  induction k as [|k IH]; intros a n fx Hend Hk Hfail Hlast;
    (destruct n as [|n]; [lia|]); cbn [seq map retry_loop].
  - unfold call in *. cbn [world_before] in *.
    destruct (func (world fx)) as [r w] eqn:Er. cbn [fst snd] in *.
    rewrite app_nil_r, Nat.add_1_r.
    destruct r as [e|v]; cbn [finish rate_limited] in *; [|reflexivity].
    destruct (Z.eqb_spec (Z.of_nat a) max_retries) as [Ha|Ha];
      [reflexivity|].
    destruct Hlast as [Hlast|Hlast]; [|lia].
    now rewrite Hlast.
  - pose proof (Hfail 0 (Nat.lt_0_succ k)) as H0.
    unfold call in H0. cbn [world_before] in H0.
    destruct (func (world fx)) as [r w] eqn:Er. cbn [fst] in H0.
    destruct r as [e|v]; cbn [rate_limited] in H0; [|discriminate].
    destruct (Z.eqb_spec (Z.of_nat a) max_retries) as [Ha|Ha]; [lia|].
    rewrite H0.
    rewrite (IH (S a) n); cbn [world slept calls].
    + unfold call. cbn [world_before]. rewrite Er. cbn [snd].
      rewrite <- app_assoc. cbn [app]. f_equal. f_equal. lia.
    + rewrite <- Hend. f_equal. lia.
    + lia.
    + intros i Hi. specialize (Hfail (S i) (proj1 (Nat.succ_lt_mono _ _) Hi)).
      unfold call in *. cbn [world_before] in Hfail. now rewrite Er in Hfail.
    + unfold call in *. cbn [world_before] in Hlast. rewrite Er in Hlast.
      cbn [snd] in Hlast.
      destruct Hlast as [Hlast|Hlast]; [now left | right; lia].
Qed.

(** After [k <= max_retries] failures that count as rate limits, a call
    that returns, or raises another kind of error, or is the last attempt,
    ends the loop: its result is passed on, [func] was called [k + 1]
    times and the delays slept are [base_delay * 2^0 .. 2^(k-1)]. *)
Lemma retry_run (max_retries : Z) (base_delay : Q) (w : W) (k : nat) :
  (Z.of_nat k <= max_retries)%Z ->
  (forall i, i < k -> rate_limited str (fst (call func i w)) = true) ->
  rate_limited str (fst (call func k w)) = false \/ Z.of_nat k = max_retries ->
  retry_with_backoff str func max_retries base_delay w
  = (finish (fst (call func k w)),
     mkEffects (snd (call func k w)) (backoff_delays base_delay k) (S k)).
Proof.
  intros Hk Hfail Hlast. unfold retry_with_backoff, range, backoff_delays.
  rewrite range_of_nat.
  rewrite (retry_loop_run max_retries base_delay k 0
             (Z.to_nat (max_retries + 1)) (mkEffects w [] 0));
    cbn [world slept calls app Nat.add]; try assumption; try lia.
  reflexivity.
Qed.

Lemma delay_0 (base_delay : Q) : (delay base_delay 0 == base_delay)%Q.
Proof. unfold delay. cbn. ring. Qed.

Lemma delay_1 (base_delay : Q) : (delay base_delay 1 == 2 * base_delay)%Q.
Proof. unfold delay. cbn. ring. Qed.

(** C3. (a) When the first [k <= max_retries] attempts fail with errors
    whose text contains a rate-limit indicator and the next attempt
    returns, [retry_with_backoff] returns that value after sleeping
    [base_delay * 2^attempt] after each failed attempt.  (b) In
    particular, two failures with the message [429 rate limit] and then a
    success return the success value, having slept [base_delay] and then
    [2 * base_delay].  (c) When the attempts 0 to [max_retries - 1] fail
    with rate-limit errors and the last attempt fails too, the last error
    is raised. *)
Theorem retry_with_backoff_behaviour :
  (forall max_retries base_delay w k v,
      (Z.of_nat k <= max_retries)%Z ->
      (forall i, i < k -> rate_limited str (fst (call func i w)) = true) ->
      fst (call func k w) = inr v ->
      retry_with_backoff str func max_retries base_delay w
      = (Returned v,
         mkEffects (snd (call func k w))
           (map (fun attempt => (base_delay * inject_Z (2 ^ attempt))%Q)
                (range (Z.of_nat k)))
           (S k)))
  /\ (forall max_retries base_delay w e1 e2 v,
         (2 <= max_retries)%Z ->
         fst (call func 0 w) = inl e1 -> str e1 = "429 rate limit" ->
         fst (call func 1 w) = inl e2 -> str e2 = "429 rate limit" ->
         fst (call func 2 w) = inr v ->
         exists d1 d2,
           retry_with_backoff str func max_retries base_delay w
           = (Returned v, mkEffects (snd (call func 2 w)) [d1; d2] 3)
           /\ (d1 == base_delay)%Q /\ (d2 == 2 * base_delay)%Q)
  /\ (forall max_retries base_delay w e,
         (0 <= max_retries)%Z ->
         (forall i, i < Z.to_nat max_retries ->
                    rate_limited str (fst (call func i w)) = true) ->
         fst (call func (Z.to_nat max_retries) w) = inl e ->
         retry_with_backoff str func max_retries base_delay w
         = (Raised e,
            mkEffects (snd (call func (Z.to_nat max_retries) w))
              (map (fun attempt => (base_delay * inject_Z (2 ^ attempt))%Q)
                   (range max_retries))
              (S (Z.to_nat max_retries)))).
Proof.
  split; [|split].
  - intros max_retries base_delay w k v Hk Hfail Hv.
    rewrite (retry_run max_retries base_delay w k Hk Hfail).
    + now rewrite Hv.
    + left. now rewrite Hv.
  - intros max_retries base_delay w e1 e2 v Hmax H0 Hm0 H1 Hm1 H2.
    exists (delay base_delay 0), (delay base_delay 1).
    split; [|split; [apply delay_0 | apply delay_1]].
    rewrite (retry_run max_retries base_delay w 2).
    + now rewrite H2.
    + lia.
    + intros i Hi.
      assert (Hi' : i = 0 \/ i = 1) by lia.
      destruct Hi' as [-> | ->].
      * rewrite H0. cbn [rate_limited]. now rewrite Hm0.
      * rewrite H1. cbn [rate_limited]. now rewrite Hm1.
    + left. now rewrite H2.
  - intros max_retries base_delay w e Hmax Hfail He.
    rewrite (retry_run max_retries base_delay w (Z.to_nat max_retries)).
    + rewrite He. unfold backoff_delays. now rewrite Z2Nat.id by lia.
    + lia.
    + exact Hfail.
    + right. lia.
Qed.

(** C4. When the first call of the operation raises an error whose text
    contains no rate-limit indicator, [retry_with_backoff] raises that
    error at once: nothing is slept and the operation was called once.
    ([0 <= max_retries]: the operation is called at all.) *)
Theorem retry_with_backoff_other_error max_retries base_delay w e :
  (0 <= max_retries)%Z ->
  fst (func w) = inl e ->
  is_rate_limit_error (str e) = false ->
  retry_with_backoff str func max_retries base_delay w
  = (Raised e, mkEffects (snd (func w)) [] 1).
Proof.
  intros Hmax He Hmsg.
  rewrite (retry_run max_retries base_delay w 0).
  - unfold call. cbn [world_before]. now rewrite He.
  - lia.
  - intros i Hi. lia.
  - left. unfold call. cbn [world_before]. rewrite He. exact Hmsg.
Qed.

End RetryFacts.

Section RetryExamples.
Import Config.

Lemma retry_with_backoff_behaviour_witness :
  exists d1 d2,
    retry_with_backoff (fun e => e) flaky default_max_retries
      default_base_delay 0
    = (Returned "Once upon a time", mkEffects 3 [d1; d2] 3)
    /\ (d1 == 1)%Q /\ (d2 == 2 * 1)%Q.
Proof.
  apply (proj1 (proj2 (retry_with_backoff_behaviour (fun e => e) flaky))
           default_max_retries default_base_delay 0
           "429 rate limit" "429 rate limit" "Once upon a time");
    (reflexivity || (unfold default_max_retries; lia)).
Defined.

Lemma retry_with_backoff_other_error_witness :
  retry_with_backoff (fun e => e) rejected default_max_retries
    default_base_delay 0
  = (Raised "API key not valid", mkEffects 1 [] 1).
Proof.
  apply (retry_with_backoff_other_error (fun e => e) rejected
           default_max_retries default_base_delay 0 "API key not valid").
  - unfold default_max_retries. lia.
  - reflexivity.
  - vm_compute. reflexivity.
Defined.

End RetryExamples.

(* ================================================================== *)
(** * Part IV: further properties of the code *)
(* ================================================================== *)

(** ** [retry_with_backoff]: every run *)

Section RetryRuns.
Import Config.
Context {W V E : Type}.
Variable str : E -> string.
Variable func : W -> (E + V) * W.

(** Among the calls 0 to [m] there is a first one that ends the loop. *)
Lemma ending_call (w : W) (m : nat) :
  exists k,
    k <= m
    /\ (forall i, i < k -> rate_limited str (fst (call func i w)) = true)
    /\ (rate_limited str (fst (call func k w)) = false \/ k = m).
Proof.
  induction m as [|m [k [Hk [Hfail Hlast]]]].
  - exists 0. repeat split; [lia | intros i Hi; lia | now right].
  - destruct (rate_limited str (fst (call func k w))) eqn:Hrl.
    + destruct Hlast as [Hlast | ->]; [discriminate|].
      exists (S m). repeat split; [lia | | now right].
      intros i Hi. destruct (Nat.eq_dec i m) as [->|Hne]; [exact Hrl|].
      apply Hfail. lia.
    + exists k. repeat split; [lia | exact Hfail | now left].
Qed.

Lemma retry_ends_at (max_retries : Z) (base_delay : Q) (w : W) :
  (0 <= max_retries)%Z ->
  exists k,
    (Z.of_nat k <= max_retries)%Z
    /\ (forall i, i < k -> rate_limited str (fst (call func i w)) = true)
    /\ retry_with_backoff str func max_retries base_delay w
       = (finish (fst (call func k w)),
          mkEffects (snd (call func k w)) (backoff_delays base_delay k) (S k)).
Proof.
  intros Hmax.
  destruct (ending_call w (Z.to_nat max_retries)) as [k [Hk [Hfail Hlast]]].
  exists k. split; [lia|]. split; [exact Hfail|].
  apply retry_run; [lia | exact Hfail |].
  destruct Hlast as [Hlast|Hlast]; [now left | right; lia].
Qed.

(** X1. With a negative [max_retries] the loop has no attempt: the operation
    is not called, nothing is slept and [None] is returned. *)
Theorem retry_with_backoff_negative max_retries base_delay w :
  (max_retries < 0)%Z ->
  retry_with_backoff str func max_retries base_delay w
  = (ReturnedNone, mkEffects w [] 0).
Proof.
  intros Hneg. unfold retry_with_backoff, range.
  replace (Z.to_nat (max_retries + 1)) with 0 by lia.
  reflexivity.
Qed.

(** X2. With [max_retries >= 0], whatever the operation does, the run ends
    with the result of one of its calls, the k-th with [k <= max_retries]:
    that value is returned or that error raised ([None] is never returned),
    the operation was called [k + 1] times, all calls before the last
    raised rate-limit errors, and the delays slept are
    [base_delay * 2^0, ..., base_delay * 2^(k-1)] in this order. *)
Theorem retry_with_backoff_run max_retries base_delay w :
  (0 <= max_retries)%Z ->
  exists k,
    (Z.of_nat k <= max_retries)%Z
    /\ (forall i, i < k ->
                  exists e, fst (call func i w) = inl e
                            /\ is_rate_limit_error (str e) = true)
    /\ fst (retry_with_backoff str func max_retries base_delay w)
       = match fst (call func k w) with
         | inl e => Raised e
         | inr v => Returned v
         end
    /\ world (snd (retry_with_backoff str func max_retries base_delay w))
       = snd (call func k w)
    /\ calls (snd (retry_with_backoff str func max_retries base_delay w))
       = S k
    /\ slept (snd (retry_with_backoff str func max_retries base_delay w))
       = map (fun attempt => (base_delay * inject_Z (2 ^ attempt))%Q)
           (range (Z.of_nat k)).
Proof.
  intros Hmax.
  destruct (retry_ends_at max_retries base_delay w Hmax)
    as [k [Hk [Hfail Heq]]].
  exists k. rewrite Heq. cbn [fst snd world calls slept].
  split; [exact Hk|]. split; [|repeat split].
  intros i Hi. specialize (Hfail i Hi).
  destruct (fst (call func i w)) as [e|v]; cbn in Hfail; [|discriminate].
  now exists e.
Qed.

Lemma range_succ (k : nat) :
  range (Z.of_nat (S k)) = (range (Z.of_nat k) ++ [Z.of_nat k])%list.
Proof.
  rewrite !range_of_nat, seq_S, map_app. reflexivity.
Qed.

Lemma total_delay_app (l1 l2 : list Q) :
  (total_delay (l1 ++ l2) == total_delay l1 + total_delay l2)%Q.
Proof.
  induction l1 as [|d l1 IH].
  - change (total_delay ([] ++ l2)) with (total_delay l2).
    change (total_delay []) with 0%Q. ring.
  - change (total_delay ((d :: l1) ++ l2))
      with (d + total_delay (l1 ++ l2))%Q.
    change (total_delay (d :: l1)) with (d + total_delay l1)%Q.
    rewrite IH. ring.
Qed.

(** The delays of [k] retries add up to [base_delay * (2^k - 1)]. *)
Lemma total_backoff (base_delay : Q) (k : nat) :
  (total_delay (backoff_delays base_delay k)
   == base_delay * inject_Z (2 ^ Z.of_nat k - 1))%Q.
Proof.
  induction k as [|k IH].
  - change (total_delay (backoff_delays base_delay 0)) with 0%Q.
    change (inject_Z (2 ^ Z.of_nat 0 - 1)) with 0%Q. ring.
  - unfold backoff_delays in *. rewrite range_succ, map_app, total_delay_app.
    rewrite IH. cbn [map total_delay fold_right]. unfold delay.
    rewrite Nat2Z.inj_succ, Z.pow_succ_r by lia.
    replace (2 * 2 ^ Z.of_nat k - 1)%Z
      with ((2 ^ Z.of_nat k - 1) + 2 ^ Z.of_nat k)%Z by lia.
    rewrite inject_Z_plus. ring.
Qed.

(** X3. With [max_retries >= 0] and a delay [base_delay >= 0], the time
    slept by one run is at most [base_delay * (2^max_retries - 1)]. *)
Theorem retry_with_backoff_total_delay max_retries base_delay w :
  (0 <= max_retries)%Z -> (0 <= base_delay)%Q ->
  (total_delay
     (slept (snd (retry_with_backoff str func max_retries base_delay w)))
   <= base_delay * inject_Z (2 ^ max_retries - 1))%Q.
Proof.
  intros Hmax Hbase.
  destruct (retry_ends_at max_retries base_delay w Hmax)
    as [k [Hk [_ Heq]]].
  rewrite Heq. cbn [snd slept]. rewrite total_backoff.
  rewrite (Qmult_comm base_delay (inject_Z (2 ^ Z.of_nat k - 1))).
  rewrite (Qmult_comm base_delay (inject_Z (2 ^ max_retries - 1))).
  apply Qmult_le_compat_r; [|exact Hbase].
  rewrite <- Zle_Qle.
  assert (2 ^ Z.of_nat k <= 2 ^ max_retries)%Z
    by (apply Z.pow_le_mono_r; lia).
  lia.
Qed.

End RetryRuns.

Section RetryRunsExamples.
Import Config.

Lemma retry_with_backoff_negative_witness :
  retry_with_backoff (fun e => e) flaky (-1) default_base_delay 0
  = (ReturnedNone, mkEffects 0 [] 0).
Proof.
  apply (retry_with_backoff_negative (fun e => e) flaky (-1)
           default_base_delay 0).
  lia.
Defined.

Lemma retry_with_backoff_run_witness :
  exists k,
    (Z.of_nat k <= default_max_retries)%Z
    /\ (forall i, i < k ->
                  exists e, fst (call flaky i 0) = inl e
                            /\ is_rate_limit_error e = true)
    /\ fst (retry_with_backoff (fun e => e) flaky default_max_retries
              default_base_delay 0)
       = match fst (call flaky k 0) with
         | inl e => Raised e
         | inr v => Returned v
         end
    /\ world (snd (retry_with_backoff (fun e => e) flaky default_max_retries
                     default_base_delay 0))
       = snd (call flaky k 0)
    /\ calls (snd (retry_with_backoff (fun e => e) flaky default_max_retries
                     default_base_delay 0))
       = S k
    /\ slept (snd (retry_with_backoff (fun e => e) flaky default_max_retries
                     default_base_delay 0))
       = map (fun attempt => (default_base_delay * inject_Z (2 ^ attempt))%Q)
           (range (Z.of_nat k)).
Proof.
  apply (retry_with_backoff_run (fun e => e) flaky default_max_retries
           default_base_delay 0).
  unfold default_max_retries. lia.
Defined.

Lemma retry_with_backoff_total_delay_witness :
  (total_delay
     (slept (snd (retry_with_backoff (fun e => e) flaky default_max_retries
                    default_base_delay 0%nat)))
   <= 7)%Q.
Proof.
  apply (retry_with_backoff_total_delay (fun e => e) flaky
           default_max_retries default_base_delay 0).
  - unfold default_max_retries. lia.
  - unfold default_base_delay. apply Qle_bool_iff. reflexivity.
Defined.

End RetryRunsExamples.

(** ** The parser: what it never returns *)

Section ParserOutputs.
Import PyStr StoryEngine.

Lemma lstrip_suffix (s : string) : exists a, s = a ++ lstrip s.
Proof.
  induction s as [|c s [a IH]]; [now exists EmptyString|].
  cbn [lstrip]. destruct (isspace c).
  - exists (String c a). cbn [append]. now rewrite <- IH.
  - now exists EmptyString.
Qed.

Lemma rstrip_prefix (s : string) : exists b, s = rstrip s ++ b.
Proof.
  induction s as [|c s [b IH]]; [now exists EmptyString|].
  cbn [rstrip]. destruct (isspace c && is_empty (rstrip s)).
  - now exists (String c s).
  - exists b. cbn [append]. now rewrite <- IH.
Qed.

(** A trimmed text is a piece of the text. *)
Lemma strip_inside (s : string) : exists a b, s = a ++ strip s ++ b.
Proof.
  unfold strip. destruct (lstrip_suffix s) as [a Ha].
  destruct (rstrip_prefix (lstrip s)) as [b Hb].
  exists a, b. now rewrite <- Hb.
Qed.

Lemma contains_strip (sub s : string) :
  contains sub (strip s) = true -> contains sub s = true.
Proof.
  rewrite !contains_iff. intros [pre [post H]].
  destruct (strip_inside s) as [a [b Hs]].
  exists (a ++ pre), (post ++ b). rewrite Hs, H.
  now rewrite !append_assoc.
Qed.

Lemma first_occurrence_before (sep pre post s : string) :
  sep <> EmptyString ->
  first_occurrence sep pre post s -> contains sep pre = false.
Proof.
  intros Hsep [Heq Hmin]. apply not_contains_iff. intros [a [b Hpre]].
  specialize (Hmin a (b ++ sep ++ post)).
  rewrite Heq, Hpre, !append_assoc in Hmin. specialize (Hmin eq_refl).
  rewrite !length_append in Hmin.
  destruct sep; [congruence | cbn [String.length] in Hmin; lia].
Qed.

(** X4. The narrative returned never contains the marker. *)
Theorem parse_response_narrative_without_marker (response : string) :
  contains DECISION_POINT (fst (parse_response response)) = false.
Proof.
  destruct (contains DECISION_POINT response) eqn:Hc.
  - destruct (contains_first_occurrence _ _ Hc) as [pre [post Hf]].
    destruct (parse_response_present _ _ _ Hf) as [seg [_ ->]].
    cbn [fst].
    pose proof (first_occurrence_before _ _ _ _ DECISION_POINT_not_empty Hf)
      as Hpre.
    destruct (contains DECISION_POINT (strip pre)) eqn:Hs; [|reflexivity].
    apply contains_strip in Hs. congruence.
  - rewrite parse_response_absent by exact Hc. cbn [fst].
    destruct (contains DECISION_POINT (strip response)) eqn:Hs; [|reflexivity].
    apply contains_strip in Hs. congruence.
Qed.

(** *** Options are never empty *)

Lemma rstrip_idempotent (s : string) : rstrip (rstrip s) = rstrip s.
Proof.
  induction s as [|c s IH]; [reflexivity|].
  cbn [rstrip].
  destruct (isspace c && is_empty (rstrip s)) eqn:Hc; [reflexivity|].
  cbn [rstrip]. now rewrite IH, Hc.
Qed.

Lemma lstrip_idempotent (s : string) : lstrip (lstrip s) = lstrip s.
Proof.
  induction s as [|c s IH]; [reflexivity|].
  cbn [lstrip]. destruct (isspace c) eqn:Hc; [exact IH|].
  cbn [lstrip]. now rewrite Hc.
Qed.

Lemma lstrip_rstrip (t : string) :
  lstrip t = t -> lstrip (rstrip t) = rstrip t.
Proof.
  destruct t as [|c t]; [reflexivity|].
  intros H. apply lstrip_fixed_head in H.
  cbn [rstrip]. rewrite H. cbn [andb lstrip]. now rewrite H.
Qed.

Lemma strip_idempotent (s : string) : strip (strip s) = strip s.
Proof.
  unfold strip.
  rewrite (lstrip_rstrip (lstrip s) (lstrip_idempotent s)).
  apply rstrip_idempotent.
Qed.

Lemma blank_rstrip (s : string) :
  lstrip s = EmptyString -> rstrip s = EmptyString.
Proof.
  induction s as [|c s IH]; [reflexivity|].
  intros H. apply lstrip_blank_head in H as [Hc Hs].
  cbn [rstrip]. now rewrite (IH Hs), Hc.
Qed.

Lemma space_not_line_feed (c : ascii) :
  isspace c = false -> Ascii.eqb c LF = false.
Proof.
  intros H. destruct (Ascii.eqb_spec c LF) as [->|]; [|reflexivity].
  discriminate.
Qed.

Lemma ws_then_group_none (s : string) :
  ws_then_group s = None -> lstrip s = EmptyString.
Proof.
  induction s as [|c s IH]; [reflexivity|].
  cbn [ws_then_group lstrip]. destruct (isspace c) eqn:Hc.
  - destruct (ws_then_group s); [discriminate|]. intros _. now apply IH.
  - unfold dot_plus. cbn [dot_star].
    rewrite (space_not_line_feed c Hc). discriminate.
Qed.

(** What is captured starts with a character other than a blank, unless
    all the text is blank. *)
Lemma ws_then_group_head (s g : string) :
  ws_then_group s = Some g ->
  (exists c g', g = String c g' /\ isspace c = false)
  \/ lstrip s = EmptyString.
Proof.
  revert g; induction s as [|c s IH]; intros g; [discriminate|].
  cbn [ws_then_group lstrip]. destruct (isspace c) eqn:Hc.
  - destruct (ws_then_group s) as [g'|] eqn:Hg.
    + intros H. injection H as ->. exact (IH g eq_refl).
    + intros _. right. now apply ws_then_group_none.
  - unfold dot_plus. cbn [dot_star].
    rewrite (space_not_line_feed c Hc).
    intros H. injection H as <-. left. now exists c, (dot_star s).
Qed.

Lemma rstrip_fixed_tail (c : ascii) (t : string) :
  rstrip (String c t) = String c t -> rstrip t = t.
Proof.
  cbn [rstrip]. destruct (isspace c && is_empty (rstrip t));
    [discriminate | congruence].
Qed.

Lemma match_option_line_head (line g : string) :
  rstrip line = line ->
  match_option_line line = Some g ->
  exists c g', g = String c g' /\ isspace c = false.
Proof.
  intros Htrim.
  destruct line as [|d [|p rest]]; try discriminate.
  cbn [match_option_line].
  destruct (is_digit_1_4 d && is_dot_or_paren p); [|discriminate].
  intros H. destruct (ws_then_group_head rest g H) as [Hg|Hblank];
    [exact Hg|exfalso].
  destruct rest as [|r rest]; [discriminate|].
  apply blank_rstrip in Hblank.
  apply rstrip_fixed_tail, rstrip_fixed_tail in Htrim.
  congruence.
Qed.

Lemma option_of_line_presentable (line o : string) :
  option_of_line line = Some o -> presentable o.
Proof.
  unfold option_of_line.
  destruct (match_option_line (strip line)) as [g|] eqn:Hm; [|discriminate].
  cbn [option_map]. intros H. injection H as <-.
  split; [|apply strip_idempotent].
  destruct (match_option_line_head (strip line) g) as [c [g' [-> Hc]]].
  - unfold strip. apply rstrip_idempotent.
  - exact Hm.
  - unfold strip. cbn [lstrip]. rewrite Hc. cbn [rstrip]. rewrite Hc.
    discriminate.
Qed.

Lemma captured_presentable (lines : list string) :
  Forall presentable (captured lines).
Proof.
  induction lines as [|line rest IH]; cbn [captured]; [constructor|].
  destruct (option_of_line line) as [o|] eqn:Ho; [|exact IH].
  constructor; [now apply (option_of_line_presentable line) | exact IH].
Qed.

Lemma Forall_first (P : string -> Prop) (n : nat) (l : list string) :
  Forall P l -> Forall P (firstn n l).
Proof.
  intros H. rewrite <- (firstn_skipn n l) in H.
  now apply Forall_app in H as [H _].
Qed.

(** X5. Every option returned is a text that is not empty and carries no
    blank at its start or its end. *)
Theorem parse_response_options_presentable (response : string) :
  Forall (fun o => o <> EmptyString /\ strip o = o)
         (snd (parse_response response)).
Proof.
  change (Forall presentable (snd (parse_response response))).
  destruct (contains DECISION_POINT response) eqn:Hc.
  - destruct (contains_first_occurrence _ _ Hc) as [pre [post Hf]].
    destruct (parse_response_present _ _ _ Hf) as [seg [_ ->]].
    cbn [snd]. apply Forall_first, Forall_app. split.
    + apply captured_presentable.
    + repeat constructor; (discriminate || reflexivity).
  - rewrite parse_response_absent by exact Hc. cbn [snd].
    repeat constructor; (discriminate || reflexivity).
Qed.

End ParserOutputs.

(** ** The sample characters *)

Section SampleFacts.
Import PyStr CharacterSamples.

(** X6. For every world name, [create_sample] returns a character that
    [validate] accepts without issue; its world is the one asked for when
    that is [cultivation], [martial_arts] or [fantasy], and [fantasy]
    otherwise. *)
Theorem create_sample_valid (world : string) :
  Character.validate (create_sample world) = (true, [])
  /\ Character.world (create_sample world)
     = if String.eqb world "cultivation" || String.eqb world "martial_arts"
       then world else "fantasy".
Proof.
  unfold create_sample.
  destruct (String.eqb_spec world "cultivation") as [->|_];
    [split; vm_compute; reflexivity|].
  destruct (String.eqb_spec world "martial_arts") as [->|_];
    [split; vm_compute; reflexivity|].
  destruct (String.eqb world "fantasy"); split; vm_compute; reflexivity.
Qed.

End SampleFacts.

(** ** The story as one text *)

Section FullStoryFacts.
Import PyStr PyText HistoryText.
Context `{DT : DateTime}.

Lemma chapter_parts_acc chunks decisions : forall i acc,
  chapter_parts i chunks decisions acc
  = (acc ++ chapter_parts i chunks decisions [])%list.
Proof.
  induction chunks as [|chunk rest IH]; intros i acc; cbn [chapter_parts].
  - now rewrite app_nil_r.
  - rewrite IH. symmetry. rewrite IH. symmetry.
    destruct (i <? List.length decisions);
      [destruct (nth_error decisions i)|];
      cbn [app]; rewrite <- ?app_assoc; reflexivity.
Qed.

Lemma nth_error_first {A} (l : list A) (m i : nat) :
  i < m -> nth_error (firstn m l) i = nth_error l i.
Proof.
  revert m i; induction l as [|a l IH]; intros m i Hi.
  - now rewrite firstn_nil.
  - destruct m as [|m]; [lia|]. destruct i as [|i]; [reflexivity|].
    cbn. apply IH. lia.
Qed.

Lemma chapter_parts_first chunks decisions : forall i acc,
  chapter_parts i chunks
    (firstn (i + List.length chunks) decisions) acc
  = chapter_parts i chunks decisions acc.
Proof.
  induction chunks as [|chunk rest IH]; intros i acc; [reflexivity|].
  cbn [chapter_parts List.length].
  rewrite nth_error_first by lia.
  rewrite length_firstn.
  replace (i <? Nat.min (i + S (List.length rest)) (List.length decisions))
    with (i <? List.length decisions).
  - replace (i + S (List.length rest)) with (S i + List.length rest) by lia.
    apply IH.
  - destruct (Nat.ltb_spec i (List.length decisions));
      symmetry; [apply Nat.ltb_lt | apply Nat.ltb_ge]; lia.
Qed.

(** X7. The decisions recorded beyond the number of chunks leave no trace
    in the full story text: it is the text of the history cut down to as
    many decisions as it has chunks. *)
Theorem get_full_story_text_ignores_late_decisions (h : StoryHistory.t) :
  get_full_story_text h
  = get_full_story_text
      (StoryHistory.set_decisions h
         (firstn (List.length (StoryHistory.story_chunks h))
                 (StoryHistory.decisions h))).
Proof.
  unfold get_full_story_text. destruct h as [sid cn wt chunks ds c u].
  cbn [StoryHistory.set_decisions StoryHistory.story_chunks
       StoryHistory.decisions].
  f_equal. symmetry. exact (chapter_parts_first chunks ds 0 []).
Qed.

Lemma join_holds (sep p : string) (parts : list string) :
  In p parts -> exists pre post, join sep parts = pre ++ p ++ post.
Proof.
  induction parts as [|q parts IH]; [intros []|].
  intros [->|Hin].
  - destruct parts as [|r parts].
    + exists EmptyString, EmptyString. cbn. now rewrite append_nil_r.
    + exists EmptyString, (sep ++ join sep (r :: parts)). reflexivity.
  - destruct (IH Hin) as [pre [post Heq]].
    destruct parts as [|r parts]; [destruct Hin|].
    exists (q ++ sep ++ pre), post.
    change (join sep (q :: r :: parts))
      with (q ++ sep ++ join sep (r :: parts)).
    rewrite Heq, !append_assoc. reflexivity.
Qed.

Lemma chapter_parts_texts chunks decisions : forall i chunk,
  In chunk chunks ->
  In (StoryChunk.text chunk) (chapter_parts i chunks decisions []).
Proof.
  induction chunks as [|c rest IH]; intros i chunk; [intros []|].
  cbn [chapter_parts]. rewrite chapter_parts_acc. intros [->|Hin].
  - apply in_or_app. left.
    destruct (i <? List.length decisions);
      [destruct (nth_error decisions i)|]; cbn; auto.
  - apply in_or_app. right. now apply IH.
Qed.

Lemma chapter_parts_decisions chunks decisions : forall i j decision,
  i <= j < i + List.length chunks ->
  nth_error decisions j = Some decision ->
  In (nl ++ "[Decision Made: " ++ DecisionEntry.decision_text decision
      ++ "]" ++ nl)
     (chapter_parts i chunks decisions []).
Proof.
  induction chunks as [|c rest IH]; intros i j decision Hj Hd;
    [cbn in Hj; lia|].
  cbn [chapter_parts List.length] in *. rewrite chapter_parts_acc.
  apply in_or_app.
  destruct (Nat.eq_dec j i) as [->|Hne].
  - left. rewrite Hd.
    assert (Hlt : i < List.length decisions)
      by (apply nth_error_Some; congruence).
    apply Nat.ltb_lt in Hlt. rewrite Hlt. cbn. auto.
  - right. apply (IH (S i) j); [lia | exact Hd].
Qed.

(** X8. The full story text holds the text of every chunk, and the text of
    the j-th decision whenever there is a j-th chunk. *)
Theorem get_full_story_text_holds (h : StoryHistory.t) :
  (forall chunk,
      In chunk (StoryHistory.story_chunks h) ->
      exists pre post,
        get_full_story_text h = pre ++ StoryChunk.text chunk ++ post)
  /\ (forall j decision,
         j < List.length (StoryHistory.story_chunks h) ->
         nth_error (StoryHistory.decisions h) j = Some decision ->
         exists pre post,
           get_full_story_text h
           = pre ++ DecisionEntry.decision_text decision ++ post).
Proof.
  unfold get_full_story_text. split.
  - intros chunk Hin. apply join_holds. now apply chapter_parts_texts.
  - intros j decision Hj Hd.
    destruct (join_holds (nl ++ nl) _ _
                (chapter_parts_decisions (StoryHistory.story_chunks h)
                   (StoryHistory.decisions h) 0 j decision
                   (conj (Nat.le_0_l j) Hj) Hd))
      as [pre [post Heq]].
    exists (pre ++ nl ++ "[Decision Made: "), ("]" ++ nl ++ post).
    rewrite Heq, !append_assoc. reflexivity.
Qed.

End FullStoryFacts.

Section FullStoryExamples.
Import PyStr Sample HistoryText.

Lemma get_full_story_text_holds_witness :
  (exists pre post,
      get_full_story_text forest_history
      = pre ++ "The path to the left ends at a river." ++ post)
  /\ (exists pre post,
         get_full_story_text forest_history = pre ++ "Go left" ++ post).
Proof.
  split.
  - apply (proj1 (get_full_story_text_holds forest_history)
             (@StoryChunk.mk SampleDateTime
                "The path to the left ends at a river."
                (at_2024 3) "chunk_20240115_103003" four_options)).
    cbn. auto.
  - apply (proj2 (get_full_story_text_holds forest_history) 0
             (@DecisionEntry.mk SampleDateTime "Go left" four_options 0
                (at_2024 2))).
    + cbn. lia.
    + reflexivity.
Defined.

End FullStoryExamples.

(** ** The history on file and as a dictionary *)

Section StorageFacts.
Import PyStr PyText HistoryText.
Context `{DT : DateTime}.

Lemma lookup_drop_other (keys : list string) (key : string)
    (fields : list (string * json)) :
  existsb (String.eqb key) keys = false ->
  Dict.lookup key
    (filter (fun kv => negb (existsb (String.eqb (fst kv)) keys)) fields)
  = Dict.lookup key fields.
Proof.
  intros Hkey. induction fields as [|[k v] fields IH]; [reflexivity|].
  cbn [filter fst Dict.lookup].
  destruct (String.eqb_spec k key) as [->|Hne].
  - rewrite Hkey. cbn [negb Dict.lookup]. now rewrite String.eqb_refl.
  - destruct (existsb (String.eqb k) keys); cbn [negb Dict.lookup].
    + exact IH.
    + destruct (String.eqb_spec k key); [congruence | exact IH].
Qed.

Lemma lookup_dropped (keys : list string) (key : string)
    (fields : list (string * json)) :
  existsb (String.eqb key) keys = true ->
  Dict.lookup key
    (filter (fun kv => negb (existsb (String.eqb (fst kv)) keys)) fields)
  = None.
Proof.
  intros Hkey. induction fields as [|[k v] fields IH]; [reflexivity|].
  cbn [filter fst].
  destruct (existsb (String.eqb k) keys) eqn:Hk; cbn [negb]; [exact IH|].
  cbn [Dict.lookup]. destruct (String.eqb_spec k key) as [->|Hne];
    [congruence | exact IH].
Qed.

(** X9. A history dictionary from which the keys [story_chunks] and
    [decisions] are missing is read as a history without chunks and without
    decisions (these two keys are read with [get] and a default); the other
    fields are those written, when [fromisoformat] reads back the two
    dates. *)
Theorem from_dict_defaults (h : StoryHistory.t) :
  fromisoformat (isoformat (StoryHistory.created_at h))
    = Ok (StoryHistory.created_at h) ->
  fromisoformat (isoformat (StoryHistory.last_updated h))
    = Ok (StoryHistory.last_updated h) ->
  StoryHistory.from_dict
    (drop_keys ["story_chunks"; "decisions"] (StoryHistory.to_dict h))
  = Ok (StoryHistory.mk (StoryHistory.session_id h)
          (StoryHistory.character_name h) (StoryHistory.world_type h)
          [] [] (StoryHistory.created_at h) (StoryHistory.last_updated h)).
Proof.
  intros Hc Hu. destruct h as [sid cn wt chunks ds created updated].
  cbn in Hc, Hu |- *. rewrite Hc. cbn. rewrite Hu. reflexivity.
Qed.

(** X10. A history dictionary from which one of the keys [session_id],
    [character_name], [world_type], [created_at], [last_updated] is
    missing is rejected with [KeyError] for that key, when the dates of its
    chunks and decisions can be read. *)
Theorem from_dict_missing_key (h : StoryHistory.t) (key : string) :
  In key required_keys ->
  Forall (fun t => fromisoformat (isoformat t) = Ok t) (timestamps h) ->
  StoryHistory.from_dict (drop_keys [key] (StoryHistory.to_dict h))
  = Raise (KeyError key).
Proof.
  intros Hkey Ht.
  destruct h as [sid cn wt chunks ds created updated].
  unfold timestamps in Ht.
  cbn [StoryHistory.created_at StoryHistory.last_updated
       StoryHistory.story_chunks StoryHistory.decisions] in Ht.
  inversion Ht as [|? ? Hc H1]; subst.
  inversion H1 as [|? ? Hu H2]; subst.
  apply Forall_app in H2 as [Hchunks Hdecs].
  rewrite Forall_map in Hchunks, Hdecs.
  pose proof (traverse_roundtrip StoryChunk.to_dict StoryChunk.from_dict _
                chunks chunk_from_dict_to_dict Hchunks) as Echunks.
  pose proof (traverse_roundtrip DecisionEntry.to_dict
                DecisionEntry.from_dict _ ds decision_from_dict_to_dict
                Hdecs) as Edecs.
  unfold required_keys in Hkey. cbn [In] in Hkey.
  destruct Hkey as [<-|[<-|[<-|[<-|[<-|[]]]]]]; cbn;
    rewrite ?Echunks; cbn; rewrite ?Edecs; cbn; rewrite ?Hc; reflexivity.
Qed.

Context `{JS : Json}.

(** X11. Saving a history to a path that can be written returns [True],
    leaves every other path as it was, and loading from that path then
    returns the history saved, provided the [json] module and
    [fromisoformat] read back what was written for it; saving to a path
    that cannot be opened returns [False] and changes nothing. *)
Theorem save_then_load (h : StoryHistory.t) (filepath : string)
    (fs : file_system) :
  (fs filepath = Blocked -> save_to_file h filepath fs = (false, fs))
  /\ (fs filepath <> Blocked ->
      loads (dumps (StoryHistory.to_dict h)) = Ok (StoryHistory.to_dict h) ->
      Forall (fun t => fromisoformat (isoformat t) = Ok t) (timestamps h) ->
      fst (save_to_file h filepath fs) = true
      /\ load_from_file filepath (snd (save_to_file h filepath fs)) = Some h
      /\ forall other, other <> filepath ->
                       snd (save_to_file h filepath fs) other = fs other).
Proof.
  unfold save_to_file, load_from_file, write_file, read_file. split.
  - intros ->. reflexivity.
  - intros Hfile Hj Ht.
    assert (Hload : StoryHistory.from_json (StoryHistory.to_json h) = Ok h)
      by now apply from_json_to_json.
    destruct (fs filepath); try congruence; cbn [fst snd];
      rewrite String.eqb_refl, Hload; (split; [reflexivity|]);
      (split; [reflexivity|]); intros other Hne;
      now destruct (String.eqb_spec other filepath).
Qed.

End StorageFacts.

Section StorageExamples.
Import PyStr PyText Sample HistoryText.

Lemma from_dict_defaults_witness :
  StoryHistory.from_dict
    (drop_keys ["story_chunks"; "decisions"]
       (StoryHistory.to_dict forest_history))
  = Ok (StoryHistory.mk "test_session" "Test Hero" "fantasy" [] []
          (at_2024 0) (at_2024 4)).
Proof.
  apply (from_dict_defaults forest_history); reflexivity.
Defined.

Lemma from_dict_missing_key_witness :
  StoryHistory.from_dict
    (drop_keys ["world_type"] (StoryHistory.to_dict forest_history))
  = Raise (KeyError "world_type").
Proof.
  apply (from_dict_missing_key forest_history "world_type").
  - cbn. auto.
  - repeat constructor.
Defined.

Lemma save_then_load_witness :
  save_to_file forest_history "locked.json" one_locked_file
    = (false, one_locked_file)
  /\ fst (save_to_file forest_history "story.json" one_locked_file) = true
  /\ load_from_file "story.json"
       (snd (save_to_file forest_history "story.json" one_locked_file))
     = Some forest_history.
Proof.
  split.
  - apply (proj1 (save_then_load forest_history "locked.json"
                    one_locked_file)).
    reflexivity.
  - destruct (proj2 (save_then_load forest_history "story.json"
                       one_locked_file)) as [Hsaved [Hloaded _]].
    + discriminate.
    + vm_compute. reflexivity.
    + repeat constructor.
    + split; [exact Hsaved | exact Hloaded].
Defined.

End StorageExamples.

(** ** Pages *)

Section PageFacts.
Import PyText Pages.

Lemma in_range_from (a b i : Z) :
  In i (range_from a b) <-> (a <= i < b)%Z.
Proof.
  unfold range_from. rewrite in_map_iff. split.
  - intros [n [<- Hn]]. apply in_seq in Hn. lia.
  - intros Hi. exists (Z.to_nat (i - a)). split; [lia|].
    apply in_seq. lia.
Qed.

Lemma length_range_from (a b : Z) :
  List.length (range_from a b) = Z.to_nat (b - a).
Proof. unfold range_from. now rewrite length_map, length_seq. Qed.

(** The page of chapter [i] is [i // per + 1]. *)
Lemma page_of (per i p : Z) :
  (1 <= per)%Z ->
  ((p - 1) * per <= i < (p - 1) * per + per)%Z <-> (i / per + 1 = p)%Z.
Proof.
  intros Hper. split.
  - intros Hi. assert (i / per = p - 1)%Z; [|lia].
    symmetry. apply (Z.div_unique i per (p - 1) (i - (p - 1) * per)); lia.
  - intros <-. pose proof (Z.mul_div_le i per ltac:(lia)).
    pose proof (Z.mul_succ_div_gt i per ltac:(lia)). lia.
Qed.

Lemma total_pages_bounds (total per : Z) :
  (1 <= total)%Z -> (1 <= per)%Z ->
  (1 <= total_pages total per)%Z
  /\ ((total_pages total per - 1) * per <= total - 1
      < (total_pages total per - 1) * per + per)%Z.
Proof.
  intros Ht Hp. unfold total_pages.
  pose proof (Z.div_pos (total - 1) per ltac:(lia) ltac:(lia)).
  split; [lia|]. apply page_of; lia.
Qed.

(** X12. With at least one chapter and at least one chapter per page,
    whatever page number the session holds, [display_paginated_story]
    shows at least one and at most [chapters_per_page] chapters, and every
    index it uses is one of a chapter. *)
Theorem displayed_chapters_in_bounds (total per current : Z) :
  (1 <= total)%Z -> (1 <= per)%Z ->
  displayed_chapters total per current <> []
  /\ (Z.of_nat (List.length (displayed_chapters total per current)) <= per)%Z
  /\ Forall (fun i => (0 <= i < total)%Z)
            (displayed_chapters total per current).
Proof.
  intros Ht Hp. unfold displayed_chapters.
  destruct (total_pages_bounds total per Ht Hp) as [Hpages Hlast].
  set (pages := total_pages total per) in *.
  assert (Hvalid : (1 <= valid_page current pages <= pages)%Z).
  { unfold valid_page. destruct (Z.ltb_spec pages current);
      [destruct (Z.ltb_spec pages 1) | destruct (Z.ltb_spec current 1)];
      lia. }
  set (page := valid_page current pages) in *.
  assert (Hstart : ((page - 1) * per <= (pages - 1) * per)%Z) by nia.
  assert (Hnonneg : (0 <= (page - 1) * per)%Z) by nia.
  repeat split.
  - intros Hnil. apply (f_equal (@List.length Z)) in Hnil.
    rewrite length_range_from in Hnil. cbn in Hnil. lia.
  - rewrite length_range_from. lia.
  - apply Forall_forall. intros i Hi. apply in_range_from in Hi. lia.
Qed.

(** X13. With at least one chapter and at least one chapter per page,
    chapter [i] is shown on page [p] of the pages 1 to [total_pages]
    exactly when [p = i // chapters_per_page + 1]: every chapter is on one
    page and one only. *)
Theorem displayed_chapters_page (total per p i : Z) :
  (1 <= total)%Z -> (1 <= per)%Z ->
  (1 <= p <= total_pages total per)%Z ->
  In i (displayed_chapters total per p)
  <-> (0 <= i < total)%Z /\ (i / per + 1 = p)%Z.
Proof.
  intros Ht Hp Hpage. unfold displayed_chapters.
  destruct (total_pages_bounds total per Ht Hp) as [Hpages Hlast].
  set (pages := total_pages total per) in *.
  assert (Hvalid : valid_page p pages = p).
  { unfold valid_page. destruct (Z.ltb_spec pages p); [lia|].
    destruct (Z.ltb_spec p 1); lia. }
  rewrite Hvalid, in_range_from, <- (page_of per i p Hp).
  assert (Hnonneg : (0 <= (p - 1) * per)%Z) by nia.
  split; [lia|].
  intros [Hi Hrange]. lia.
Qed.

(** X14. The page [make_decision] jumps to after a new chapter shows that
    chapter, which is the last one on it. *)
Theorem latest_page_shows_newest (total per : Z) :
  (1 <= total)%Z -> (1 <= per)%Z ->
  exists earlier,
    displayed_chapters total per (latest_page total per)
    = (earlier ++ [(total - 1)%Z])%list.
Proof.
  intros Ht Hp. unfold displayed_chapters, latest_page.
  destruct (total_pages_bounds total per Ht Hp) as [Hpages Hlast].
  set (pages := total_pages total per) in *.
  assert (Hvalid : valid_page pages pages = pages).
  { unfold valid_page. rewrite Z.ltb_irrefl.
    destruct (Z.ltb_spec pages 1); lia. }
  rewrite Hvalid.
  replace (Z.min ((pages - 1) * per + per) total) with total by lia.
  unfold range_from.
  replace (Z.to_nat (total - (pages - 1) * per))
    with (S (Z.to_nat (total - 1 - (pages - 1) * per))) by lia.
  rewrite seq_S, map_app. cbn [map Nat.add].
  eexists. f_equal. f_equal. lia.
Qed.

End PageFacts.

Section PageExamples.
Import Pages.

Lemma displayed_chapters_in_bounds_witness :
  displayed_chapters 7 3 99 <> []
  /\ (Z.of_nat (List.length (displayed_chapters 7 3 99)) <= 3)%Z
  /\ Forall (fun i => (0 <= i < 7)%Z) (displayed_chapters 7 3 99).
Proof. apply (displayed_chapters_in_bounds 7 3 99); lia. Defined.

Lemma displayed_chapters_page_witness :
  In 4%Z (displayed_chapters 7 3 2) <-> (0 <= 4 < 7)%Z /\ (4 / 3 + 1 = 2)%Z.
Proof.
  apply (displayed_chapters_page 7 3 2 4); try lia.
  vm_compute. split; discriminate.
Defined.

Lemma latest_page_shows_newest_witness :
  exists earlier,
    displayed_chapters 7 3 (latest_page 7 3) = (earlier ++ [(7 - 1)%Z])%list.
Proof. apply (latest_page_shows_newest 7 3); lia. Defined.

End PageExamples.

(** ** The options on offer *)

Section OptionFacts.
Import App AppStorage.
Context `{DT : DateTime}.

Lemma add_story_chunk_newest h text options clk chunk h' clk' :
  StoryHistory.add_story_chunk h text (Some options) clk
    = ((chunk, h'), clk') ->
  newest_options h' = Some options.
Proof.
  unfold StoryHistory.add_story_chunk, StoryChunk.create, now.
  cbn. intros H. injection H as _ <- _. unfold newest_options. cbn.
  destruct (StoryHistory.story_chunks h) as [|c0 cs]; [reflexivity|].
  cbn [app]. f_equal.
  change (c0 :: (cs ++ [?c])%list) with ((c0 :: cs) ++ [c])%list.
  now rewrite last_last.
Qed.

Lemma add_decision_newest h text options idx clk d h' clk' :
  StoryHistory.add_decision h text options idx clk = ((d, h'), clk') ->
  newest_options h' = newest_options h.
Proof.
  unfold StoryHistory.add_decision, DecisionEntry.create, now.
  cbn. intros H. injection H as _ <- _. reflexivity.
Qed.

Lemma tracked_start_new_story character engine s :
  tracked (start_new_story character engine s).
Proof.
  unfold start_new_story.
  destruct (now (clock s)) as [t_id clk0].
  destruct (StoryHistory.create _ _ _ clk0) as [h0 clk1] eqn:E0.
  apply create_counts in E0 as [Ec0 _].
  assert (Hnone : newest_options h0 = None)
    by (unfold newest_options; now rewrite Ec0).
  destruct engine as [| text options | msg].
  - intros h opts H Hn. cbn in H. injection H as <-. congruence.
  - destruct (StoryHistory.add_story_chunk h0 text (Some options) clk1)
      as [[chunk h1] clk2] eqn:E1.
    apply add_story_chunk_newest in E1.
    intros h opts H Hn. cbn in H |- *. injection H as <-.
    split; [congruence | reflexivity].
  - intros h opts H Hn. cbn in H. injection H as <-. congruence.
Qed.

Lemma tracked_make_decision choice_index engine s :
  tracked s -> tracked (make_decision choice_index engine s).
Proof.
  intros Hs. unfold make_decision.
  destruct (current_options s) as [|o os] eqn:Hopts; [exact Hs|].
  destruct (Z.of_nat (List.length (o :: os)) <=? choice_index)%Z;
    [exact Hs|].
  destruct (list_getitem (o :: os) choice_index) as [chosen|]; [|exact Hs].
  destruct (story_history s) as [history|] eqn:Hh; [|exact Hs].
  destruct (StoryHistory.add_decision history chosen (o :: os) choice_index
              (clock s)) as [[d h1] clk1] eqn:E1.
  apply add_decision_newest in E1.
  assert (Hfail : tracked (mkSession (Some h1) (o :: os) (story_started s)
                             (waiting_for_choice s) clk1)).
  { intros h opts H Hn. cbn in H |- *. injection H as <-.
    rewrite E1 in Hn. destruct (Hs history opts Hh Hn) as [Ho Hw].
    split; [congruence | exact Hw]. }
  destruct engine as [| text options | msg]; [exact Hfail | | exact Hfail].
  destruct (StoryHistory.add_story_chunk h1 text (Some options) clk1)
    as [[chunk h2] clk2] eqn:E2.
  apply add_story_chunk_newest in E2.
  intros h opts H Hn. cbn in H |- *. injection H as <-.
  split; [congruence | reflexivity].
Qed.

Lemma tracked_run actions : forall s, tracked s -> tracked (run s actions).
Proof.
  induction actions as [|a actions IH]; intros s Hs; [exact Hs|].
  cbn. apply IH.
  destruct a as [character engine | choice_index engine |]; cbn.
  - apply tracked_start_new_story.
  - destruct (decision_offered s); [now apply tracked_make_decision|exact Hs].
  - intros h opts H. discriminate.
Qed.

Lemma tracked_initial clk : tracked (initialize_session_state clk).
Proof. intros h opts H. discriminate. Qed.

(** X15. After every sequence of start, choose and restart operations on a
    fresh session, a history that has a chunk comes with the options of
    its newest chunk on offer, and a choice is awaited. *)
Theorem options_are_newest_chunks clk actions h options :
  story_history (run (initialize_session_state clk) actions) = Some h ->
  newest_options h = Some options ->
  current_options (run (initialize_session_state clk) actions) = options
  /\ waiting_for_choice (run (initialize_session_state clk) actions) = true.
Proof.
  intros H Hn.
  exact (tracked_run actions _ (tracked_initial clk) h options H Hn).
Qed.

Context `{JS : Json}.


End OptionFacts.

Section OptionExamples.
Import App AppStorage Sample.

Lemma options_are_newest_chunks_witness :
  current_options (run (initialize_session_state sample_clock) one_failure)
    = four_options
  /\ waiting_for_choice
       (run (initialize_session_state sample_clock) one_failure) = true.
Proof.
  eapply (options_are_newest_chunks sample_clock one_failure).
  - reflexivity.
  - reflexivity.
Defined.


End OptionExamples.

(** ** The story engine: generating *)

Section ParserLength.
Import PyStr StoryEngine.

Lemma parse_response_length (response : string) :
  List.length (snd (parse_response response)) = 4.
Proof.
  destruct (contains DECISION_POINT response) eqn:Hc.
  - destruct (contains_first_occurrence _ _ Hc) as [pre [post Hf]].
    destruct (parse_response_present response pre post Hf) as [seg [_ ->]].
    cbn [snd]. rewrite length_firstn, length_app.
    change (List.length padding_options) with 4. lia.
  - now rewrite parse_response_absent.
Qed.

End ParserLength.

Section RetryOnce.
Import Config.
Context {W V E : Type}.
Variable str : E -> string.
Variable func : W -> (E + V) * W.

(** A first call that returns, or raises an error that is no rate limit,
    ends the run. *)
Lemma retry_once (max_retries : Z) (base_delay : Q) (w : W) :
  (0 <= max_retries)%Z ->
  rate_limited str (fst (func w)) = false ->
  retry_with_backoff str func max_retries base_delay w
  = (finish (fst (func w)), mkEffects (snd (func w)) [] 1).
Proof.
  intros Hmax Hrl.
  apply (retry_run str func max_retries base_delay w 0);
    [lia | intros i Hi; lia | now left].
Qed.

End RetryOnce.

Section EngineFacts.
Import PyStr PyText StoryEngine Config Engine.
Context {W : Type} `{DT : DateTime}.
Variable random_draw : W -> nat * W.
Variable gemini_generate_content : string -> W -> (string + string) * W.
Variable requests_post :
  string -> string -> string -> W -> (string + http_response) * W.

Lemma start_story_retried (c : client) prompts_dir character w :
  start_story random_draw gemini_generate_content requests_post
      (Some c) prompts_dir character w
  = (parsed_or_error "Error generating story: "
       (fst (generate_with_retry
           random_draw gemini_generate_content requests_post
           c (start_prompt prompts_dir character) w)),
     snd (generate_with_retry random_draw gemini_generate_content requests_post
         c (start_prompt prompts_dir character) w)).
Proof.
  unfold start_story, start_prompt.
  now destruct (generate_with_retry _ _ _ _ _ _).
Qed.

Lemma continue_story_retried (c : client) prompts_dir history chosen w :
  continue_story random_draw gemini_generate_content requests_post
      (Some c) prompts_dir history chosen w
  = (parsed_or_error "Error continuing story: "
       (fst (generate_with_retry
           random_draw gemini_generate_content requests_post
           c (continue_prompt prompts_dir history chosen) w)),
     snd (generate_with_retry random_draw gemini_generate_content requests_post
         c (continue_prompt prompts_dir history chosen) w)).
Proof.
  unfold continue_story, continue_prompt.
  now destruct (generate_with_retry _ _ _ _ _ _).
Qed.

Lemma generate_not_rate_limited (c : client) (prompt : string) (w : W) :
  c <> GeminiModel ->
  rate_limited (fun e => e) (fst (generate_func
      random_draw gemini_generate_content requests_post
      c prompt w)) = false.
Proof.
  intros Hc. destruct c as [| |token api_url model|]; [|congruence| |].
  - unfold generate_func.
    now destruct (Demo.get_demo_response random_draw prompt w).
  - unfold generate_func.
    destruct (try_models _ _ _ _ _ _) as [[v|] w']; reflexivity.
  - reflexivity.
Qed.

(** X17. Only the Gemini client is ever retried: with the demo, the
    Hugging Face or the OpenAI client, [_generate_with_retry] calls
    [generate_func] once and never sleeps, and what that one call returned
    or raised is the outcome. *)
Theorem only_gemini_is_retried (c : client) (prompt : string) (w : W) :
  c <> GeminiModel ->
  generate_with_retry random_draw gemini_generate_content requests_post
      c prompt w
  = (finish (fst (generate_func
      random_draw gemini_generate_content requests_post
      c prompt w)),
     mkEffects (snd (generate_func
         random_draw gemini_generate_content requests_post
         c prompt w)) [] 1).
Proof.
  intros Hc. unfold generate_with_retry.
  apply retry_once; [unfold default_max_retries; lia|].
  now apply generate_not_rate_limited.
Qed.

Lemma try_models_refused (api_url authorization prompt : string) :
  (forall url a p w, refused (fst (requests_post url a p w))) ->
  forall (models : list string) (w : W),
    try_models requests_post api_url authorization prompt models w
    = (None, posted requests_post api_url authorization prompt models w).
Proof.
  intros Hall models. induction models as [|model rest IH]; intros w;
    [reflexivity|].
  cbn [try_models posted].
  specialize (Hall (api_url ++ model) authorization prompt w).
  destruct (requests_post (api_url ++ model) authorization prompt w)
    as [[e|response] w']; cbn [fst snd] in *; [apply IH|].
  unfold delivered. cbn [refused] in Hall.
  destruct (Z.eqb_spec (status_code response) 200) as [Heq|_];
    [contradiction|apply IH].
Qed.

(** X18. When every post to the Hugging Face endpoint raises or is answered
    with a status other than 200 (429 included), both story operations post
    once to each of the three models, in their order, and return the text
    that all models failed with no option; the failure is not retried and
    nothing is slept. *)
Theorem huggingface_failure_not_retried token api_url model prompts_dir
    character history chosen_option (w : W) :
  (forall url a p w', refused (fst (requests_post url a p w'))) ->
  start_story random_draw gemini_generate_content requests_post
      (Some (HuggingFaceClient token api_url model)) prompts_dir character w
  = (("Error generating story: All Hugging Face models failed. Please try again or use a different API.",
      []),
     mkEffects
       (posted requests_post api_url (bearer token)
          (start_prompt prompts_dir character) models_to_try w) [] 1)
  /\ continue_story random_draw gemini_generate_content requests_post
      (Some (HuggingFaceClient token api_url model)) prompts_dir
       history chosen_option w
     = (("Error continuing story: All Hugging Face models failed. Please try again or use a different API.",
         []),
        mkEffects
          (posted requests_post api_url (bearer token)
             (continue_prompt prompts_dir history chosen_option)
             models_to_try w) [] 1).
Proof.
  intros Hall.
  rewrite start_story_retried, continue_story_retried.
  unfold generate_with_retry.
  rewrite !retry_once;
    try (unfold default_max_retries; lia);
    try (apply generate_not_rate_limited; discriminate).
  unfold generate_func. rewrite !try_models_refused by exact Hall.
  split; reflexivity.
Qed.

(** X19. With the OpenAI client, which the configuration hands out for a
    valid OpenAI key, neither story operation generates anything: each
    returns the text of the error [Unsupported API: openai] and no option,
    after one call, without sleeping and without touching the backends. *)
Theorem openai_client_never_generates prompts_dir character history
    chosen_option (w : W) :
  start_story random_draw gemini_generate_content requests_post
      (Some OpenAIModule) prompts_dir character w
  = (("Error generating story: Unsupported API: openai", []),
     mkEffects w [] 1)
  /\ continue_story random_draw gemini_generate_content requests_post
      (Some OpenAIModule) prompts_dir history chosen_option w
     = (("Error continuing story: Unsupported API: openai", []),
        mkEffects w [] 1).
Proof.
  rewrite start_story_retried, continue_story_retried.
  unfold generate_with_retry.
  rewrite !retry_once;
    try (unfold default_max_retries; lia);
    try (apply generate_not_rate_limited; discriminate).
  split; reflexivity.
Qed.

Lemma parsed_or_error_shape (error_prefix : string)
    (r : outcome pyval string) :
  (forall e, prefix "Error" (error_prefix ++ e) = true) ->
  four_or_error (parsed_or_error error_prefix r).
Proof.
  intros Hp. destruct r as [v|e|]; cbn [parsed_or_error].
  - destruct v; try (right; split; [reflexivity|apply Hp]).
    left. apply parse_response_length.
  - right. split; [reflexivity|apply Hp].
  - right. split; [reflexivity|apply Hp].
Qed.

Lemma start_story_shape (self : engine) prompts_dir character (w : W) :
  four_or_error
    (fst (start_story random_draw gemini_generate_content requests_post
            self prompts_dir character w)).
Proof.
  destruct self as [c|].
  - rewrite start_story_retried. cbn [fst].
    apply parsed_or_error_shape. intros e. reflexivity.
  - right. split; reflexivity.
Qed.

(** X22. Whatever the client and the backends do, each story operation
    hands back either exactly four options, or no option at all together
    with a text that starts with [Error]. *)
Theorem story_operations_four_or_error (self : engine) prompts_dir character
    history chosen_option (w : W) :
  four_or_error (fst (start_story
      random_draw gemini_generate_content requests_post
      self prompts_dir character w))
  /\ four_or_error
       (fst (continue_story random_draw gemini_generate_content requests_post
           self prompts_dir history chosen_option w)).
Proof.
  destruct self as [c|].
  - rewrite start_story_retried, continue_story_retried. cbn [fst].
    split; apply parsed_or_error_shape; intros e; reflexivity.
  - split; right; split; reflexivity.
Qed.

Lemma retried_effort (c : client) (prompt : string) (w : W) :
  calls (snd (generate_with_retry
      random_draw gemini_generate_content requests_post
      c prompt w)) <= 4
  /\ (total_delay (slept (snd (generate_with_retry
      random_draw gemini_generate_content requests_post
      c prompt w))) <= 7)%Q.
Proof.
  unfold generate_with_retry.
  destruct (retry_ends_at (fun e => e) (generate_func
      random_draw gemini_generate_content requests_post
      c prompt)
              default_max_retries default_base_delay w)
    as [k [Hk [_ Heq]]]; [unfold default_max_retries; lia|].
  rewrite Heq. cbn [snd calls slept].
  unfold default_max_retries in Hk.
  split; [lia|].
  rewrite total_backoff.
  do 4 (destruct k as [|k]; [apply Qle_bool_iff; reflexivity|]).
  lia.
Qed.

(** X23. Whatever the client and the backends do, a story operation calls
    the generator at most four times and sleeps at most seven seconds in
    all. *)
Theorem story_operations_effort (self : engine) prompts_dir character
    history chosen_option (w : W) :
  (calls (snd (start_story random_draw gemini_generate_content requests_post
      self prompts_dir character w)) <= 4
   /\ (total_delay (slept (snd (start_story
       random_draw gemini_generate_content requests_post
       self prompts_dir character w)))
       <= 7)%Q)
  /\ (calls (snd (continue_story
      random_draw gemini_generate_content requests_post
      self prompts_dir history chosen_option w)) <= 4
      /\ (total_delay
            (slept (snd (continue_story
                random_draw gemini_generate_content requests_post
                self prompts_dir history chosen_option w)))
          <= 7)%Q).
Proof.
  destruct self as [c|].
  - rewrite start_story_retried, continue_story_retried. cbn [snd].
    split; apply retried_effort.
  - cbn [start_story continue_story snd calls slept].
    repeat split; try lia; apply Qle_bool_iff; reflexivity.
Qed.

End EngineFacts.

(** ** The story engine: the demo mode *)

Section LowerFacts.
Import PyStr.

Lemma lower_app (s t : string) : lower (s ++ t) = lower s ++ lower t.
Proof. induction s as [|c s IH]; cbn; [reflexivity | now rewrite IH]. Qed.

(** A keyword found in the lower-cased text of a part is found in the
    lower-cased whole. *)
Lemma contains_lower_part (keyword part s : string) :
  contains part s = true ->
  contains keyword (lower part) = true ->
  contains keyword (lower s) = true.
Proof.
  rewrite !contains_iff. intros [a [b ->]] [pre [post H]].
  exists (lower a ++ pre), (post ++ lower b).
  rewrite !lower_app, H, !append_assoc. reflexivity.
Qed.

Lemma contains_app_r (sub s t : string) :
  contains sub t = true -> contains sub (s ++ t) = true.
Proof.
  rewrite !contains_iff. intros [pre [post ->]].
  exists (s ++ pre), post. now rewrite append_assoc.
Qed.

Lemma contains_part (sub part s : string) :
  contains part s = true -> contains sub part = true ->
  contains sub s = true.
Proof.
  rewrite !contains_iff. intros [a [b ->]] [pre [post ->]].
  exists (a ++ pre), (post ++ b). now rewrite !append_assoc.
Qed.

End LowerFacts.

Section DemoFacts.
Import PyStr PyText StoryEngine Config Engine.
Context {W : Type} `{DT : DateTime}.
Variable random_draw : W -> nat * W.
Variable gemini_generate_content : string -> W -> (string + string) * W.
Variable requests_post :
  string -> string -> string -> W -> (string + http_response) * W.

(** Every option of a canned text is read from that text. *)
Lemma canned_options (story : string) :
  In story (openings ++ Demo.continuations) ->
  Forall (fun o => contains o story = true) (snd (parse_response story)).
Proof.
  intros Hin. apply Forall_forall. intros o Ho.
  assert (H : forallb
                (fun story =>
                   forallb (fun o => contains o story)
                     (snd (parse_response story)))
                (openings ++ Demo.continuations) = true)
    by (vm_compute; reflexivity).
  rewrite forallb_forall in H. specialize (H story Hin).
  rewrite forallb_forall in H. now apply H.
Qed.

Lemma demo_story_opening (world : string) : In (Demo.demo_story world) openings.
Proof.
  unfold Demo.demo_story, openings.
  repeat match goal with
         | |- context [String.eqb ?a ?b] => destruct (String.eqb a b)
         end; cbn; tauto.
Qed.

Lemma choice_continuation (drawn : nat) :
  In (Demo.choice Demo.continuations drawn) Demo.continuations.
Proof.
  unfold Demo.choice. apply nth_In.
  apply Nat.mod_upper_bound. discriminate.
Qed.

Lemma story_prompt_begins (character : Character.t) :
  contains "Begin an exciting" (Prompts.story_prompt character) = true.
Proof.
  apply contains_iff. exists nl. eexists.
  unfold Prompts.story_prompt. rewrite !append_assoc. reflexivity.
Qed.

Lemma story_prompt_world (character : Character.t) :
  contains (Character.world character) (Prompts.story_prompt character) = true.
Proof.
  apply contains_iff. eexists. eexists.
  unfold Prompts.story_prompt. reflexivity.
Qed.

Lemma story_prompt_background (character : Character.t) :
  contains (Character.background character)
    (Prompts.story_prompt character) = true.
Proof.
  apply contains_iff. eexists. eexists.
  unfold Prompts.story_prompt.
  rewrite <- !(append_assoc _ _ (Character.background character ++ _)).
  reflexivity.
Qed.

Lemma start_prompt_story_prompt prompts_dir character :
  contains (Prompts.story_prompt character)
    (start_prompt prompts_dir character) = true.
Proof.
  apply contains_iff. eexists. exists EmptyString.
  unfold start_prompt. rewrite append_nil_r, <- !append_assoc. reflexivity.
Qed.

Lemma demo_start_story_answer prompts_dir (character : Character.t)
    (w : W) :
  start_story random_draw gemini_generate_content requests_post
    (Some DemoClient) prompts_dir character w
  = (parse_response
       (Demo.demo_story
          (Demo.detect_world (start_prompt prompts_dir character))),
     mkEffects w [] 1).
Proof.
  assert (Hbegin : contains "Begin an exciting"
                     (start_prompt prompts_dir character) = true)
    by (apply (contains_part _ _ _ (start_prompt_story_prompt _ _)),
          story_prompt_begins).
  rewrite start_story_retried. unfold generate_with_retry.
  rewrite retry_once;
    [|unfold default_max_retries; lia
     |apply generate_not_rate_limited; discriminate].
  unfold generate_func, Demo.get_demo_response. rewrite Hbegin.
  reflexivity.
Qed.

(** X20. In demo mode [start_story] always succeeds, at once and without
    reaching any backend: it returns the parsed text of one of the three
    canned openings, whose four options are read from that text.  The
    opening is chosen by keywords found anywhere in the prompt: the
    cultivation opening whenever the world of the character, or its
    background, mentions [cultivation] in any case. *)
Theorem demo_start_story prompts_dir (character : Character.t) (w : W) :
  exists story,
    In story openings
    /\ start_story random_draw gemini_generate_content requests_post
        (Some DemoClient) prompts_dir character w
       = (parse_response story, mkEffects w [] 1)
    /\ Forall (fun o => contains o story = true) (snd (parse_response story))
    /\ (contains "cultivation" (lower (Character.world character)) = true
        \/ contains "cultivation" (lower (Character.background character))
           = true ->
        story = Demo.cultivation_story).
Proof.
  set (prompt := start_prompt prompts_dir character).
  exists (Demo.demo_story (Demo.detect_world prompt)).
  split; [apply demo_story_opening|]. split; [|split].
  - apply demo_start_story_answer.
  - apply canned_options, in_or_app. left. apply demo_story_opening.
  - intros Hc. unfold Demo.detect_world.
    replace (contains "cultivation" (lower prompt)) with true; [reflexivity|].
    symmetry. destruct Hc as [Hc|Hc].
    + apply (contains_lower_part _ (Character.world character)); [|exact Hc].
      apply (contains_part _ _ _ (start_prompt_story_prompt _ _)),
        story_prompt_world.
    + apply (contains_lower_part _ (Character.background character));
        [|exact Hc].
      apply (contains_part _ _ _ (start_prompt_story_prompt _ _)),
        story_prompt_background.
Qed.

(** X21. In demo mode [continue_story] always succeeds, at once and
    without sleeping: it returns the parsed text of one of the six canned
    texts, whose four options are read from that text, and the text is one
    of the three continuations, picked by one random draw, when the prompt
    (which holds the recent story and the chosen option) does not contain
    [Begin an exciting]. *)
Theorem demo_continue_story prompts_dir (history : StoryHistory.t)
    (chosen_option : string) (w : W) :
  exists story,
    In story (openings ++ Demo.continuations)
    /\ fst (continue_story random_draw gemini_generate_content requests_post
        (Some DemoClient) prompts_dir history chosen_option w)
       = parse_response story
    /\ Forall (fun o => contains o story = true) (snd (parse_response story))
    /\ slept (snd (continue_story
        random_draw gemini_generate_content requests_post
        (Some DemoClient) prompts_dir history
                     chosen_option w)) = []
    /\ calls (snd (continue_story
        random_draw gemini_generate_content requests_post
        (Some DemoClient) prompts_dir history
                     chosen_option w)) = 1
    /\ (contains "Begin an exciting"
          (continue_prompt prompts_dir history chosen_option) = false ->
        In story Demo.continuations
        /\ world (snd (continue_story
            random_draw gemini_generate_content requests_post
            (Some DemoClient) prompts_dir history
                         chosen_option w))
           = snd (random_draw w)).
Proof.
  set (prompt := continue_prompt prompts_dir history chosen_option).
  rewrite continue_story_retried. fold prompt. unfold generate_with_retry.
  rewrite retry_once;
    [|unfold default_max_retries; lia
     |apply generate_not_rate_limited; discriminate].
  unfold generate_func, Demo.get_demo_response.
  destruct (contains "Begin an exciting" prompt).
  - exists (Demo.demo_story (Demo.detect_world prompt)).
    assert (Hin : In (Demo.demo_story (Demo.detect_world prompt))
                     (openings ++ Demo.continuations))
      by (apply in_or_app; left; apply demo_story_opening).
    repeat split; try reflexivity; try discriminate;
      [exact Hin | now apply canned_options].
  - destruct (random_draw w) as [drawn w'] eqn:Hdraw.
    exists (Demo.choice Demo.continuations drawn).
    assert (Hin : In (Demo.choice Demo.continuations drawn)
                     (openings ++ Demo.continuations))
      by (apply in_or_app; right; apply choice_continuation).
    repeat split; try reflexivity;
      [exact Hin | now apply canned_options | apply choice_continuation].
Qed.

End DemoFacts.

Section EngineRuns.
Import PyStr PyText StoryEngine Config Engine Sample.

Lemma only_gemini_is_retried_witness :
  generate_with_retry no_draw no_gemini busy_endpoint
    (HuggingFaceClient (Some "hf_token")
       "https://api-inference.huggingface.co/models/"
       "microsoft/DialoGPT-large")
    "Tell a story" 0
  = (Raised
       "All Hugging Face models failed. Please try again or use a different API.",
     mkEffects 3 [] 1).
Proof.
  apply (only_gemini_is_retried no_draw no_gemini busy_endpoint
           (HuggingFaceClient (Some "hf_token")
              "https://api-inference.huggingface.co/models/"
              "microsoft/DialoGPT-large")
           "Tell a story" 0).
  discriminate.
Defined.

Lemma huggingface_failure_not_retried_witness :
  start_story no_draw no_gemini busy_endpoint
    (Some (HuggingFaceClient (Some "hf_token")
             "https://api-inference.huggingface.co/models/"
             "microsoft/DialoGPT-large"))
    no_files test_hero 0
  = (("Error generating story: All Hugging Face models failed. Please try again or use a different API.",
      []),
     mkEffects 3 [] 1)
  /\ continue_story no_draw no_gemini busy_endpoint
       (Some (HuggingFaceClient (Some "hf_token")
                "https://api-inference.huggingface.co/models/"
                "microsoft/DialoGPT-large"))
       no_files forest_history "Go left" 0
     = (("Error continuing story: All Hugging Face models failed. Please try again or use a different API.",
         []),
        mkEffects 3 [] 1).
Proof.
  apply (huggingface_failure_not_retried no_draw no_gemini busy_endpoint
           (Some "hf_token") "https://api-inference.huggingface.co/models/"
           "microsoft/DialoGPT-large" no_files test_hero forest_history
           "Go left" 0).
  intros url a p w'. cbn. discriminate.
Defined.

Lemma demo_start_story_witness :
  exists story,
    start_story no_draw no_gemini busy_endpoint (Some DemoClient) no_files
      (CharacterSamples.create_sample "cultivation") 0
    = (parse_response story, mkEffects 0 [] 1)
    /\ story = Demo.cultivation_story.
Proof.
  destruct (demo_start_story no_draw no_gemini busy_endpoint no_files
              (CharacterSamples.create_sample "cultivation") 0)
    as [story [_ [Heq [_ Hc]]]].
  exists story. split; [exact Heq|].
  apply Hc. left. vm_compute. reflexivity.
Defined.

Lemma demo_continue_story_witness :
  exists story,
    In story Demo.continuations
    /\ fst (continue_story third_draw no_gemini busy_endpoint
              (Some DemoClient) no_files forest_history "Go left" 0)
       = parse_response story
    /\ world (snd (continue_story third_draw no_gemini busy_endpoint
                     (Some DemoClient) no_files forest_history "Go left" 0))
       = 1.
Proof.
  destruct (demo_continue_story third_draw no_gemini busy_endpoint no_files
              forest_history "Go left" 0)
    as [story [_ [Heq [_ [_ [_ Hc]]]]]].
  exists story.
  destruct Hc as [Hin Hw]; [vm_compute; reflexivity|].
  split; [exact Hin|]. split; [exact Heq|exact Hw].
Defined.

End EngineRuns.

(** ** The clients of the configuration *)

Section ClientFacts.
Import PyStr Clients.
Context {W : Type}.
Variable gemini_model : option string -> W -> (string + unit) * W.
Variable import_openai : W -> (string + unit) * W.
Variable validate_gemini_key : string -> W -> (bool * string) * W.
Variable validate_huggingface_token : string -> W -> (bool * string) * W.
Variable validate_openai_key : string -> W -> (bool * string) * W.

Lemma is_in_iff (api : string) (apis : list string) :
  is_in api apis = true <-> In api apis.
Proof.
  unfold is_in. rewrite existsb_exists. split.
  - intros [x [Hin Heq]]. apply String.eqb_eq in Heq. now subst.
  - intros Hin. exists api. split; [exact Hin|apply String.eqb_refl].
Qed.

Lemma cache_get_set (api : string) (c : Engine.client) cache :
  cache_get api (cache_set api c cache) = Some c.
Proof. unfold cache_set. cbn [cache_get]. now rewrite String.eqb_refl. Qed.

Lemma cache_get_consistent (api : string) (c : Engine.client) cache :
  cache_consistent cache -> cache_get api cache = Some c ->
  Engine.api_name c = api.
Proof.
  unfold cache_consistent.
  induction cache as [|[k v] rest IH]; intros Hc Hget; [discriminate|].
  inversion Hc as [|? ? Hkv Hrest]; subst. cbn [cache_get] in Hget.
  destruct (String.eqb_spec k api) as [->|_].
  - injection Hget as <-. exact Hkv.
  - now apply IH.
Qed.

Lemma cache_consistent_set (api : string) (c : Engine.client) cache :
  cache_consistent cache -> Engine.api_name c = api ->
  cache_consistent (cache_set api c cache).
Proof.
  unfold cache_consistent, cache_set. intros Hc Hname.
  constructor; [exact Hname|].
  apply Forall_forall. intros kv Hin. apply filter_In in Hin as [Hin _].
  revert kv Hin. now apply Forall_forall.
Qed.

Lemma initialize_client_name (self : config) (api : string) (w w' : W)
    (c : Engine.client) :
  initialize_client gemini_model import_openai self api w = (inr c, w') ->
  Engine.api_name c = api.
Proof.
  unfold initialize_client.
  destruct (String.eqb_spec api "gemini") as [->|_].
  { destruct (gemini_model _ w) as [[e|u] w1]; intros H;
      [discriminate|now injection H as <- _]. }
  destruct (String.eqb_spec api "huggingface") as [->|_].
  { intros H. now injection H as <- _. }
  destruct (String.eqb_spec api "openai") as [->|_].
  { destruct (import_openai w) as [[e|u] w1]; intros H;
      [discriminate|now injection H as <- _]. }
  discriminate.
Qed.

Lemma fallback_handed_out (self : config) (apis : list string) :
  forall (w w' : W) (c : Engine.client) (api : string) (self' : config),
    fallback gemini_model import_openai self apis w
    = (Some (c, api), self', w') ->
    In api apis
    /\ cache_get api (clients_cache self') = Some c
    /\ available_apis self' = available_apis self
    /\ (cache_consistent (clients_cache self) ->
        Engine.api_name c = api /\ cache_consistent (clients_cache self')).
Proof.
  induction apis as [|a rest IH]; intros w w' c api self' H; [discriminate|].
  cbn [fallback] in H.
  destruct (cache_get a (clients_cache self)) as [c0|] eqn:Hget.
  - injection H as <- <- <- _.
    repeat split; [now left|exact Hget| |assumption];
      now apply (cache_get_consistent a c0 (clients_cache self)).
  - destruct (initialize_client gemini_model import_openai self a w)
      as [[e|c1] w1] eqn:Hinit.
    + destruct (IH _ _ _ _ _ H) as [Hin Hrest]. split; [now right|exact Hrest].
    + injection H as <- <- <- _.
      pose proof (initialize_client_name _ _ _ _ _ Hinit) as Hname.
      repeat split; [now left|apply cache_get_set|exact Hname|].
      now apply cache_consistent_set.
Qed.

Lemma get_llm_client_handed_out (self self' : config) (preferred : string)
    (w w' : W) (c : Engine.client) (api : string) :
  get_llm_client gemini_model import_openai self preferred w
  = (Some (c, api), self', w') ->
  handed_out self self' c api.
Proof.
  unfold get_llm_client, handed_out. intros H.
  destruct (is_in preferred (available_apis self)) eqn:Hav.
  - apply is_in_iff in Hav.
    destruct (cache_get preferred (clients_cache self)) as [c0|] eqn:Hget.
    + injection H as <- <- <- _.
      repeat split; [exact Hav|exact Hget| |assumption];
        now apply (cache_get_consistent preferred c0 (clients_cache self)).
    + destruct (initialize_client gemini_model import_openai self preferred w)
        as [[e|c1] w1] eqn:Hinit.
      * now apply fallback_handed_out in H.
      * injection H as <- <- <- _.
        pose proof (initialize_client_name _ _ _ _ _ Hinit) as Hname.
        repeat split; [exact Hav|apply cache_get_set|exact Hname|].
        now apply cache_consistent_set.
  - destruct (cache_get preferred (clients_cache self));
      now apply fallback_handed_out in H.
Qed.

(** X24. The client [get_llm_client] hands out comes with the name of one
    of the available apis and is kept in the cache under that name; the
    list of available apis is left as it was.  When the cache files every
    client under its own api (as the empty cache of a new or refreshed
    configuration does), the client is the one of the api named, and the
    cache stays so. *)
Theorem get_llm_client_sound (self self' : config) (preferred : string)
    (w w' : W) (c : Engine.client) (api : string) :
  get_llm_client gemini_model import_openai self preferred w
  = (Some (c, api), self', w') ->
  In api (available_apis self)
  /\ cache_get api (clients_cache self') = Some c
  /\ available_apis self' = available_apis self
  /\ (cache_consistent (clients_cache self) ->
      Engine.api_name c = api /\ cache_consistent (clients_cache self')).
Proof. intros H. exact (get_llm_client_handed_out _ _ _ _ _ _ _ H). Qed.

(** X26. Asking again, for the api that was just handed out, gives the same
    client from the cache: nothing is initialised, and the configuration
    and the world stay as they are. *)
Theorem get_llm_client_again (self self' : config) (preferred : string)
    (w w' : W) (c : Engine.client) (api : string) :
  get_llm_client gemini_model import_openai self preferred w
  = (Some (c, api), self', w') ->
  forall w'' : W,
    get_llm_client gemini_model import_openai self' api w''
    = (Some (c, api), self', w'').
Proof.
  intros H w''.
  destruct (get_llm_client_handed_out _ _ _ _ _ _ _ H)
    as [Hin [Hget [Hav _]]].
  unfold get_llm_client. rewrite Hget, Hav.
  apply is_in_iff in Hin. now rewrite Hin.
Qed.

Lemma fallback_huggingface (self : config) (apis : list string) (w : W) :
  In "huggingface" apis ->
  exists c api,
    fst (fst (fallback gemini_model import_openai self apis w))
    = Some (c, api).
Proof.
  revert w. induction apis as [|a rest IH]; intros w Hin; [contradiction|].
  cbn [fallback].
  destruct (cache_get a (clients_cache self)) as [c0|]; [now exists c0, a|].
  destruct (initialize_client gemini_model import_openai self a w)
    as [[e|c1] w1] eqn:Hinit; [|now exists c1, a].
  apply IH. destruct Hin as [->|Hin]; [|exact Hin].
  unfold initialize_client in Hinit. cbn in Hinit. discriminate.
Qed.

Lemma fallback_none (self : config) (apis : list string) :
  forall (w w' : W) (self' : config),
    fallback gemini_model import_openai self apis w = (None, self', w') ->
    self' = self.
Proof.
  induction apis as [|a rest IH]; intros w w' self' H; cbn [fallback] in H.
  - now injection H as <- _.
  - destruct (cache_get a (clients_cache self)); [discriminate|].
    destruct (initialize_client gemini_model import_openai self a w)
      as [[e|c1] w1]; [now apply IH in H|discriminate].
Qed.

(** X25. With Hugging Face among the available apis a client is always
    handed out, whichever api is preferred and whatever the libraries do;
    and a call that hands out none leaves the configuration as it was. *)
Theorem get_llm_client_huggingface (self : config) (preferred : string)
    (w : W) :
  (is_in "huggingface" (available_apis self) = true ->
   exists c api,
     fst (fst (get_llm_client gemini_model import_openai self preferred w))
     = Some (c, api))
  /\ (fst (fst (get_llm_client gemini_model import_openai self preferred w))
      = None ->
      snd (fst (get_llm_client gemini_model import_openai self preferred w))
      = self).
Proof.
  unfold get_llm_client. split.
  - intros Hhf. apply is_in_iff in Hhf.
    destruct (is_in preferred (available_apis self)).
    + destruct (cache_get preferred (clients_cache self)) as [c0|];
        [now exists c0, preferred|].
      destruct (initialize_client gemini_model import_openai self preferred w)
        as [[e|c1] w1]; [|now exists c1, preferred].
      now apply fallback_huggingface.
    + destruct (cache_get preferred (clients_cache self));
        now apply fallback_huggingface.
  - assert (Hf : forall w0,
               fst (fst (fallback gemini_model import_openai self
                           (available_apis self) w0)) = None ->
               snd (fst (fallback gemini_model import_openai self
                           (available_apis self) w0)) = self).
    { intros w0.
      destruct (fallback gemini_model import_openai self
                  (available_apis self) w0) as [[r s] w1] eqn:Hfb.
      cbn [fst snd]. intros ->. now apply fallback_none in Hfb. }
    destruct (is_in preferred (available_apis self)).
    + destruct (cache_get preferred (clients_cache self)) as [c0|];
        [discriminate|].
      destruct (initialize_client gemini_model import_openai self preferred w)
        as [[e|c1] w1]; [apply Hf|discriminate].
    + destruct (cache_get preferred (clients_cache self)); apply Hf.
Qed.

Lemma validated_spec (key : option string)
    (validate : string -> W -> (bool * string) * W) (api : string)
    (apis : list string) (w : W) :
  exists b : bool,
    fst (validated key validate api apis w)
    = (apis ++ (if b then [api] else []))%list
    /\ (b = true -> is_set key = true)
    /\ (is_set key = false -> snd (validated key validate api apis w) = w).
Proof.
  unfold validated, is_set. destruct key as [k|].
  - destruct (is_empty k).
    + exists false. rewrite app_nil_r. repeat split. discriminate.
    + destruct (validate k w) as [[is_valid message] w1].
      exists is_valid. cbn [negb].
      destruct is_valid; rewrite ?app_nil_r; repeat split; discriminate.
  - exists false. rewrite app_nil_r. repeat split. discriminate.
Qed.

Lemma validate_all_apis_config (self : config) (w : W) :
  fst (validate_all_apis validate_gemini_key validate_huggingface_token
         validate_openai_key self w)
  = set_available_apis self
      (available_apis
         (fst (validate_all_apis validate_gemini_key
                 validate_huggingface_token validate_openai_key self w))).
Proof.
  unfold validate_all_apis.
  destruct (validated (gemini_api_key self) _ _ _ w) as [apis1 w1].
  destruct (validated (huggingface_token self) _ _ _ w1) as [apis2 w2].
  destruct (validated (openai_api_key self) _ _ _ w2) as [apis3 w3].
  reflexivity.
Qed.

(** X27. [_validate_all_apis] makes the list of available apis anew: it is
    a selection of gemini, huggingface, openai, in this order and without
    repetition, and holds only apis whose key is set (not [None], not
    empty); the keys and the cache of clients are left as they were, and
    no validator is called when no key is set. *)
Theorem validate_all_apis_available (self : config) (w : W) :
  (exists keep,
      available_apis
        (fst (validate_all_apis validate_gemini_key
                validate_huggingface_token validate_openai_key self w))
      = filter keep known_apis)
  /\ Forall (fun api => is_set (key_of self api) = true)
       (available_apis
          (fst (validate_all_apis validate_gemini_key
                  validate_huggingface_token validate_openai_key self w)))
  /\ clients_cache
       (fst (validate_all_apis validate_gemini_key
               validate_huggingface_token validate_openai_key self w))
     = clients_cache self
  /\ ((forall api, is_set (key_of self api) = false) ->
      snd (validate_all_apis validate_gemini_key
             validate_huggingface_token validate_openai_key self w) = w).
Proof.
  split; [|split; [|split]];
    [| |rewrite validate_all_apis_config; reflexivity|];
    unfold validate_all_apis;
    destruct (validated_spec (gemini_api_key self) validate_gemini_key
                "gemini" [] w) as [b1 [E1 [S1 U1]]];
    destruct (validated (gemini_api_key self) _ _ _ w) as [apis1 w1];
    cbn [fst snd] in E1, U1; subst apis1;
    destruct (validated_spec (huggingface_token self)
                validate_huggingface_token "huggingface"
                ([] ++ (if b1 then ["gemini"] else [])) w1)
      as [b2 [E2 [S2 U2]]];
    destruct (validated (huggingface_token self) _ _ _ w1) as [apis2 w2];
    cbn [fst snd] in E2, U2; subst apis2;
    destruct (validated_spec (openai_api_key self) validate_openai_key
                "openai"
                (([] ++ (if b1 then ["gemini"] else []))
                 ++ (if b2 then ["huggingface"] else [])) w2)
      as [b3 [E3 [S3 U3]]];
    destruct (validated (openai_api_key self) _ _ _ w2) as [apis3 w3];
    cbn [fst snd] in E3, U3; subst apis3;
    cbn [fst snd available_apis set_available_apis].
  - exists (fun api =>
              (String.eqb api "gemini" && b1)
              || (String.eqb api "huggingface" && b2)
              || (String.eqb api "openai" && b3)).
    destruct b1, b2, b3; reflexivity.
  - destruct b1, b2, b3; cbn [app]; repeat constructor;
      (apply S1 || apply S2 || apply S3); reflexivity.
  - intros Hnone.
    rewrite U3, U2, U1; [reflexivity| | |].
    + exact (Hnone "gemini").
    + exact (Hnone "huggingface").
    + exact (Hnone "openai").
Qed.

Lemma setenv_same (env : environ) (name value : string) :
  setenv env name value name = Some value.
Proof. unfold setenv. now rewrite String.eqb_refl. Qed.

Lemma refreshed_key (env : environ) (secrets : secrets_store)
    (any : config) (w : W) (api variable key : string) :
  In (api, variable)
     [("gemini", "GEMINI_API_KEY"); ("huggingface", "HUGGINGFACE_TOKEN");
      ("openai", "OPENAI_API_KEY")] ->
  env variable = Some key -> key <> EmptyString ->
  key_of (fst (refresh_api_keys validate_gemini_key
                 validate_huggingface_token validate_openai_key env secrets
                 any w)) api
  = Some key.
Proof.
  intros Hin Henv Hkey. unfold refresh_api_keys.
  rewrite validate_all_apis_config.
  assert (Hset : is_set (Some key) = true)
    by (destruct key; [congruence|reflexivity]).
  unfold load_api_keys.
  destruct Hin as [H|[H|[H|[]]]]; injection H as <- <-;
    rewrite Henv; destruct secrets; cbn in Hset |- *; rewrite ?Hset;
    reflexivity.
Qed.

(** X28. A key that [set_and_validate_api_key] accepts is the key of its
    api afterwards, the cache of clients is empty, and, the key not being
    empty, it is still the key after any later [refresh_api_keys] (which
    reads it back from the environment), whatever the secrets hold. *)
Theorem set_key_survives_refresh (self self' : config)
    (api_name api_key message : string) (env env' : environ) (w w' : W) :
  set_and_validate_api_key validate_gemini_key validate_huggingface_token
    validate_openai_key self api_name api_key env w
  = ((true, message), self', env', w') ->
  api_key <> EmptyString ->
  In api_name known_apis
  /\ key_of self' api_name = Some api_key
  /\ clients_cache self' = []
  /\ forall (secrets : secrets_store) (any : config) (w'' : W),
       key_of (fst (refresh_api_keys validate_gemini_key
                      validate_huggingface_token validate_openai_key env'
                      secrets any w'')) api_name
       = Some api_key.
Proof.
  unfold set_and_validate_api_key, validate_api_key. intros H Hkey.
  destruct (String.eqb_spec api_name "gemini") as [->|_];
    [|destruct (String.eqb_spec api_name "huggingface") as [->|_];
      [|destruct (String.eqb_spec api_name "openai") as [->|_];
        [|discriminate]]].
  - destruct (validate_gemini_key api_key w) as [[is_valid m] w1].
    destruct is_valid; [|discriminate].
    match type of H with
    | context [validate_all_apis ?a ?b ?c ?s ?x] =>
        pose proof (validate_all_apis_config s x) as Hcfg;
        destruct (validate_all_apis a b c s x) as [s1 w2]
    end.
    cbn [fst] in Hcfg. injection H as _ <- <- _. rewrite Hcfg.
    repeat split; [now left|].
    intros secrets any w''.
    apply (refreshed_key _ _ _ _ "gemini" "GEMINI_API_KEY");
      [now left|apply setenv_same|exact Hkey].
  - destruct (validate_huggingface_token api_key w) as [[is_valid m] w1].
    destruct is_valid; [|discriminate].
    match type of H with
    | context [validate_all_apis ?a ?b ?c ?s ?x] =>
        pose proof (validate_all_apis_config s x) as Hcfg;
        destruct (validate_all_apis a b c s x) as [s1 w2]
    end.
    cbn [fst] in Hcfg. injection H as _ <- <- _. rewrite Hcfg.
    repeat split; [right; now left|].
    intros secrets any w''.
    apply (refreshed_key _ _ _ _ "huggingface" "HUGGINGFACE_TOKEN");
      [right; now left|apply setenv_same|exact Hkey].
  - destruct (validate_openai_key api_key w) as [[is_valid m] w1].
    destruct is_valid; [|discriminate].
    match type of H with
    | context [validate_all_apis ?a ?b ?c ?s ?x] =>
        pose proof (validate_all_apis_config s x) as Hcfg;
        destruct (validate_all_apis a b c s x) as [s1 w2]
    end.
    cbn [fst] in Hcfg. injection H as _ <- <- _. rewrite Hcfg.
    repeat split; [right; right; now left|].
    intros secrets any w''.
    apply (refreshed_key _ _ _ _ "openai" "OPENAI_API_KEY");
      [right; right; now left|apply setenv_same|exact Hkey].
Qed.

End ClientFacts.

Section ClientRuns.
Import PyStr Clients.

Lemma get_llm_client_sound_witness :
  Engine.api_name hf_client = "huggingface"
  /\ cache_consistent [("huggingface", hf_client)].
Proof.
  destruct (get_llm_client_sound gemini_present library_present
              sample_config
              (set_cache sample_config [("huggingface", hf_client)])
              "gemini" 0 0 hf_client "huggingface" eq_refl)
    as [_ [_ [_ H]]].
  apply H. constructor.
Defined.

Lemma get_llm_client_huggingface_witness :
  (exists c api,
      fst (fst (get_llm_client gemini_present library_present sample_config
                  "gemini" 0))
      = Some (c, api))
  /\ snd (fst (get_llm_client gemini_present library_present no_keys
                 "gemini" 0))
     = no_keys.
Proof.
  split.
  - apply (proj1 (get_llm_client_huggingface gemini_present library_present
                    sample_config "gemini" 0)).
    reflexivity.
  - apply (proj2 (get_llm_client_huggingface gemini_present library_present
                    no_keys "gemini" 0)).
    reflexivity.
Defined.

Lemma get_llm_client_again_witness :
  get_llm_client gemini_present library_present
    (set_cache sample_config [("huggingface", hf_client)]) "huggingface" 7
  = (Some (hf_client, "huggingface"),
     set_cache sample_config [("huggingface", hf_client)], 7).
Proof.
  apply (get_llm_client_again gemini_present library_present sample_config
           (set_cache sample_config [("huggingface", hf_client)])
           "gemini" 0 0 hf_client "huggingface").
  reflexivity.
Defined.

Lemma validate_all_apis_available_witness :
  snd (validate_all_apis accept_all accept_all accept_all no_keys 0) = 0.
Proof.
  apply (proj2 (proj2 (proj2 (validate_all_apis_available accept_all
                                accept_all accept_all no_keys 0)))).
  intros api. unfold key_of, no_keys. cbn.
  repeat match goal with
         | |- context [String.eqb ?a ?b] => destruct (String.eqb a b)
         end; reflexivity.
Defined.

Lemma set_key_survives_refresh_witness :
  key_of (fst (refresh_api_keys accept_all accept_all accept_all
                 (setenv empty_environ "HUGGINGFACE_TOKEN" "hf_token")
                 SecretsUnavailable no_keys 0))
    "huggingface"
  = Some "hf_token".
Proof.
  refine (proj2 (proj2 (proj2
            (set_key_survives_refresh accept_all accept_all accept_all
               no_keys _ "huggingface" "hf_token" _ empty_environ _ 0 _
               eq_refl _))) SecretsUnavailable no_keys 0).
  discriminate.
Defined.

End ClientRuns.

(** ** The system prompt *)

Section PromptFacts.
Import PyStr PyText StoryEngine Prompts.

Lemma strip_inner (body : string) :
  lstrip body = body -> ends_solid body -> strip (nl ++ body ++ nl) = body.
Proof.
  intros Hl Hs. destruct body as [|c body].
  - destruct Hs as [_ He]. discriminate.
  - apply strip_framed; [now apply (lstrip_fixed_head c body)|exact Hs].
Qed.

Lemma create_system_prompt_text (character : Character.t)
    (world_template : string) :
  create_system_prompt character world_template
  = guidelines ++ world_template ++ nl ++ nl
    ++ Character.to_prompt character ++ rules_text.
Proof.
  unfold create_system_prompt.
  assert (Ho : system_prompt_opening = nl ++ guidelines) by reflexivity.
  assert (Hr : system_prompt_rules = rules_text ++ nl)
    by (vm_compute; reflexivity).
  assert (Hg : exists rest, guidelines = String "Y" rest)
    by (eexists; vm_compute; reflexivity).
  rewrite Ho, Hr.
  set (profile := Character.to_prompt character).
  set (body := guidelines ++ world_template ++ nl ++ nl ++ profile
               ++ rules_text).
  replace ((nl ++ guidelines) ++ world_template ++ nl ++ nl ++ profile
           ++ rules_text ++ nl)
    with (nl ++ body ++ nl)
    by (unfold body; rewrite !append_assoc; reflexivity).
  apply strip_inner.
  - unfold body. destruct Hg as [rest ->]. reflexivity.
  - unfold body. repeat apply ends_solid_app.
    split; vm_compute; reflexivity.
Qed.

(** X29. The system prompt is the fixed guidelines, the world template, a
    blank line, the profile of the character and the fixed rules: the
    template and the profile are in it as they are (only the line feeds at
    the two ends of the fixed text are trimmed), so are the name of the
    character and the format with the marker [DECISION_POINT]. *)
Theorem create_system_prompt_holds (character : Character.t)
    (world_template : string) :
  create_system_prompt character world_template
  = guidelines ++ world_template ++ nl ++ nl
    ++ Character.to_prompt character ++ rules_text
  /\ contains world_template
       (create_system_prompt character world_template) = true
  /\ contains (Character.name character)
       (create_system_prompt character world_template) = true
  /\ contains DECISION_POINT
       (create_system_prompt character world_template) = true.
Proof.
  rewrite create_system_prompt_text. split; [reflexivity|].
  split; [|split].
  - apply contains_iff. now exists guidelines; eexists.
  - apply (contains_part _ (Character.to_prompt character)).
    + apply contains_iff. exists (guidelines ++ world_template ++ nl ++ nl).
      exists rules_text. now rewrite !append_assoc.
    + rewrite to_prompt_profile. apply contains_iff.
      eexists. eexists. unfold profile.
      rewrite <- !(append_assoc _ _ (Character.name character ++ _)).
      reflexivity.
  - apply (contains_part _ rules_text).
    + apply contains_iff. eexists. exists EmptyString.
      rewrite append_nil_r, <- !append_assoc. reflexivity.
    + vm_compute. reflexivity.
Qed.

End PromptFacts.

(** ** Starting a story, from the keys to the session *)

Section AdventureFacts.
Import PyStr PyText StoryEngine Config Engine App.
Context {W : Type} `{DT : DateTime}.
Variable random_draw : W -> nat * W.
Variable gemini_generate_content : string -> W -> (string + string) * W.
Variable requests_post :
  string -> string -> string -> W -> (string + http_response) * W.
Variable gemini_model : option string -> W -> (string + unit) * W.
Variable import_openai : W -> (string + unit) * W.
Variable validate_gemini_key : string -> W -> (bool * string) * W.
Variable validate_huggingface_token : string -> W -> (bool * string) * W.
Variable validate_openai_key : string -> W -> (bool * string) * W.

Lemma start_new_story_generated character text options (s : session) :
  exists h chunk,
    story_history (start_new_story character (Generated text options) s)
    = Some h
    /\ StoryHistory.story_chunks h = [chunk]
    /\ StoryHistory.decisions h = []
    /\ StoryChunk.text chunk = text
    /\ StoryChunk.decision_options chunk = options
    /\ current_options (start_new_story character (Generated text options) s)
       = options
    /\ story_started (start_new_story character (Generated text options) s)
       = true
    /\ waiting_for_choice
         (start_new_story character (Generated text options) s) = true.
Proof.
  unfold start_new_story, StoryHistory.create, StoryHistory.add_story_chunk,
    StoryChunk.create, now.
  cbn. eexists. eexists. repeat split.
Qed.

Lemma start_new_story_unavailable character (s : session) :
  exists h,
    story_history (start_new_story character Unavailable s) = Some h
    /\ StoryHistory.story_chunks h = []
    /\ StoryHistory.decisions h = [].
Proof.
  unfold start_new_story, StoryHistory.create, now.
  cbn. eexists. repeat split.
Qed.

Lemma initialize_engine_demo (cfg : Clients.config) (w : W) :
  Adventure.initialize_engine gemini_model import_openai (Some "true") cfg w
  = (Some DemoClient, cfg, w).
Proof. reflexivity. Qed.

(** X30. Whatever the keys, the libraries and the backends do,
    [start_new_story] leaves a new history without decisions in one of
    three states: no chapter, and no decision on offer (no client was
    available); or one chapter with its four options on offer; or one
    chapter whose text starts with [Error], with no option, so that no
    decision can be taken on it.  With [DEMO_MODE] set to [true] it is
    always the second one. *)
Theorem start_new_story_outcomes (demo_mode : option string)
    (env : Clients.environ) (secrets : Clients.secrets_store)
    (prompts_dir : file_system) (character : Character.t)
    (cfg : Clients.config) (s : session) (w : W) :
  let s' :=
    fst (fst (Adventure.start_new_story random_draw gemini_generate_content
                requests_post gemini_model import_openai validate_gemini_key
                validate_huggingface_token validate_openai_key demo_mode env
                secrets prompts_dir character cfg s w)) in
  (exists h,
      story_history s' = Some h
      /\ StoryHistory.decisions h = []
      /\ ((StoryHistory.story_chunks h = [] /\ decision_offered s' = false)
          \/ exists chunk,
               StoryHistory.story_chunks h = [chunk]
               /\ story_started s' = true
               /\ current_options s' = StoryChunk.decision_options chunk
               /\ ((List.length (current_options s') = 4
                    /\ decision_offered s' = true)
                   \/ (current_options s' = []
                       /\ prefix "Error" (StoryChunk.text chunk) = true
                       /\ forall i e, step s' (MakeDecision i e) = s'))))
  /\ (demo_mode = Some "true" -> decision_offered s' = true).
Proof.
  cbv zeta. unfold Adventure.start_new_story.
  destruct (Clients.refresh_api_keys _ _ _ env secrets cfg w) as [cfg1 w1].
  destruct (Adventure.initialize_engine gemini_model import_openai demo_mode
              cfg1 w1) as [[engine0 cfg2] w2] eqn:E0.
  destruct (Adventure.initialize_engine gemini_model import_openai demo_mode
              cfg2 w2) as [[engine cfg3] w3] eqn:E1.
  destruct engine as [c|]; cbn [is_available].
  - pose proof (start_story_shape random_draw gemini_generate_content
                  requests_post (Some c) prompts_dir character w3) as Hshape.
    pose proof (demo_start_story_answer random_draw gemini_generate_content
                  requests_post prompts_dir character w3) as Hdemo.
    destruct (start_story random_draw gemini_generate_content requests_post
                (Some c) prompts_dir character w3) as [[text options] fx]
      eqn:Er.
    unfold four_or_error in Hshape. cbn [fst snd] in *.
    destruct (start_new_story_generated character text options s)
      as [h [chunk [Hh [Hc [Hd [Ht [Ho [Hcur [Hst Hw]]]]]]]]].
    assert (Hoffer : List.length options = 4 ->
                     decision_offered
                       (start_new_story character (Generated text options) s)
                     = true).
    { intros Hlen. unfold decision_offered.
      rewrite Hh, Hc, Hw, Hcur, Hlen. reflexivity. }
    split.
    + exists h. split; [exact Hh|]. split; [exact Hd|]. right.
      exists chunk. split; [exact Hc|]. split; [exact Hst|].
      split; [now rewrite Hcur, Ho|].
      destruct Hshape as [Hlen|[Hnil Herr]].
      * left. rewrite Hcur. split; [exact Hlen|now apply Hoffer].
      * right. rewrite Hcur, Ht. split; [exact Hnil|]. split; [exact Herr|].
        intros i e. cbn [step]. unfold decision_offered.
        rewrite Hh, Hc, Hw, Hcur, Hnil. reflexivity.
    + intros ->. rewrite initialize_engine_demo in E1.
      injection E1 as <- _ _. rewrite Hdemo in Er. injection Er as Hp _.
      apply Hoffer. change options with (snd (text, options)).
      rewrite <- Hp. apply parse_response_length.
  - cbn [fst]. split.
    + destruct (start_new_story_unavailable character s) as [h [Hh [Hc Hd]]].
      exists h. split; [exact Hh|]. split; [exact Hd|]. left.
      split; [exact Hc|]. unfold decision_offered. rewrite Hh, Hc. reflexivity.
    + intros ->. rewrite initialize_engine_demo in E1. discriminate.
Qed.

End AdventureFacts.

Section AdventureRuns.
Import PyStr PyText StoryEngine Config Engine App Sample.

Lemma start_new_story_outcomes_witness :
  decision_offered
    (fst (fst (Adventure.start_new_story no_draw no_gemini busy_endpoint
                 gemini_present library_present accept_all accept_all
                 accept_all (Some "true") empty_environ Clients.NoStreamlit
                 no_files
                 test_hero no_keys (initialize_session_state sample_clock)
                 0)))
  = true.
Proof.
  apply (proj2 (start_new_story_outcomes no_draw no_gemini busy_endpoint
                  gemini_present library_present accept_all accept_all
                  accept_all (Some "true") empty_environ Clients.NoStreamlit
                 no_files
                  test_hero no_keys (initialize_session_state sample_clock)
                  0)).
  reflexivity.
Defined.

End AdventureRuns.
